(** * BeebAsm expression engine (expression.cpp): a shallow embedding

    The development follows src/expression.cpp: the two operator tables,
    [GetValue], [EvaluateExpression] and its four typed entry points, the
    stack accessors, the integer coercion [ConvertDoubleToInt] and the
    operator handlers [Eval...].

    Conventions of the embedding:
    - a C++ [double] is an IEEE-754 binary64 value, represented by the
      standard library's [spec_float] with [prec = 53] and [emax = 1024];
    - a C++ [int] is a [Z] in [-2^31, 2^31), an [unsigned int] a [Z] in
      [0, 2^32); wrap-around is written out;
    - the parser object and the process-wide state ([errno], the random
      generator) are threaded explicitly; an exception carries the state
      it leaves behind (the cursor [m_column] survives a throw);
    - the position (line, column) stored inside an exception object is not
      modelled, only the exception's class;
    - collaborators that live in other files of the repository are fields
      of the record [Env]. *)

From Stdlib Require Import ZArith List String Ascii Bool Lia.
From Stdlib Require Import Floats.SpecFloat.
Import ListNotations.

Local Open Scope Z_scope.

(** ** Doubles *)

Module Double.

Definition double := spec_float.

Definition prec : Z := 53.
Definition emax : Z := 1024.

Definition add : double -> double -> double := SFadd prec emax.
Definition sub : double -> double -> double := SFsub prec emax.
Definition mul : double -> double -> double := SFmul prec emax.
Definition div : double -> double -> double := SFdiv prec emax.
Definition neg : double -> double := SFopp.
Definition fabs : double -> double := SFabs.
Definition ltb : double -> double -> bool := SFltb.
Definition leb : double -> double -> bool := SFleb.
Definition eqb : double -> double -> bool := SFeqb.
Definition gtb (x y : double) : bool := SFltb y x.

(** [static_cast<double>(n)] for an integer [n]; exact below 2^53. *)
Definition of_Z (n : Z) : double := binary_normalize prec emax n 0 false.

(** The integer part (truncation toward zero) of a finite double. *)
Definition trunc (d : double) : option Z :=
  match d with
  | S754_zero _ => Some 0
  | S754_finite s m e =>
      Some (cond_Zopp s
              (match e with
               | Z0 => Zpos m
               | Zpos _ => Zpos m * 2 ^ e
               | Zneg _ => Zpos m / 2 ^ (- e)
               end))
  | S754_infinity _ => None
  | S754_nan => None
  end.

Definition is_nan (d : double) : bool :=
  match d with S754_nan => true | _ => false end.

(** A double of the binary64 format (canonical mantissa and exponent). *)
Definition valid (d : double) : bool := valid_binary prec emax d.

End Double.

Definition double : Type := Double.double.

(** ** 32-bit integers *)

Definition INT_MIN : Z := -2147483648.
Definition INT_MAX : Z := 2147483647.
Definition UINT_MAX : Z := 4294967295.

(** [static_cast<unsigned int>(n)] for an [int] n. *)
Definition to_unsigned (n : Z) : Z := n mod 2 ^ 32.

(** [static_cast<int>(u)] for an [unsigned int] u (two's complement). *)
Definition to_signed (u : Z) : Z :=
  let w := u mod 2 ^ 32 in
  if w <? 2 ^ 31 then w else w - 2 ^ 32.

Definition is_int (n : Z) : Prop := INT_MIN <= n <= INT_MAX.

(** [static_cast<int>(d)]: undefined unless the truncated value is an int. *)
Definition cast_double_int (d : double) : option Z :=
  match Double.trunc d with
  | Some n => if (INT_MIN <=? n) && (n <=? INT_MAX) then Some n else None
  | None => None
  end.

(** [static_cast<unsigned int>(d)]: undefined unless the truncated value
    is an unsigned int. *)
Definition cast_double_uint (d : double) : option Z :=
  match Double.trunc d with
  | Some n => if (0 <=? n) && (n <=? UINT_MAX) then Some n else None
  | None => None
  end.

(** ** Values, exceptions, operators *)

Inductive ValueType := NumberValue | StringValue.

Inductive Value :=
| Number (d : double)
| Str (s : string).

Definition GetType (v : Value) : ValueType :=
  match v with Number _ => NumberValue | Str _ => StringValue end.

Definition ValueType_eqb (a b : ValueType) : bool :=
  match a, b with
  | NumberValue, NumberValue => true
  | StringValue, StringValue => true
  | _, _ => false
  end.

(** The classes [AsmException_SyntaxError_...] thrown by the engine. *)
Inductive AsmException :=
| InvalidCharacter | MissingQuote | SymbolNotDefined | EmptyExpression
| MismatchedParentheses | ParameterCount | ExpressionTooComplex
| TypeMismatch | MissingValue | DivisionByZero | NumberTooBig
| IllegalOperation | OutOfIntegerRange | TimeResultTooBig.

(** The member functions the operator tables point to: [Ptr.EvalAdd]
    stands for [&LineParser::EvalAdd]. *)
Module Ptr.
Inductive OperatorHandler :=
| EvalPower | EvalMultiply | EvalDivide | EvalMod | EvalDiv
| EvalShiftLeft | EvalShiftRight | EvalAdd | EvalSubtract
| EvalEqual | EvalNotEqual | EvalLessThanOrEqual | EvalMoreThanOrEqual
| EvalLessThan | EvalMoreThan | EvalAnd | EvalOr | EvalEor
| EvalNegate | EvalPosate | EvalHi | EvalLo
| EvalSin | EvalCos | EvalTan | EvalArcSin | EvalArcCos | EvalArcTan
| EvalSqrt | EvalDegToRad | EvalRadToDeg | EvalInt | EvalAbs | EvalSgn
| EvalRnd | EvalNot | EvalLog | EvalLn | EvalExp | EvalTime
| EvalStr | EvalStrHex | EvalVal | EvalEval | EvalLen | EvalChr | EvalAsc
| EvalMid | EvalLeft | EvalRight | EvalString | EvalUpper | EvalLower.

End Ptr.

Definition OperatorHandler : Type := Ptr.OperatorHandler.

(** [struct Operator]; [m_tokenLength] is the length of [token], and a
    NULL handler is [None]. *)
Record Operator := mkOperator {
  token : string;
  precedence : Z;
  parameterCount : Z;
  handler : option OperatorHandler
}.

Definition m_tokenLength (op : Operator) : nat := String.length (token op).

Definition m_gaBinaryOperatorTable : list Operator :=
  [ mkOperator ")"   (-1) 0 None;
    mkOperator "]"   (-1) 0 None;
    mkOperator ","   (-1) 0 None;
    mkOperator "^"   7 0 (Some Ptr.EvalPower);
    mkOperator "*"   6 0 (Some Ptr.EvalMultiply);
    mkOperator "/"   6 0 (Some Ptr.EvalDivide);
    mkOperator "%"   6 0 (Some Ptr.EvalMod);
    mkOperator "DIV" 6 0 (Some Ptr.EvalDiv);
    mkOperator "MOD" 6 0 (Some Ptr.EvalMod);
    mkOperator "<<"  6 0 (Some Ptr.EvalShiftLeft);
    mkOperator ">>"  6 0 (Some Ptr.EvalShiftRight);
    mkOperator "+"   5 0 (Some Ptr.EvalAdd);
    mkOperator "-"   5 0 (Some Ptr.EvalSubtract);
    mkOperator "=="  4 0 (Some Ptr.EvalEqual);
    mkOperator "="   4 0 (Some Ptr.EvalEqual);
    mkOperator "<>"  4 0 (Some Ptr.EvalNotEqual);
    mkOperator "!="  4 0 (Some Ptr.EvalNotEqual);
    mkOperator "<="  4 0 (Some Ptr.EvalLessThanOrEqual);
    mkOperator ">="  4 0 (Some Ptr.EvalMoreThanOrEqual);
    mkOperator "<"   4 0 (Some Ptr.EvalLessThan);
    mkOperator ">"   4 0 (Some Ptr.EvalMoreThan);
    mkOperator "AND" 3 0 (Some Ptr.EvalAnd);
    mkOperator "OR"  2 0 (Some Ptr.EvalOr);
    mkOperator "EOR" 2 0 (Some Ptr.EvalEor) ]%string.

Definition m_gaUnaryOperatorTable : list Operator :=
  [ mkOperator "("   (-1) 0 None;
    mkOperator "["   (-1) 0 None;
    mkOperator "-"   8 0 (Some Ptr.EvalNegate);
    mkOperator "+"   8 0 (Some Ptr.EvalPosate);
    mkOperator "HI(" 10 1 (Some Ptr.EvalHi);
    mkOperator "LO(" 10 1 (Some Ptr.EvalLo);
    mkOperator ">"   10 0 (Some Ptr.EvalHi);
    mkOperator "<"   10 0 (Some Ptr.EvalLo);
    mkOperator "SIN(" 10 1 (Some Ptr.EvalSin);
    mkOperator "COS(" 10 1 (Some Ptr.EvalCos);
    mkOperator "TAN(" 10 1 (Some Ptr.EvalTan);
    mkOperator "ASN(" 10 1 (Some Ptr.EvalArcSin);
    mkOperator "ACS(" 10 1 (Some Ptr.EvalArcCos);
    mkOperator "ATN(" 10 1 (Some Ptr.EvalArcTan);
    mkOperator "SQR(" 10 1 (Some Ptr.EvalSqrt);
    mkOperator "RAD(" 10 1 (Some Ptr.EvalDegToRad);
    mkOperator "DEG(" 10 1 (Some Ptr.EvalRadToDeg);
    mkOperator "INT(" 10 1 (Some Ptr.EvalInt);
    mkOperator "ABS(" 10 1 (Some Ptr.EvalAbs);
    mkOperator "SGN(" 10 1 (Some Ptr.EvalSgn);
    mkOperator "RND(" 10 1 (Some Ptr.EvalRnd);
    mkOperator "NOT(" 10 1 (Some Ptr.EvalNot);
    mkOperator "LOG(" 10 1 (Some Ptr.EvalLog);
    mkOperator "LN("  10 1 (Some Ptr.EvalLn);
    mkOperator "EXP(" 10 1 (Some Ptr.EvalExp);
    mkOperator "TIME$(" 10 1 (Some Ptr.EvalTime);
    mkOperator "STR$(" 10 1 (Some Ptr.EvalStr);
    mkOperator "STR$~(" 10 1 (Some Ptr.EvalStrHex);
    mkOperator "VAL(" 10 1 (Some Ptr.EvalVal);
    mkOperator "EVAL(" 10 1 (Some Ptr.EvalEval);
    mkOperator "LEN(" 10 1 (Some Ptr.EvalLen);
    mkOperator "CHR$(" 10 1 (Some Ptr.EvalChr);
    mkOperator "ASC(" 10 1 (Some Ptr.EvalAsc);
    mkOperator "MID$(" 10 3 (Some Ptr.EvalMid);
    mkOperator "LEFT$(" 10 2 (Some Ptr.EvalLeft);
    mkOperator "RIGHT$(" 10 2 (Some Ptr.EvalRight);
    mkOperator "STRING$(" 10 2 (Some Ptr.EvalString);
    mkOperator "UPPER$(" 10 1 (Some Ptr.EvalUpper);
    mkOperator "LOWER$(" 10 1 (Some Ptr.EvalLower) ]%string.

(** ** State *)

(** The parser object ([m_line], [m_column], the two stacks; a stack is a
    list whose head is the top, so [m_valueStackPtr] is its length) together
    with the process-wide [errno] and random generator. *)
Record State := mkState {
  m_line : string;
  m_column : nat;
  m_valueStack : list Value;
  m_operatorStack : list Operator;
  errno : Z;
  rand_state : Z
}.

Definition set_column (st : State) (c : nat) : State :=
  mkState (m_line st) c (m_valueStack st) (m_operatorStack st) (errno st) (rand_state st).
Definition set_values (st : State) (vs : list Value) : State :=
  mkState (m_line st) (m_column st) vs (m_operatorStack st) (errno st) (rand_state st).
Definition set_operators (st : State) (ops : list Operator) : State :=
  mkState (m_line st) (m_column st) (m_valueStack st) ops (errno st) (rand_state st).
Definition set_errno (st : State) (e : Z) : State :=
  mkState (m_line st) (m_column st) (m_valueStack st) (m_operatorStack st) e (rand_state st).
Definition set_rand (st : State) (r : Z) : State :=
  mkState (m_line st) (m_column st) (m_valueStack st) (m_operatorStack st) (errno st) r.

(** What a call can do: return, throw (leaving a state behind), run into
    C++ undefined behaviour, fail an [assert], or exhaust the fuel of the
    embedding. *)
Inductive Outcome (A : Type) :=
| Return (a : A) (st : State)
| Throw (e : AsmException) (st : State)
| Undefined
| AssertionFailed
| OutOfFuel.

Arguments Return {A} a st.
Arguments Throw {A} e st.
Arguments Undefined {A}.
Arguments AssertionFailed {A}.
Arguments OutOfFuel {A}.

Definition M (A : Type) : Type := State -> Outcome A.

Definition ret {A} (a : A) : M A := fun st => Return a st.
Definition throw {A} (e : AsmException) : M A := fun st => Throw e st.
Definition undefined {A} : M A := fun _ => Undefined.
Definition assertion_failed {A} : M A := fun _ => AssertionFailed.

Definition bind {A B} (m : M A) (k : A -> M B) : M B :=
  fun st =>
    match m st with
    | Return a st' => k a st'
    | Throw e st' => Throw e st'
    | Undefined => Undefined
    | AssertionFailed => AssertionFailed
    | OutOfFuel => OutOfFuel
    end.

Notation "x <- m ;; k" := (bind m (fun x => k))
  (at level 61, m at next level, right associativity).
Notation "m ;;; k" := (bind m (fun _ => k))
  (at level 61, right associativity).

Definition get_values : M (list Value) := fun st => Return (m_valueStack st) st.
Definition put_values (vs : list Value) : M unit := fun st => Return tt (set_values st vs).
Definition get_errno : M Z := fun st => Return (errno st) st.

(** ** Collaborators *)

(** [errno] values of <cerrno>. *)
Definition EDOM : Z := 33.
Definition ERANGE : Z := 34.

(** Functions and constants this file uses and other files define: the line
    driver, the literal and symbol scanners, the symbol table, the object
    code's program counter, the assembly phase and time, the random
    generator, the number printer, [Value::Compare], the stack bounds of
    lineparser.h, and the C library (a <cmath> function returns its result
    and the [errno] it sets, if any). *)
Record Env := mkEnv {
  MAX_VALUES : nat;
  MAX_OPERATORS : nat;
  AdvanceAndCheckEndOfSubStatement : bool -> string -> nat -> bool * nat;
  ParseNumeric : string -> nat -> option (double * nat);
  GetSymbolName : string -> nat -> string * nat;
  GetSymbolValue : string -> option Value;
  GetPC : Z;
  IsFirstPass : bool;
  SkipExpression : Z -> bool -> string -> nat -> nat;
  strftime_assembly_time : string -> string;
  beebasm_rand : Z -> Z * Z;
  BEEBASM_RAND_MAX : Z;
  PrintNumber : double -> string;
  Compare : Value -> Value -> Z;
  const_pi : double;
  char_is_signed : bool;
  c_strtod : string -> double * option Z;
  c_pow : double -> double -> double * option Z;
  c_sin : double -> double * option Z;
  c_cos : double -> double * option Z;
  c_tan : double -> double * option Z;
  c_asin : double -> double * option Z;
  c_acos : double -> double * option Z;
  c_atan : double -> double * option Z;
  c_log10 : double -> double * option Z;
  c_log : double -> double * option Z;
  c_exp : double -> double * option Z;
  c_sqrt : double -> double * option Z
}.

(** ** The String primitive *)

(** Class [String] lives in a header that is not among the sources of
    [expression.cpp]; its operations are taken from the specification's
    description of the primitive: "length, index (byte), substring(offset,
    length), concat, repeat(n), to-upper / to-lower (ASCII only)". *)
Module StringPrim.

(** Modelled from the spec: [String::Length], the number of bytes. *)
Definition Length (s : string) : Z := Z.of_nat (String.length s).

(** Modelled from the spec: [String::SubString], "substring(offset,
    length)"; the callers keep the range inside the string. *)
Definition SubString (s : string) (start len : Z) : string :=
  substring (Z.to_nat start) (Z.to_nat len) s.

Fixpoint repeat_nat (s : string) (n : nat) : string :=
  match n with
  | O => EmptyString
  | S k => append s (repeat_nat s k)
  end.

(** Modelled from the spec: [String::Repeat], "repeat(n)": [n] copies
    end to end, none when [n] is 0. *)
Definition Repeat (s : string) (n : Z) : string := repeat_nat s (Z.to_nat n).

Definition upper_char (c : ascii) : ascii :=
  let n := nat_of_ascii c in
  if ((97 <=? n) && (n <=? 122))%nat then ascii_of_nat (n - 32) else c.

Definition lower_char (c : ascii) : ascii :=
  let n := nat_of_ascii c in
  if ((65 <=? n) && (n <=? 90))%nat then ascii_of_nat (n + 32) else c.

Fixpoint map_chars (f : ascii -> ascii) (s : string) : string :=
  match s with
  | EmptyString => EmptyString
  | String c r => String (f c) (map_chars f r)
  end.

(** Modelled from the spec: [String::Upper], "to-upper (ASCII only)". *)
Definition Upper : string -> string := map_chars upper_char.

(** Modelled from the spec: [String::Lower], "to-lower (ASCII only)". *)
Definition Lower : string -> string := map_chars lower_char.

End StringPrim.

(** Modelled from the spec: [Ascii::ToUpper], the ASCII-only,
    locale-independent upper-casing of one character. *)
Definition ToUpper (c : ascii) : ascii := StringPrim.upper_char c.

(** Modelled from the spec: [Ascii::IsAlpha], true on the 52 ASCII
    letters. *)
Definition IsAlpha (c : ascii) : bool :=
  let n := nat_of_ascii c in
  (((65 <=? n) && (n <=? 90)) || ((97 <=? n) && (n <=? 122)))%nat.

(** ** Stack accessors *)

Definition StackTopTwoValues : M (Value * Value) :=
  vs <- get_values ;;
  match vs with
  | value2 :: value1 :: _ =>
      if ValueType_eqb (GetType value1) (GetType value2)
      then ret (value1, value2)
      else throw TypeMismatch
  | _ => throw MissingValue
  end.

Definition StackTopString : M string :=
  vs <- get_values ;;
  match vs with
  | [] => throw MissingValue
  | Str s :: _ => ret s
  | Number _ :: _ => throw TypeMismatch
  end.

Definition StackTopNumber : M double :=
  vs <- get_values ;;
  match vs with
  | [] => throw MissingValue
  | Number d :: _ => ret d
  | Str _ :: _ => throw TypeMismatch
  end.

Definition StackTopTwoNumbers : M (double * double) :=
  vs <- get_values ;;
  match vs with
  | Number d2 :: Number d1 :: _ => ret (d1, d2)
  | _ :: _ :: _ => throw TypeMismatch
  | _ => throw MissingValue
  end.

Definition ConvertDoubleToInt (value : double) : M Z :=
  if Double.ltb value (Double.of_Z INT_MIN) || Double.gtb value (Double.of_Z UINT_MAX)
  then throw OutOfIntegerRange
  else if Double.leb value (Double.of_Z INT_MAX)
       then match cast_double_int value with
            | Some n => ret n
            | None => undefined
            end
       else match cast_double_uint value with
            | Some u => ret (to_signed u)
            | None => undefined
            end.

Definition StackTopInt : M Z :=
  d <- StackTopNumber ;; ConvertDoubleToInt d.

Definition StackTopTwoInts : M (Z * Z) :=
  p <- StackTopTwoNumbers ;;
  a <- ConvertDoubleToInt (fst p) ;;
  b <- ConvertDoubleToInt (snd p) ;;
  ret (a, b).

(** [m_valueStack[ m_valueStackPtr - 1 ] = v]. *)
Definition SetTop (v : Value) : M unit :=
  vs <- get_values ;;
  match vs with
  | _ :: rest => put_values (v :: rest)
  | [] => undefined
  end.

(** [m_valueStack[ m_valueStackPtr - 2 ] = v; m_valueStackPtr--]. *)
Definition SetSecondAndPop (v : Value) : M unit :=
  vs <- get_values ;;
  match vs with
  | _ :: _ :: rest => put_values (v :: rest)
  | _ => undefined
  end.

(** Calling a <cmath> function: the result, and [errno] updated when the
    function reports an error. *)
Definition call_math (r : double * option Z) : M double :=
  fun st =>
    match snd r with
    | Some e => Return (fst r) (set_errno st e)
    | None => Return (fst r) st
    end.

(** ** Shifting helper functions *)

Definition LogicalShiftLeft (value shift : Z) : Z :=
  to_signed (Z.shiftl (to_unsigned value) shift mod 2 ^ 32).

Definition ArithmeticShiftRight (value shift : Z) : Z :=
  let shifted := Z.shiftr (to_unsigned value) shift in
  let shifted :=
    if value <? 0 then
      let bitcount := 32 in
      let ones := UINT_MAX in
      Z.lor shifted (Z.shiftl ones (bitcount - shift) mod 2 ^ 32)
    else shifted in
  to_signed shifted.

(** [stream << std::hex << std::uppercase << n] for an [int] n: the digits
    of its unsigned 32-bit representation. *)
Definition hex_digit (n : Z) : ascii :=
  match String.get (Z.to_nat n) "0123456789ABCDEF" with
  | Some c => c
  | None => "0"%char
  end.

Fixpoint hex_digits (fuel : nat) (n : Z) (acc : string) : string :=
  match fuel with
  | O => acc
  | S f =>
      let acc' := String (hex_digit (n mod 16)) acc in
      if n / 16 =? 0 then acc' else hex_digits f (n / 16) acc'
  end.

Definition hex_of_int (n : Z) : string := hex_digits 8 (to_unsigned n) EmptyString.

(** ** Operator handlers *)

Section Handlers.

Variable E : Env.

(** [EvalEval] builds a second parser and runs [EvaluateExpression] on it;
    the recursive call is a parameter here and is tied by the fixpoint
    [EvaluateExpression_loop] below. *)
Variable eval_nested : string -> M Value.

Definition d_zero : double := Double.of_Z 0.
Definition d_one : double := Double.of_Z 1.
Definition d_180 : double := Double.of_Z 180.

Definition truth (b : bool) : Value := Number (Double.of_Z (if b then -1 else 0)).

Definition EvalAdd : M unit :=
  values <- StackTopTwoValues ;;
  match fst values, snd values with
  | Number a, Number b => SetSecondAndPop (Number (Double.add a b))
  | Str a, Str b => SetSecondAndPop (Str (append a b))
  | _, _ => assertion_failed
  end.

Definition EvalSubtract : M unit :=
  values <- StackTopTwoNumbers ;;
  SetSecondAndPop (Number (Double.sub (fst values) (snd values))).

Definition EvalMultiply : M unit :=
  values <- StackTopTwoNumbers ;;
  SetSecondAndPop (Number (Double.mul (fst values) (snd values))).

Definition EvalDivide : M unit :=
  values <- StackTopTwoNumbers ;;
  if Double.eqb (snd values) d_zero then throw DivisionByZero
  else SetSecondAndPop (Number (Double.div (fst values) (snd values))).

Definition EvalPower : M unit :=
  values <- StackTopTwoNumbers ;;
  r <- call_math (c_pow E (fst values) (snd values)) ;;
  SetSecondAndPop (Number r) ;;;
  e <- get_errno ;;
  if e =? ERANGE then throw NumberTooBig
  else if e =? EDOM then throw IllegalOperation
  else ret tt.

(** [a / b] and [a % b] on [int]: truncated; [INT_MIN / -1] overflows. *)
Definition EvalDiv : M unit :=
  values <- StackTopTwoInts ;;
  if snd values =? 0 then throw DivisionByZero
  else if (fst values =? INT_MIN) && (snd values =? -1) then undefined
  else SetSecondAndPop (Number (Double.of_Z (Z.quot (fst values) (snd values)))).

Definition EvalMod : M unit :=
  values <- StackTopTwoInts ;;
  if snd values =? 0 then throw DivisionByZero
  else if (fst values =? INT_MIN) && (snd values =? -1) then undefined
  else SetSecondAndPop (Number (Double.of_Z (Z.rem (fst values) (snd values)))).

Definition shift_left_result (val shift : Z) : Z :=
  if (shift >? 31) || (shift <? -31) then 0
  else if shift >? 0 then LogicalShiftLeft val shift
  else if shift =? 0 then val
  else ArithmeticShiftRight val (- shift).

Definition shift_right_result (val shift : Z) : Z :=
  if (shift >? 31) || (shift <? -31) then 0
  else if shift >? 0 then ArithmeticShiftRight val shift
  else if shift =? 0 then val
  else LogicalShiftLeft val (- shift).

Definition EvalShiftLeft : M unit :=
  values <- StackTopTwoInts ;;
  SetSecondAndPop (Number (Double.of_Z (shift_left_result (fst values) (snd values)))).

Definition EvalShiftRight : M unit :=
  values <- StackTopTwoInts ;;
  SetSecondAndPop (Number (Double.of_Z (shift_right_result (fst values) (snd values)))).

Definition EvalAnd : M unit :=
  values <- StackTopTwoInts ;;
  SetSecondAndPop (Number (Double.of_Z (Z.land (fst values) (snd values)))).

Definition EvalOr : M unit :=
  values <- StackTopTwoInts ;;
  SetSecondAndPop (Number (Double.of_Z (Z.lor (fst values) (snd values)))).

Definition EvalEor : M unit :=
  values <- StackTopTwoInts ;;
  SetSecondAndPop (Number (Double.of_Z (Z.lxor (fst values) (snd values)))).

Definition EvalEqual : M unit :=
  values <- StackTopTwoValues ;;
  SetSecondAndPop (truth (Compare E (fst values) (snd values) =? 0)).

Definition EvalNotEqual : M unit :=
  values <- StackTopTwoValues ;;
  SetSecondAndPop (truth (negb (Compare E (fst values) (snd values) =? 0))).

Definition EvalLessThanOrEqual : M unit :=
  values <- StackTopTwoValues ;;
  SetSecondAndPop (truth (Compare E (fst values) (snd values) <=? 0)).

Definition EvalMoreThanOrEqual : M unit :=
  values <- StackTopTwoValues ;;
  SetSecondAndPop (truth (Compare E (fst values) (snd values) >=? 0)).

Definition EvalLessThan : M unit :=
  values <- StackTopTwoValues ;;
  SetSecondAndPop (truth (Compare E (fst values) (snd values) <? 0)).

Definition EvalMoreThan : M unit :=
  values <- StackTopTwoValues ;;
  SetSecondAndPop (truth (Compare E (fst values) (snd values) >? 0)).

Definition EvalNegate : M unit :=
  d <- StackTopNumber ;; SetTop (Number (Double.neg d)).

Definition EvalNot : M unit :=
  n <- StackTopInt ;; SetTop (Number (Double.of_Z (Z.lnot n))).

Definition EvalPosate : M unit :=
  vs <- get_values ;;
  match vs with
  | [] => throw MissingValue
  | _ :: _ => ret tt
  end.

Definition EvalLo : M unit :=
  n <- StackTopInt ;; SetTop (Number (Double.of_Z (Z.land n 255))).

Definition EvalHi : M unit :=
  n <- StackTopInt ;; SetTop (Number (Double.of_Z (Z.shiftr (Z.land n 65535) 8))).

Definition EvalSin : M unit :=
  d <- StackTopNumber ;; r <- call_math (c_sin E d) ;; SetTop (Number r).

Definition EvalCos : M unit :=
  d <- StackTopNumber ;; r <- call_math (c_cos E d) ;; SetTop (Number r).

Definition EvalTan : M unit :=
  d <- StackTopNumber ;; r <- call_math (c_tan E d) ;; SetTop (Number r).

Definition throw_if_errno (codes : list Z) (ex : AsmException) : M unit :=
  e <- get_errno ;;
  if existsb (Z.eqb e) codes then throw ex else ret tt.

Definition EvalArcSin : M unit :=
  d <- StackTopNumber ;; r <- call_math (c_asin E d) ;; SetTop (Number r) ;;;
  throw_if_errno [EDOM] IllegalOperation.

Definition EvalArcCos : M unit :=
  d <- StackTopNumber ;; r <- call_math (c_acos E d) ;; SetTop (Number r) ;;;
  throw_if_errno [EDOM] IllegalOperation.

Definition EvalArcTan : M unit :=
  d <- StackTopNumber ;; r <- call_math (c_atan E d) ;; SetTop (Number r) ;;;
  throw_if_errno [EDOM] IllegalOperation.

Definition EvalLog : M unit :=
  d <- StackTopNumber ;; r <- call_math (c_log10 E d) ;; SetTop (Number r) ;;;
  throw_if_errno [EDOM; ERANGE] IllegalOperation.

Definition EvalLn : M unit :=
  d <- StackTopNumber ;; r <- call_math (c_log E d) ;; SetTop (Number r) ;;;
  throw_if_errno [EDOM; ERANGE] IllegalOperation.

Definition EvalExp : M unit :=
  d <- StackTopNumber ;; r <- call_math (c_exp E d) ;; SetTop (Number r) ;;;
  throw_if_errno [ERANGE] IllegalOperation.

Definition EvalSqrt : M unit :=
  d <- StackTopNumber ;; r <- call_math (c_sqrt E d) ;; SetTop (Number r) ;;;
  throw_if_errno [EDOM] IllegalOperation.

Definition EvalDegToRad : M unit :=
  d <- StackTopNumber ;;
  SetTop (Number (Double.div (Double.mul d (const_pi E)) d_180)).

Definition EvalRadToDeg : M unit :=
  d <- StackTopNumber ;;
  SetTop (Number (Double.div (Double.mul d d_180) (const_pi E))).

Definition EvalInt : M unit :=
  n <- StackTopInt ;; SetTop (Number (Double.of_Z n)).

Definition EvalAbs : M unit :=
  d <- StackTopNumber ;; SetTop (Number (Double.fabs d)).

Definition EvalSgn : M unit :=
  val <- StackTopNumber ;;
  SetTop (Number (if Double.ltb val d_zero then Double.of_Z (-1)
                  else if Double.gtb val d_zero then d_one else d_zero)).

Definition call_rand : M Z :=
  fun st => let r := beebasm_rand E (rand_state st) in Return (fst r) (set_rand st (snd r)).

Definition EvalRnd : M unit :=
  val <- StackTopNumber ;;
  if Double.ltb val d_one then throw IllegalOperation
  else if Double.eqb val d_one then
    r <- call_rand ;;
    SetTop (Number (Double.div (Double.of_Z r)
                      (Double.add (Double.of_Z (BEEBASM_RAND_MAX E)) d_one)))
  else
    r <- call_rand ;;
    n <- ConvertDoubleToInt
           (Double.mul (Double.div (Double.of_Z r)
                          (Double.add (Double.of_Z (BEEBASM_RAND_MAX E)) d_one)) val) ;;
    SetTop (Number (Double.of_Z n)).

Definition FormatAssemblyTime (formatString : string) : M Value :=
  let timeString := strftime_assembly_time E formatString in
  if (String.length timeString =? 0)%nat then throw TimeResultTooBig
  else ret (Str timeString).

Definition EvalTime : M unit :=
  s <- StackTopString ;; v <- FormatAssemblyTime s ;; SetTop v.

Definition EvalStr : M unit :=
  d <- StackTopNumber ;; SetTop (Str (PrintNumber E d)).

Definition EvalStrHex : M unit :=
  n <- StackTopInt ;; SetTop (Str (hex_of_int n)).

Definition EvalVal : M unit :=
  str <- StackTopString ;; value <- call_math (c_strtod E str) ;; SetTop (Number value).

Definition EvalEval : M unit :=
  expr <- StackTopString ;; result <- eval_nested expr ;; SetTop result.

Definition EvalLen : M unit :=
  str <- StackTopString ;; SetTop (Number (Double.of_Z (StringPrim.Length str))).

Definition EvalChr : M unit :=
  ascii <- StackTopInt ;;
  if (ascii <? 0) || (ascii >? 255) then throw IllegalOperation
  else SetTop (Str (String (ascii_of_nat (Z.to_nat ascii)) EmptyString)).

Definition EvalAsc : M unit :=
  str <- StackTopString ;;
  match str with
  | EmptyString => throw IllegalOperation
  | String c _ => SetTop (Number (Double.of_Z (Z.of_nat (nat_of_ascii c))))
  end.

Definition EvalMid : M unit :=
  vs <- get_values ;;
  match vs with
  | value3 :: value2 :: value1 :: rest =>
      match value1, value2, value3 with
      | Str text, Number d2, Number d3 =>
          put_values (value1 :: rest) ;;;
          i <- ConvertDoubleToInt d2 ;;
          if i =? INT_MIN then undefined else
          let index := i - 1 in
          length <- ConvertDoubleToInt d3 ;;
          if (index <? 0) || (to_unsigned index >? StringPrim.Length text) || (length <? 0)
          then throw IllegalOperation
          else SetTop (Str (StringPrim.SubString text index length))
      | _, _, _ => throw TypeMismatch
      end
  | _ => throw MissingValue
  end.

Definition EvalLeft : M unit :=
  vs <- get_values ;;
  match vs with
  | value2 :: value1 :: rest =>
      match value1, value2 with
      | Str text, Number d2 =>
          put_values (value1 :: rest) ;;;
          count <- ConvertDoubleToInt d2 ;;
          if (count <? 0) || (to_unsigned count >? StringPrim.Length text)
          then throw IllegalOperation
          else SetTop (Str (StringPrim.SubString text 0 count))
      | _, _ => throw TypeMismatch
      end
  | _ => throw MissingValue
  end.

Definition EvalRight : M unit :=
  vs <- get_values ;;
  match vs with
  | value2 :: value1 :: rest =>
      match value1, value2 with
      | Str text, Number d2 =>
          put_values (value1 :: rest) ;;;
          count <- ConvertDoubleToInt d2 ;;
          if (count <? 0) || (to_unsigned count >? StringPrim.Length text)
          then throw IllegalOperation
          else
            let ucount := to_unsigned count in
            SetTop (Str (StringPrim.SubString text (StringPrim.Length text - ucount) ucount))
      | _, _ => throw TypeMismatch
      end
  | _ => throw MissingValue
  end.

Definition EvalString : M unit :=
  vs <- get_values ;;
  match vs with
  | value2 :: value1 :: rest =>
      match value1, value2 with
      | Number d1, Str text =>
          put_values (value2 :: rest) ;;;
          count <- ConvertDoubleToInt d1 ;;
          if (count <? 0) || (count >=? 65536) || (StringPrim.Length text >=? 65536)
             || ((to_unsigned count * StringPrim.Length text) mod 2 ^ 32 >=? 65536)
          then throw IllegalOperation
          else SetTop (Str (StringPrim.Repeat text count))
      | _, _ => throw TypeMismatch
      end
  | _ => throw MissingValue
  end.

Definition EvalUpper : M unit :=
  s <- StackTopString ;; SetTop (Str (StringPrim.Upper s)).

Definition EvalLower : M unit :=
  s <- StackTopString ;; SetTop (Str (StringPrim.Lower s)).

(** [( this->*opHandler )()]. *)
Definition call_handler (h : OperatorHandler) : M unit :=
  match h with
  | Ptr.EvalPower => EvalPower | Ptr.EvalMultiply => EvalMultiply
  | Ptr.EvalDivide => EvalDivide | Ptr.EvalMod => EvalMod | Ptr.EvalDiv => EvalDiv
  | Ptr.EvalShiftLeft => EvalShiftLeft | Ptr.EvalShiftRight => EvalShiftRight
  | Ptr.EvalAdd => EvalAdd | Ptr.EvalSubtract => EvalSubtract
  | Ptr.EvalEqual => EvalEqual | Ptr.EvalNotEqual => EvalNotEqual
  | Ptr.EvalLessThanOrEqual => EvalLessThanOrEqual
  | Ptr.EvalMoreThanOrEqual => EvalMoreThanOrEqual
  | Ptr.EvalLessThan => EvalLessThan | Ptr.EvalMoreThan => EvalMoreThan
  | Ptr.EvalAnd => EvalAnd | Ptr.EvalOr => EvalOr | Ptr.EvalEor => EvalEor
  | Ptr.EvalNegate => EvalNegate | Ptr.EvalPosate => EvalPosate
  | Ptr.EvalHi => EvalHi | Ptr.EvalLo => EvalLo
  | Ptr.EvalSin => EvalSin | Ptr.EvalCos => EvalCos | Ptr.EvalTan => EvalTan
  | Ptr.EvalArcSin => EvalArcSin | Ptr.EvalArcCos => EvalArcCos
  | Ptr.EvalArcTan => EvalArcTan | Ptr.EvalSqrt => EvalSqrt
  | Ptr.EvalDegToRad => EvalDegToRad | Ptr.EvalRadToDeg => EvalRadToDeg
  | Ptr.EvalInt => EvalInt | Ptr.EvalAbs => EvalAbs | Ptr.EvalSgn => EvalSgn
  | Ptr.EvalRnd => EvalRnd | Ptr.EvalNot => EvalNot
  | Ptr.EvalLog => EvalLog | Ptr.EvalLn => EvalLn | Ptr.EvalExp => EvalExp
  | Ptr.EvalTime => EvalTime | Ptr.EvalStr => EvalStr | Ptr.EvalStrHex => EvalStrHex
  | Ptr.EvalVal => EvalVal | Ptr.EvalEval => EvalEval | Ptr.EvalLen => EvalLen
  | Ptr.EvalChr => EvalChr | Ptr.EvalAsc => EvalAsc
  | Ptr.EvalMid => EvalMid | Ptr.EvalLeft => EvalLeft | Ptr.EvalRight => EvalRight
  | Ptr.EvalString => EvalString
  | Ptr.EvalUpper => EvalUpper | Ptr.EvalLower => EvalLower
  end.

End Handlers.

(** ** GetValue *)

Definition get_state : M State := fun st => Return st st.
Definition put_column (c : nat) : M unit := fun st => Return tt (set_column st c).
Definition get_operators : M (list Operator) := fun st => Return (m_operatorStack st) st.
Definition put_operators (ops : list Operator) : M unit :=
  fun st => Return tt (set_operators st ops).

Definition quote_char : ascii := ascii_of_nat 34.
Definition apostrophe_char : ascii := ascii_of_nat 39.

Definition char_is (c : ascii) (o : option ascii) : bool :=
  match o with
  | Some x => Ascii.eqb x c
  | None => false
  end.

(** [static_cast<double>(c)] for a plain [char] c. *)
Definition double_of_char (E : Env) (c : ascii) : double :=
  let n := Z.of_nat (nat_of_ascii c) in
  Double.of_Z (if char_is_signed E && (128 <=? n) then n - 256 else n).

(** The body of the string-literal loop, started after the opening quote:
    [rest] is the line from [col] on, [text] the characters collected so
    far.  [None] is the exit with [done == false]. *)
Fixpoint scan_string_literal (rest : string) (col : nat) (text : string)
  : option (string * nat) :=
  match rest with
  | EmptyString => None
  | String c rest' =>
      if Ascii.eqb c quote_char then
        match rest' with
        | String c' rest'' =>
            if Ascii.eqb c' quote_char
            then scan_string_literal rest'' (col + 2) (append text (String c EmptyString))
            else Some (text, (col + 1)%nat)
        | EmptyString => Some (text, (col + 1)%nat)
        end
      else scan_string_literal rest' (col + 1) (append text (String c EmptyString))
  end.

Definition line_from (line : string) (col : nat) : string :=
  substring col (String.length line - col) line.

Definition GetValue (E : Env) : M Value :=
  st <- get_state ;;
  let line := m_line st in
  let col := m_column st in
  match ParseNumeric E line col with
  | Some (double_value, col') => put_column col' ;;; ret (Number double_value)
  | None =>
      let here := String.get col line in
      if char_is "*" here then
        put_column (col + 1) ;;; ret (Number (Double.of_Z (GetPC E)))
      else if char_is apostrophe_char here then
        if (String.length line - col <? 3)%nat
           || negb (char_is apostrophe_char (String.get (col + 2) line))
        then throw InvalidCharacter
        else
          match String.get (col + 1) line with
          | Some c => put_column (col + 3) ;;; ret (Number (double_of_char E c))
          | None => undefined
          end
      else if char_is quote_char here then
        match scan_string_literal (line_from line (col + 1)) (col + 1) EmptyString with
        | Some (text, col') => put_column col' ;;; ret (Str text)
        | None => put_column (String.length line) ;;; throw MissingQuote
        end
      else
        match here with
        | Some c =>
            if IsAlpha c || Ascii.eqb c "_" then
              let (symbolName, col') := GetSymbolName E line col in
              put_column col' ;;;
              if String.eqb symbolName "TIME$"
              then FormatAssemblyTime E "%a,%d %b %Y.%H:%M:%S"
              else
                match GetSymbolValue E symbolName with
                | Some value => ret value
                | None => throw SymbolNotDefined
                end
            else throw InvalidCharacter
        | None => throw InvalidCharacter
        end
  end.

(** ** EvaluateExpression *)

Inductive TYPE := VALUE_OR_UNARY | BINARY.

(** The local variables of [EvaluateExpression] that live across loop
    iterations. *)
Record Locals := mkLocals {
  bracketCount : Z;
  pendingCommaCount : Z;
  expected : TYPE
}.

(** How an iteration of the main loop ends: at the loop head again, or by
    [break]. *)
Inductive Control :=
| Continue (l : Locals)
| Break.

(** The token loop: [token[ j ] != Ascii::ToUpper( m_line[ m_column + j ] )]. *)
Fixpoint token_matches (tok line : string) (col : nat) : bool :=
  match tok with
  | EmptyString => true
  | String c rest =>
      match String.get col line with
      | None => false
      | Some x => if Ascii.eqb c (ToUpper x) then token_matches rest line (S col) else false
      end
  end.

(** The table loop: the first row whose token matches. *)
Fixpoint match_token (table : list Operator) (line : string) (col : nat) : option Operator :=
  match table with
  | [] => None
  | op :: rest =>
      if token_matches (token op) line col then Some op else match_token rest line col
  end.

Definition ends_with_open_bracket (op : Operator) : bool :=
  (1 <? m_tokenLength op)%nat
  && char_is "(" (String.get (m_tokenLength op - 1) (token op)).

Section Parser.

Variable E : Env.
Variable call : OperatorHandler -> M unit.
Variable bAllowOneMismatchedCloseBracket : bool.

(** [while ( m_operatorStackPtr > 0 && cond(top) ) { pop; call handler }];
    [ops] is the operator stack on entry (handlers never touch it). *)
Fixpoint unwind_while (cond : Operator -> bool) (ops : list Operator) : M unit :=
  match ops with
  | [] => ret tt
  | top :: below =>
      if cond top then
        put_operators below ;;;
        match handler top with
        | None => assertion_failed
        | Some opHandler => call opHandler ;;; unwind_while cond below
        end
      else ret tt
  end.

(** The loop of a close bracket or separator: pops and calls handlers
    until a NULL handler is popped, which is returned
    ([m_operatorStack[ m_operatorStackPtr ]] after the loop). *)
Fixpoint unwind_to_bracket (ops : list Operator) : M (option Operator) :=
  match ops with
  | [] => ret None
  | top :: below =>
      put_operators below ;;;
      match handler top with
      | Some opHandler => call opHandler ;;; unwind_to_bracket below
      | None => ret (Some top)
      end
  end.

(** "purge the operator stack". *)
Fixpoint purge (ops : list Operator) : M unit :=
  match ops with
  | [] => ret tt
  | top :: below =>
      put_operators below ;;;
      match handler top with
      | None => throw MismatchedParentheses
      | Some opHandler => call opHandler ;;; purge below
      end
  end.

Definition push_operator (thisOp : Operator) : M unit :=
  ops <- get_operators ;;
  if (List.length ops =? MAX_OPERATORS E)%nat then throw ExpressionTooComplex
  else put_operators (thisOp :: ops).

(** The [try { value = GetValue(); } catch ( SymbolNotDefined& ) ...] block. *)
Definition GetValue_guarded (l : Locals) : M Value :=
  fun st =>
    match GetValue E st with
    | Throw SymbolNotDefined st' =>
        if IsFirstPass E
        then Throw SymbolNotDefined
               (set_column st' (SkipExpression E (bracketCount l)
                                  bAllowOneMismatchedCloseBracket (m_line st') (m_column st')))
        else Throw SymbolNotDefined st'
    | r => r
    end.

Definition value_or_unary (l : Locals) : M Control :=
  st <- get_state ;;
  match match_token m_gaUnaryOperatorTable (m_line st) (m_column st) with
  | None =>
      if (List.length (m_valueStack st) =? MAX_VALUES E)%nat
      then throw ExpressionTooComplex
      else
        value <- GetValue_guarded l ;;
        vs <- get_values ;;
        put_values (value :: vs) ;;;
        ret (Continue (mkLocals (bracketCount l) (pendingCommaCount l) BINARY))
  | Some matched =>
      let column := (m_column st + m_tokenLength matched)%nat in
      let is_function := ends_with_open_bracket matched in
      let pending := if is_function then parameterCount matched - 1
                     else pendingCommaCount l in
      let column := if is_function then (column - 1)%nat else column in
      put_column column ;;;
      (if is_function && negb (char_is "(" (String.get column (m_line st)))
       then assertion_failed else ret tt) ;;;
      match handler matched with
      | Some _ =>
          ops <- get_operators ;;
          unwind_while (fun top => precedence matched <? precedence top) ops ;;;
          push_operator matched ;;;
          ret (Continue (mkLocals (bracketCount l) pending (expected l)))
      | None =>
          let thisOp := mkOperator (token matched) (precedence matched) pending
                          (handler matched) in
          push_operator thisOp ;;;
          ret (Continue (mkLocals (bracketCount l + 1) 0 (expected l)))
      end
  end.

Definition binary (l : Locals) : M Control :=
  st <- get_state ;;
  match match_token m_gaBinaryOperatorTable (m_line st) (m_column st) with
  | None => throw InvalidCharacter
  | Some thisOp =>
      put_column (m_column st + m_tokenLength thisOp) ;;;
      match handler thisOp with
      | Some _ =>
          ops <- get_operators ;;
          unwind_while (fun top => precedence thisOp <=? precedence top) ops ;;;
          push_operator thisOp ;;;
          ret (Continue (mkLocals (bracketCount l) (pendingCommaCount l) VALUE_OR_UNARY))
      | None =>
          let separator := String.eqb (token thisOp) "," in
          let count := if separator then bracketCount l else bracketCount l - 1 in
          ops <- get_operators ;;
          found <- unwind_to_bracket ops ;;
          match found with
          | Some bracket =>
              if separator then
                if parameterCount bracket =? 0 then throw ParameterCount
                else
                  below <- get_operators ;;
                  put_operators
                    (mkOperator (token bracket) (precedence bracket)
                       (parameterCount bracket - 1) (handler bracket) :: below) ;;;
                  ret (Continue (mkLocals count (pendingCommaCount l) VALUE_OR_UNARY))
              else
                if negb (parameterCount bracket =? 0) then throw ParameterCount
                else ret (Continue (mkLocals count (pendingCommaCount l) (expected l)))
          | None =>
              if bAllowOneMismatchedCloseBracket then
                st' <- get_state ;;
                put_column (m_column st' - 1) ;;;
                ret Break
              else throw MismatchedParentheses
          end
      end
  end.

(** One iteration of the main [while] loop, after the loop condition. *)
Definition loop_body (l : Locals) : M Control :=
  match expected l with
  | VALUE_OR_UNARY => value_or_unary l
  | BINARY => binary l
  end.

(** The code after the loop: purge, [assert( m_valueStackPtr <= 1 )], the
    empty check and [return m_valueStack[ 0 ]]. *)
Definition finish : M Value :=
  ops <- get_operators ;;
  purge ops ;;;
  vs <- get_values ;;
  match vs with
  | [] => throw EmptyExpression
  | [v] => ret v
  | _ :: _ :: _ => assertion_failed
  end.

End Parser.

Definition initial_locals : Locals := mkLocals 0 0 VALUE_OR_UNARY.

(** A parser object constructed on [line], inside the process state of [st]. *)
Definition new_parser (line : string) (st : State) : State :=
  mkState line 0 [] [] (errno st) (rand_state st).

(** What a finished call on another parser object leaves in [st]: the
    process-wide part. *)
Definition absorb (st inner : State) : State :=
  set_rand (set_errno st (errno inner)) (rand_state inner).

Definition on_parser {A} (run : M A) (line : string) : M A :=
  fun st =>
    match run (new_parser line st) with
    | Return a inner => Return a (absorb st inner)
    | Throw e inner => Throw e (absorb st inner)
    | Undefined => Undefined
    | AssertionFailed => AssertionFailed
    | OutOfFuel => OutOfFuel
    end.

(** The main loop of [EvaluateExpression], from the loop head.  [fuel]
    bounds the iterations and the nesting of [EVAL(...)]: each iteration
    and each nested parser gets one unit less. *)
Fixpoint EvaluateExpression_loop (E : Env) (fuel : nat)
    (bAllowOneMismatchedCloseBracket : bool) (l : Locals) : M Value :=
  match fuel with
  | O => fun _ => OutOfFuel
  | S fuel' =>
      let call :=
        call_handler E
          (on_parser (EvaluateExpression_loop E fuel' false initial_locals)) in
      fun st =>
        let r := AdvanceAndCheckEndOfSubStatement E (bracketCount l =? 0)
                   (m_line st) (m_column st) in
        let st := set_column st (snd r) in
        if fst r then
          match loop_body E call bAllowOneMismatchedCloseBracket l st with
          | Return (Continue l') st' =>
              EvaluateExpression_loop E fuel' bAllowOneMismatchedCloseBracket l' st'
          | Return Break st' => finish call st'
          | Throw e st' => Throw e st'
          | Undefined => Undefined
          | AssertionFailed => AssertionFailed
          | OutOfFuel => OutOfFuel
          end
        else finish call st
  end.

(** [LineParser::EvaluateExpression]: both stacks are reset, then the loop. *)
Definition EvaluateExpression (E : Env) (fuel : nat)
    (bAllowOneMismatchedCloseBracket : bool) : M Value :=
  fun st =>
    EvaluateExpression_loop E fuel bAllowOneMismatchedCloseBracket initial_locals
      (set_operators (set_values st []) []).

(** ** The typed entry points *)

(** [LineParser::EvaluateExpressionAsDouble]. *)
Definition EvaluateExpressionAsDouble (E : Env) (fuel : nat)
    (bAllowOneMismatchedCloseBracket : bool) : M double :=
  value <- EvaluateExpression E fuel bAllowOneMismatchedCloseBracket ;;
  match value with
  | Number d => ret d
  | Str _ => throw TypeMismatch
  end.

(** [LineParser::EvaluateExpressionAsInt]. *)
Definition EvaluateExpressionAsInt (E : Env) (fuel : nat)
    (bAllowOneMismatchedCloseBracket : bool) : M Z :=
  d <- EvaluateExpressionAsDouble E fuel bAllowOneMismatchedCloseBracket ;;
  ConvertDoubleToInt d.

(** [LineParser::EvaluateExpressionAsUnsignedInt]: the [int] is cast to
    [unsigned int]. *)
Definition EvaluateExpressionAsUnsignedInt (E : Env) (fuel : nat)
    (bAllowOneMismatchedCloseBracket : bool) : M Z :=
  n <- EvaluateExpressionAsInt E fuel bAllowOneMismatchedCloseBracket ;;
  ret (to_unsigned n).

(** [LineParser::EvaluateExpressionAsString]. *)
Definition EvaluateExpressionAsString (E : Env) (fuel : nat)
    (bAllowOneMismatchedCloseBracket : bool) : M string :=
  value <- EvaluateExpression E fuel bAllowOneMismatchedCloseBracket ;;
  match value with
  | Str s => ret s
  | Number _ => throw TypeMismatch
  end.

(** ** A concrete set of collaborators

    The examples below run the engine on literal input lines, which needs
    concrete collaborators.  They follow the spec's description of the
    external interfaces; the universal theorems further down quantify over
    every [Env] instead. *)

Module Sample.

Definition is_digit (c : ascii) : bool :=
  let n := nat_of_ascii c in ((48 <=? n) && (n <=? 57))%nat.

Definition digit_value (c : ascii) : option Z :=
  let n := nat_of_ascii c in
  if ((48 <=? n) && (n <=? 57))%nat then Some (Z.of_nat (n - 48))
  else if ((65 <=? n) && (n <=? 70))%nat then Some (Z.of_nat (n - 55))
  else if ((97 <=? n) && (n <=? 102))%nat then Some (Z.of_nat (n - 87))
  else None.

(** Digits of [base] read from [rest]: the value and how many were read. *)
Fixpoint read_digits (base : Z) (rest : string) (acc : Z) (count : nat) : Z * nat :=
  match rest with
  | EmptyString => (acc, count)
  | String c rest' =>
      match digit_value c with
      | Some d => if d <? base then read_digits base rest' (acc * base + d) (S count)
                  else (acc, count)
      | None => (acc, count)
      end
  end.

(** Modelled from the spec: [Literals::ParseNumeric], "consume a
    decimal/hex numeric literal at the cursor"; here an unsigned decimal
    integer, or [&] followed by hexadecimal digits. *)
Definition ParseNumeric (line : string) (col : nat) : option (double * nat) :=
  match String.get col line with
  | Some c =>
      if is_digit c then
        let (n, k) := read_digits 10 (line_from line col) 0 0 in
        Some (Double.of_Z n, (col + k)%nat)
      else if Ascii.eqb c "&" then
        let (n, k) := read_digits 16 (line_from line (col + 1)) 0 0 in
        match k with
        | O => None
        | S _ => Some (Double.of_Z n, (col + 1 + k)%nat)
        end
      else None
  | None => None
  end.

Definition is_space (c : ascii) : bool :=
  Ascii.eqb c " " || Ascii.eqb c (ascii_of_nat 9).

Fixpoint skip_spaces (rest : string) (col : nat) : nat :=
  match rest with
  | EmptyString => col
  | String c rest' => if is_space c then skip_spaces rest' (S col) else col
  end.

(** Modelled from the spec: [AdvanceAndCheckEndOfSubStatement], "skip
    whitespace/comments to the next significant character, returning false
    at end of sub-statement"; at the top level a comma, a colon, a
    semicolon or a backslash ends the sub-statement, inside brackets only
    the end of the line does. *)
Definition AdvanceAndCheckEndOfSubStatement (top : bool) (line : string) (col : nat)
  : bool * nat :=
  let col' := skip_spaces (line_from line col) col in
  match String.get col' line with
  | None => (false, col')
  | Some c =>
      if top && (Ascii.eqb c "," || Ascii.eqb c ":" || Ascii.eqb c ";"
                 || Ascii.eqb c (ascii_of_nat 92))
      then (false, col') else (true, col')
  end.

Definition is_symbol_char (c : ascii) : bool :=
  IsAlpha c || is_digit c || Ascii.eqb c "_" || Ascii.eqb c "$".

Fixpoint read_symbol (rest : string) (acc : string) (col : nat) : string * nat :=
  match rest with
  | EmptyString => (acc, col)
  | String c rest' =>
      if is_symbol_char c then
        if Ascii.eqb c "$" then (append acc (String c EmptyString), S col)
        else read_symbol rest' (append acc (String c EmptyString)) (S col)
      else (acc, col)
  end.

(** Modelled from the spec: [GetSymbolName], the "external identifier
    scanner": letters, digits and underscores, closed by an optional [$]. *)
Definition GetSymbolName (line : string) (col : nat) : string * nat :=
  read_symbol (line_from line col) EmptyString col.

Fixpoint lookup (table : list (string * Value)) (name : string) : option Value :=
  match table with
  | [] => None
  | (k, v) :: rest => if String.eqb k name then Some v else lookup rest name
  end.

(** Modelled from the spec: [SkipExpression], "move the cursor past the
    remainder of the expression": it advances to the end of the
    sub-statement, counting brackets so that one unmatched close bracket
    stops it when that is allowed. *)
Fixpoint skip_expression (fuel : nat) (bracketCount : Z) (allow : bool)
    (line : string) (col : nat) : nat :=
  match fuel with
  | O => col
  | S fuel' =>
      let r := AdvanceAndCheckEndOfSubStatement (bracketCount =? 0) line col in
      if fst r then
        let here := String.get (snd r) line in
        if allow && char_is ")" here && (bracketCount <=? 0) then snd r
        else
          let count := if char_is "(" here then bracketCount + 1
                       else if char_is ")" here then bracketCount - 1
                       else bracketCount in
          skip_expression fuel' count allow line (S (snd r))
      else snd r
  end.

Definition SkipExpression (bracketCount : Z) (allow : bool) (line : string) (col : nat) : nat :=
  skip_expression (S (String.length line)) bracketCount allow line col.

Fixpoint compare_bytes (a b : string) : Z :=
  match a, b with
  | EmptyString, EmptyString => 0
  | EmptyString, String _ _ => -1
  | String _ _, EmptyString => 1
  | String x a', String y b' =>
      if (nat_of_ascii x <? nat_of_ascii y)%nat then -1
      else if (nat_of_ascii y <? nat_of_ascii x)%nat then 1
      else compare_bytes a' b'
  end.

(** Modelled from the spec: [Value::Compare], "compare(a, b) -> {-1, 0, +1}
    ... Number compare is IEEE ordering ... String compare is lexicographic
    over unsigned bytes"; the engine never calls it on mixed tags. *)
Definition Compare (a b : Value) : Z :=
  match a, b with
  | Number x, Number y =>
      if Double.ltb x y then -1 else if Double.eqb x y then 0 else 1
  | Str x, Str y => compare_bytes x y
  | Number _, Str _ => -1
  | Str _, Number _ => 1
  end.

(** A power by repeated multiplication, for exponents that are small
    non-negative integers; every other exponent is reported as a domain
    error.  It agrees with [pow] of <cmath> wherever the exact power is a
    double. *)
Fixpoint pow_nat (x : double) (n : nat) : double :=
  match n with
  | O => Double.of_Z 1
  | S k => Double.mul x (pow_nat x k)
  end.

Definition pow (x y : double) : double * option Z :=
  match Double.trunc y with
  | Some n =>
      if Double.eqb (Double.of_Z n) y && (0 <=? n) && (n <=? 1024)
      then (pow_nat x (Z.to_nat n), None)
      else (S754_nan, Some EDOM)
  | None => (S754_nan, Some EDOM)
  end.

(** The remaining <cmath> functions are not exercised by the examples. *)
Definition no_math (x : double) : double * option Z := (S754_nan, Some EDOM).

Definition sqrt (x : double) : double * option Z :=
  if Double.ltb x (Double.of_Z 0) then (S754_nan, Some EDOM)
  else (SFsqrt Double.prec Double.emax x, None).

Fixpoint decimal_digits (fuel : nat) (n : Z) (acc : string) : string :=
  match fuel with
  | O => acc
  | S f =>
      let acc' := String (ascii_of_nat (48 + Z.to_nat (n mod 10))) acc in
      if n / 10 =? 0 then acc' else decimal_digits f (n / 10) acc'
  end.

(** Modelled from the spec: [StringUtils::PrintNumber], the "canonical
    numeric formatter"; here on integral values only (others print as
    [?]). *)
Definition PrintNumber (d : double) : string :=
  match Double.trunc d with
  | Some n =>
      if Double.eqb (Double.of_Z n) d then
        if n <? 0 then String "-" (decimal_digits 400 (- n) EmptyString)
        else decimal_digits 400 n EmptyString
      else "?"%string
  | None => "?"%string
  end.

(** [strtod] on the text [nan] (in any case) and on an unsigned decimal
    integer prefix; 0 when there is neither. *)
Definition strtod (s : string) : double * option Z :=
  if String.eqb (StringPrim.Upper (substring 0 3 s)) "NAN" then (S754_nan, None)
  else (Double.of_Z (fst (read_digits 10 s 0 0)), None).

(** Modelled from the spec: [beebasm_rand], "rand() -> u32 with
    RAND_MAX"; here the minimal-standard generator. *)
Definition rand (seed : Z) : Z * Z :=
  let next := (seed * 48271) mod 2147483647 in (next, next).

Definition pi : double := S754_finite false 7074237752028440 (-51).

Definition env (first_pass : bool) (symbols : list (string * Value)) : Env :=
  mkEnv
    128 32                              (* MAX_VALUES, MAX_OPERATORS *)
    AdvanceAndCheckEndOfSubStatement ParseNumeric GetSymbolName
    (lookup symbols)                    (* GetSymbolValue *)
    0                                   (* GetPC *)
    first_pass                          (* IsFirstPass *)
    SkipExpression
    (fun formatString => formatString)  (* strftime_assembly_time *)
    rand 2147483646                     (* beebasm_rand, BEEBASM_RAND_MAX *)
    PrintNumber Compare pi
    true                                (* char_is_signed *)
    strtod pow
    no_math no_math no_math             (* sin, cos, tan *)
    no_math no_math no_math             (* asin, acos, atan *)
    no_math no_math no_math             (* log10, log, exp *)
    sqrt.

(** A fresh parser object on [line], with [errno] clear. *)
Definition parser (line : string) : State := mkState line 0 [] [] 0 1.

End Sample.

(** * Properties *)

(** ** Integer coercion and the stack accessors *)

(** [d] is integer-coercible, with integer [n]: [ConvertDoubleToInt]
    returns [n] (and touches nothing). *)
Definition IntCoercible (d : double) (n : Z) : Prop :=
  forall st, ConvertDoubleToInt d st = Return n st.

Lemma to_signed_is_int u : is_int (to_signed u).
Proof.
  unfold to_signed, is_int, INT_MIN, INT_MAX.
  pose proof (Z.mod_pos_bound u (2 ^ 32) ltac:(lia)) as Hb.
  destruct (Z.ltb_spec (u mod 2 ^ 32) (2 ^ 31)); lia.
Qed.

Lemma to_signed_of_int n : is_int n -> to_signed (to_unsigned n) = n.
Proof.
  unfold to_signed, to_unsigned, is_int, INT_MIN, INT_MAX. intros Hn.
  rewrite Z.mod_mod by lia.
  destruct (Z.ltb_spec (n mod 2 ^ 32) (2 ^ 31)) as [Hlt | Hge].
  - destruct (Z.neg_nonneg_cases n) as [Hneg | Hpos].
    + replace n with (n + 2 ^ 32 - 1 * 2 ^ 32) in Hlt by lia.
      rewrite Zminus_mod, Z_mod_mult, Z.sub_0_r, Z.mod_mod in Hlt by lia.
      rewrite Z.mod_small in Hlt; lia.
    + apply Z.mod_small; lia.
  - destruct (Z.neg_nonneg_cases n) as [Hneg | Hpos].
    + replace n with (n + 2 ^ 32 - 1 * 2 ^ 32) at 1 by lia.
      rewrite Zminus_mod, Z_mod_mult, Z.sub_0_r, Z.mod_mod by lia.
      rewrite Z.mod_small; lia.
    + rewrite Z.mod_small in Hge; lia.
Qed.

Lemma ConvertDoubleToInt_returns d st n st' :
  ConvertDoubleToInt d st = Return n st' ->
  st' = st /\ is_int n /\ IntCoercible d n.
Proof.
  unfold IntCoercible, ConvertDoubleToInt.
  destruct (Double.ltb d (Double.of_Z INT_MIN) || Double.gtb d (Double.of_Z UINT_MAX));
    [discriminate |].
  destruct (Double.leb d (Double.of_Z INT_MAX)).
  - unfold cast_double_int. destruct (Double.trunc d) as [t |]; [| discriminate].
    destruct ((INT_MIN <=? t) && (t <=? INT_MAX)) eqn:Hr; [| discriminate].
    apply andb_prop in Hr as [H1 H2]. apply Z.leb_le in H1, H2.
    unfold ret. intros [= <- <-]. unfold is_int. repeat split; try reflexivity; lia.
  - destruct (cast_double_uint d) as [u |]; [| discriminate].
    unfold ret. intros [= <- <-].
    split; [reflexivity | split; [apply to_signed_is_int | reflexivity]].
Qed.

Lemma IntCoercible_is_int d n : IntCoercible d n -> is_int n.
Proof.
  intros H. specialize (H (mkState EmptyString 0 [] [] 0 0)).
  apply ConvertDoubleToInt_returns in H. tauto.
Qed.

Lemma StackTopTwoInts_coercible st a b x y rest :
  IntCoercible a x -> IntCoercible b y ->
  StackTopTwoInts (set_values st (Number b :: Number a :: rest))
  = Return (x, y) (set_values st (Number b :: Number a :: rest)).
Proof.
  intros Ha Hb. unfold StackTopTwoInts, StackTopTwoNumbers, bind, get_values. cbn.
  rewrite Ha, Hb. reflexivity.
Qed.

Lemma StackTopInt_coercible st a x rest :
  IntCoercible a x ->
  StackTopInt (set_values st (Number a :: rest))
  = Return x (set_values st (Number a :: rest)).
Proof.
  intros Ha. unfold StackTopInt, StackTopNumber, bind, get_values. cbn.
  rewrite Ha. reflexivity.
Qed.

(** A string literal of the expression language. *)
Definition quoted (s : string) : string :=
  String quote_char (append s (String quote_char EmptyString)).

(** ** C9: unary plus and unary minus on strings *)

(** Claim C9.  [EvalPosate] only checks that the value stack is not empty:
    on a stack whose top is any value, a string included, it returns and
    leaves the whole state as it was, and on an empty stack it throws
    MissingValue.  [EvalNegate] on a stack whose top is a string throws
    TypeMismatch.  On the line [+"abc"] the engine returns the string
    [abc], and on [-"abc"] it throws TypeMismatch. *)
Theorem posate_is_identity_negate_rejects_strings :
  (forall E nested st v rest,
      call_handler E nested Ptr.EvalPosate (set_values st (v :: rest))
      = Return tt (set_values st (v :: rest)))
  /\ (forall E nested st,
      call_handler E nested Ptr.EvalPosate (set_values st [])
      = Throw MissingValue (set_values st []))
  /\ (forall E nested st s rest,
      call_handler E nested Ptr.EvalNegate (set_values st (Str s :: rest))
      = Throw TypeMismatch (set_values st (Str s :: rest)))
  /\ (let line := append "+" (String quote_char (append "abc" (String quote_char ""))) in
      exists st, EvaluateExpression (Sample.env false []) 10 false (Sample.parser line)
                 = Return (Str "abc") st)
  /\ (let line := append "-" (String quote_char (append "abc" (String quote_char ""))) in
      exists st, EvaluateExpression (Sample.env false []) 10 false (Sample.parser line)
                 = Throw TypeMismatch st).
Proof.
  repeat split; try reflexivity.
  - eexists. vm_compute. reflexivity.
  - eexists. vm_compute. reflexivity.
Qed.

(** ** C4: comparisons *)

(** The six comparison handlers, each with the test it applies to the
    result of [Value::Compare]. *)
Definition comparisons : list (OperatorHandler * (Z -> bool)) :=
  [ (Ptr.EvalEqual, fun c => c =? 0);
    (Ptr.EvalNotEqual, fun c => negb (c =? 0));
    (Ptr.EvalLessThan, fun c => c <? 0);
    (Ptr.EvalLessThanOrEqual, fun c => c <=? 0);
    (Ptr.EvalMoreThan, fun c => c >? 0);
    (Ptr.EvalMoreThanOrEqual, fun c => c >=? 0) ].

Definition handler_of_token (tok : string) : option OperatorHandler :=
  match match_token m_gaBinaryOperatorTable tok 0 with
  | Some op => handler op
  | None => None
  end.

Definition minus_one : Value := Number (Double.of_Z (-1)).
Definition zero : Value := Number (Double.of_Z 0).

(** Claim C4.  The tokens [=], [==], [<>], [!=], [<], [<=], [>], [>=] are
    bound to the six comparison handlers.  Each handler, on a stack whose
    two top values [a] (below) and [b] (top) have the same tag, replaces
    them by exactly Number(-1) when its test of [Compare a b] holds and by
    exactly Number(0) when it does not; when the tags differ it throws
    TypeMismatch.  Whatever [Compare] answers, OR applied to the results of
    [a = b] and [a <> b] is Number(-1); on the line [(a=b) OR (a<>b)], with
    [a] and [b] symbols bound to 5 and 5, to 5 and 6, or to two strings
    (equal or not), the engine returns Number(-1), and with a number and
    a string it throws TypeMismatch; [5 = 5] returns Number(-1) and [5 = 6]
    returns Number(0). *)
Theorem comparisons_return_minus_one_or_zero :
  map handler_of_token ["="; "=="; "<>"; "!="; "<"; "<="; ">"; ">="]%string
  = [ Some Ptr.EvalEqual; Some Ptr.EvalEqual; Some Ptr.EvalNotEqual;
      Some Ptr.EvalNotEqual; Some Ptr.EvalLessThan; Some Ptr.EvalLessThanOrEqual;
      Some Ptr.EvalMoreThan; Some Ptr.EvalMoreThanOrEqual ]
  /\ (forall E nested st a b rest,
        Forall (fun ht : OperatorHandler * (Z -> bool) =>
                  call_handler E nested (fst ht) (set_values st (b :: a :: rest))
                  = if ValueType_eqb (GetType a) (GetType b)
                    then Return tt
                           (set_values st
                              ((if snd ht (Compare E a b) then minus_one else zero) :: rest))
                    else Throw TypeMismatch (set_values st (b :: a :: rest)))
               comparisons)
  /\ (forall E nested st a b rest,
        let equal := if Compare E a b =? 0 then minus_one else zero in
        let differ := if negb (Compare E a b =? 0) then minus_one else zero in
        call_handler E nested Ptr.EvalOr (set_values st (differ :: equal :: rest))
        = Return tt (set_values st (minus_one :: rest)))
  /\ (forall a b,
        In (a, b) [ (Number (Double.of_Z 5), Number (Double.of_Z 5));
                    (Number (Double.of_Z 5), Number (Double.of_Z 6));
                    (Str "x", Str "x"); (Str "x", Str "y") ]%string ->
        exists st,
          EvaluateExpression (Sample.env false [("a", a); ("b", b)]%string) 20 false
            (Sample.parser "(a=b) OR (a<>b)") = Return minus_one st)
  /\ (exists st,
        EvaluateExpression
          (Sample.env false [("a", Number (Double.of_Z 5)); ("b", Str "x")]%string) 20 false
          (Sample.parser "(a=b) OR (a<>b)") = Throw TypeMismatch st)
  /\ (exists st,
        EvaluateExpression (Sample.env false []) 20 false (Sample.parser "5 = 5")
        = Return minus_one st)
  /\ (exists st,
        EvaluateExpression (Sample.env false []) 20 false (Sample.parser "5 = 6")
        = Return zero st).
Proof.
  split; [reflexivity |]. repeat match goal with |- _ /\ _ => split end.
  - intros E nested st a b rest. unfold comparisons.
    repeat (apply Forall_cons;
            [ cbn [fst snd]; destruct a, b; cbn;
              try match goal with
                  | |- context [if ?c then minus_one else zero] => destruct c
                  end;
              reflexivity | ]).
    apply Forall_nil.
  - intros E nested st a b rest. cbn zeta.
    destruct (Compare E a b =? 0); reflexivity.
  - intros a b Hin. cbn [In] in Hin.
    repeat (destruct Hin as [[= <- <-] | Hin]; [eexists; vm_compute; reflexivity |]).
    contradiction.
  - eexists; vm_compute; reflexivity.
  - eexists; vm_compute; reflexivity.
  - eexists; vm_compute; reflexivity.
Qed.

(** ** C2: the shift operators *)

(** The spec's words for the two shifts on a 32-bit signed value: a
    logical left shift keeps the low 32 bits of [v * 2^n]; an arithmetic
    right shift is the floor of [v / 2^n]. *)
Definition logical_shift_left_32 (v n : Z) : Z := to_signed (v * 2 ^ n).
Definition arithmetic_shift_right_32 (v n : Z) : Z := v / 2 ^ n.

Lemma LogicalShiftLeft_spec v n :
  0 <= n -> LogicalShiftLeft v n = logical_shift_left_32 v n.
Proof.
  intros Hn. unfold LogicalShiftLeft, logical_shift_left_32, to_signed, to_unsigned.
  rewrite Z.shiftl_mul_pow2 by lia.
  rewrite !Z.mod_mod by lia.
  rewrite Z.mul_mod_idemp_l by lia. reflexivity.
Qed.

Lemma int_bits_above v i : is_int v -> 31 <= i -> Z.testbit v i = (v <? 0).
Proof.
  unfold is_int, INT_MIN, INT_MAX. intros Hv Hi.
  destruct (Z.ltb_spec v 0) as [Hneg | Hpos].
  - apply Z.bits_above_log2_neg; [lia |].
    destruct (Z.eq_dec (Z.pred (- v)) 0) as [-> | Hnz]; [cbn; lia |].
    apply Z.log2_lt_pow2; [lia |].
    apply Z.lt_le_trans with (2 ^ 31); [lia |].
    apply Z.pow_le_mono_r; lia.
  - destruct (Z.eq_dec v 0) as [-> | Hnz]; [apply Z.testbit_0_l |].
    apply Z.bits_above_log2; [lia |].
    apply Z.log2_lt_pow2; [lia |].
    apply Z.lt_le_trans with (2 ^ 31); [lia |].
    apply Z.pow_le_mono_r; lia.
Qed.

Lemma shiftr_is_int v n : is_int v -> 0 <= n -> is_int (Z.shiftr v n).
Proof.
  unfold is_int, INT_MIN, INT_MAX. intros Hv Hn.
  rewrite Z.shiftr_div_pow2 by lia.
  assert (0 < 2 ^ n) by (apply Z.pow_pos_nonneg; lia).
  split.
  - apply Z.div_le_lower_bound; [lia |]. nia.
  - apply Z.div_le_upper_bound; [lia |]. nia.
Qed.

Lemma ArithmeticShiftRight_shiftr v n :
  is_int v -> 0 < n < 32 -> ArithmeticShiftRight v n = Z.shiftr v n.
Proof.
  intros Hv Hn. unfold ArithmeticShiftRight.
  rewrite <- (to_signed_of_int (Z.shiftr v n)) by (apply shiftr_is_int; [assumption | lia]).
  f_equal. unfold to_unsigned. apply Z.bits_inj'. intros i Hi.
  pose proof (int_bits_above v) as Habove.
  destruct (Z.ltb_spec v 0) as [Hneg | Hpos].
  - rewrite Z.lor_spec, Z.shiftr_spec by lia.
    destruct (Z.lt_ge_cases i 32) as [Hlow | Hhigh].
    + rewrite (Z.mod_pow2_bits_low (Z.shiftr v n)) by lia.
      rewrite Z.shiftr_spec by lia.
      rewrite (Z.mod_pow2_bits_low (Z.shiftl UINT_MAX (32 - n))) by lia.
      rewrite Z.shiftl_spec by lia.
      destruct (Z.lt_ge_cases (i + n) 32) as [Hin | Hout].
      * rewrite Z.mod_pow2_bits_low by lia.
        rewrite (Z.testbit_neg_r UINT_MAX) by lia.
        apply orb_false_r.
      * rewrite Z.mod_pow2_bits_high by lia.
        rewrite (Habove (i + n)) by (assumption || lia).
        change UINT_MAX with (Z.ones 32).
        rewrite Z.ones_spec_low by lia.
        reflexivity.
    + rewrite !Z.mod_pow2_bits_high by lia. reflexivity.
  - rewrite Z.shiftr_spec by lia.
    destruct (Z.lt_ge_cases i 32) as [Hlow | Hhigh].
    + rewrite (Z.mod_pow2_bits_low (Z.shiftr v n)) by lia.
      rewrite Z.shiftr_spec by lia.
      destruct (Z.lt_ge_cases (i + n) 32) as [Hin | Hout].
      * apply Z.mod_pow2_bits_low. lia.
      * rewrite Z.mod_pow2_bits_high by lia.
        rewrite (Habove (i + n)) by (assumption || lia).
        reflexivity.
    + rewrite !Z.mod_pow2_bits_high by lia. reflexivity.
Qed.

Lemma ArithmeticShiftRight_spec v n :
  is_int v -> 0 < n < 32 -> ArithmeticShiftRight v n = arithmetic_shift_right_32 v n.
Proof.
  intros Hv Hn. rewrite ArithmeticShiftRight_shiftr by assumption.
  apply Z.shiftr_div_pow2. lia.
Qed.

(** Sign extension: bit [i] of the 32-bit pattern of [v / 2^n] is bit
    [i + n] of the pattern of [v] while that is below 32, and the sign of
    [v] above. *)
Lemma arithmetic_shift_right_sign_extends v n i :
  is_int v -> 0 <= n -> 0 <= i < 32 ->
  Z.testbit (to_unsigned (arithmetic_shift_right_32 v n)) i
  = if i + n <? 32 then Z.testbit (to_unsigned v) (i + n) else (v <? 0).
Proof.
  intros Hv Hn Hi. unfold arithmetic_shift_right_32, to_unsigned.
  rewrite <- Z.shiftr_div_pow2 by lia.
  rewrite Z.mod_pow2_bits_low by lia.
  rewrite Z.shiftr_spec by lia.
  destruct (Z.ltb_spec (i + n) 32).
  - symmetry. apply Z.mod_pow2_bits_low. lia.
  - apply int_bits_above; [assumption | lia].
Qed.

(** The spec's description of [<<] and [>>] on a value [v] and a shift
    amount [s]. *)
Definition shift_left_spec (v s : Z) : Z :=
  if Z.abs s >? 31 then 0
  else if s >? 0 then logical_shift_left_32 v s
  else if s <? 0 then arithmetic_shift_right_32 v (Z.abs s)
  else v.

Definition shift_right_spec (v s : Z) : Z :=
  if Z.abs s >? 31 then 0
  else if s >? 0 then arithmetic_shift_right_32 v s
  else if s <? 0 then logical_shift_left_32 v (Z.abs s)
  else v.

Lemma shift_left_result_spec v s :
  is_int v -> shift_left_result v s = shift_left_spec v s.
Proof.
  intros Hv. unfold shift_left_result, shift_left_spec.
  destruct (Z.gtb_spec s 31), (Z.ltb_spec s (-31)), (Z.gtb_spec (Z.abs s) 31);
    cbn [orb]; try lia; try reflexivity.
  destruct (Z.gtb_spec s 0).
  - apply LogicalShiftLeft_spec. lia.
  - destruct (Z.eqb_spec s 0), (Z.ltb_spec s 0); try lia; try reflexivity.
    rewrite ArithmeticShiftRight_spec by (assumption || lia).
    f_equal. lia.
Qed.

Lemma shift_right_result_spec v s :
  is_int v -> shift_right_result v s = shift_right_spec v s.
Proof.
  intros Hv. unfold shift_right_result, shift_right_spec.
  destruct (Z.gtb_spec s 31), (Z.ltb_spec s (-31)), (Z.gtb_spec (Z.abs s) 31);
    cbn [orb]; try lia; try reflexivity.
  destruct (Z.gtb_spec s 0).
  - apply ArithmeticShiftRight_spec; [assumption | lia].
  - destruct (Z.eqb_spec s 0), (Z.ltb_spec s 0); try lia; try reflexivity.
    rewrite LogicalShiftLeft_spec by lia.
    f_equal. lia.
Qed.

Lemma arithmetic_shift_right_is_int v n :
  is_int v -> 0 <= n -> is_int (arithmetic_shift_right_32 v n).
Proof.
  intros Hv Hn. unfold arithmetic_shift_right_32.
  rewrite <- Z.shiftr_div_pow2 by lia. apply shiftr_is_int; assumption.
Qed.

Lemma shift_spec_is_int v s :
  is_int v -> is_int (shift_left_spec v s) /\ is_int (shift_right_spec v s).
Proof.
  intros Hv. unfold shift_left_spec, shift_right_spec.
  assert (is_int 0) by (unfold is_int, INT_MIN, INT_MAX; lia).
  destruct (Z.abs s >? 31); [tauto |].
  destruct (Z.gtb_spec s 0).
  - split; [apply to_signed_is_int | apply arithmetic_shift_right_is_int; [assumption | lia]].
  - destruct (s <? 0).
    + split; [apply arithmetic_shift_right_is_int; [assumption | lia]
             | apply to_signed_is_int].
    + tauto.
Qed.

(** Claim C2.  For integer-coercible operands, with [v] the integer of the
    left operand and [s] that of the right one, [<<] and [>>] replace the
    two operands by the number [shift_left_spec v s], respectively
    [shift_right_spec v s]: 0 when |s| > 31; for [<<], a logical left shift
    when s > 0 and an arithmetic right shift by |s| when s < 0; for [>>],
    the other way round; the value itself when s = 0.  Both results are
    32-bit signed integers, and the arithmetic right shift sign-extends:
    bit [i] of its 32-bit pattern is bit [i + n] of the operand's pattern,
    and the operand's sign once [i + n] passes bit 31. *)
Theorem shift_operators_follow_spec E nested st a b v s rest :
  IntCoercible a v -> IntCoercible b s ->
  let stack := set_values st (Number b :: Number a :: rest) in
  call_handler E nested Ptr.EvalShiftLeft stack
  = Return tt (set_values st (Number (Double.of_Z (shift_left_spec v s)) :: rest))
  /\ call_handler E nested Ptr.EvalShiftRight stack
     = Return tt (set_values st (Number (Double.of_Z (shift_right_spec v s)) :: rest))
  /\ is_int (shift_left_spec v s) /\ is_int (shift_right_spec v s)
  /\ (forall n i, 0 <= n -> 0 <= i < 32 ->
        Z.testbit (to_unsigned (arithmetic_shift_right_32 v n)) i
        = if i + n <? 32 then Z.testbit (to_unsigned v) (i + n) else (v <? 0)).
Proof.
  intros Ha Hb stack. subst stack.
  pose proof (IntCoercible_is_int _ _ Ha) as Hv.
  cbn [call_handler]. unfold EvalShiftLeft, EvalShiftRight, bind.
  rewrite (StackTopTwoInts_coercible st a b v s rest Ha Hb). cbn [fst snd].
  rewrite shift_left_result_spec, shift_right_result_spec by assumption.
  repeat split; try apply shift_spec_is_int; try assumption.
  intros n i Hn Hi. apply arithmetic_shift_right_sign_extends; assumption.
Qed.

Lemma shift_operators_follow_spec_witness :
  call_handler (Sample.env false []) (fun _ => throw IllegalOperation) Ptr.EvalShiftRight
    (set_values (Sample.parser "") [Number (Double.of_Z 1); Number (Double.of_Z (-8))])
  = Return tt (set_values (Sample.parser "") [Number (Double.of_Z (-4))]).
Proof.
  exact (proj1 (proj2 (shift_operators_follow_spec (Sample.env false [])
                         (fun _ => throw IllegalOperation) (Sample.parser "")
                         (Double.of_Z (-8)) (Double.of_Z 1) (-8) 1 []
                         (fun _ => eq_refl) (fun _ => eq_refl)))).
Defined.

(** ** C6: HI and LO *)

Definition double_eq_dec (x y : double) : {x = y} + {x <> y}.
Proof.
  unfold double, Double.double. repeat decide equality.
Defined.

Definition double_eqb (x y : double) : bool :=
  if double_eq_dec x y then true else false.

Lemma double_eqb_eq x y : double_eqb x y = true -> x = y.
Proof. unfold double_eqb. destruct (double_eq_dec x y); [trivial | discriminate]. Qed.

Definition bytes : list Z := map Z.of_nat (seq 0 256).

Lemma in_bytes b : 0 <= b < 256 -> In b bytes.
Proof.
  intros Hb. unfold bytes. rewrite <- (Z2Nat.id b) by lia.
  apply in_map. apply in_seq. lia.
Qed.

(** Recomposing a 16-bit value from its two bytes is exact in double
    arithmetic: checked on all 65536 pairs. *)
Definition recompose_exact (h l : Z) : bool :=
  double_eqb (Double.mul (Double.of_Z h) (Double.of_Z 256)) (Double.of_Z (h * 256))
  && double_eqb (Double.add (Double.of_Z (h * 256)) (Double.of_Z l))
       (Double.of_Z (h * 256 + l)).

Lemma recompose_exact_all :
  forallb (fun h => forallb (recompose_exact h) bytes) bytes = true.
Proof. vm_compute. reflexivity. Qed.

Lemma recompose_bytes h l :
  0 <= h < 256 -> 0 <= l < 256 ->
  Double.mul (Double.of_Z h) (Double.of_Z 256) = Double.of_Z (h * 256)
  /\ Double.add (Double.of_Z (h * 256)) (Double.of_Z l) = Double.of_Z (h * 256 + l).
Proof.
  intros Hh Hl. pose proof recompose_exact_all as Hall.
  rewrite forallb_forall in Hall. specialize (Hall h (in_bytes h Hh)).
  rewrite forallb_forall in Hall. specialize (Hall l (in_bytes l Hl)).
  unfold recompose_exact in Hall. apply andb_prop in Hall as [H1 H2].
  split; apply double_eqb_eq; assumption.
Qed.

Lemma hi_lo_bounds n :
  0 <= Z.shiftr (Z.land n 65535) 8 < 256
  /\ 0 <= Z.land n 255 < 256
  /\ Z.shiftr (Z.land n 65535) 8 * 256 + Z.land n 255 = Z.land n 65535.
Proof.
  change 65535 with (Z.ones 16). change 255 with (Z.ones 8).
  rewrite !Z.land_ones by lia. rewrite Z.shiftr_div_pow2 by lia.
  change (2 ^ 16) with 65536. change (2 ^ 8) with 256.
  repeat split; Z.div_mod_to_equations; lia.
Qed.

Lemma EvalMultiply_numbers E nested st a b rest :
  call_handler E nested Ptr.EvalMultiply (set_values st (Number b :: Number a :: rest))
  = Return tt (set_values st (Number (Double.mul a b) :: rest)).
Proof. reflexivity. Qed.

Lemma EvalAdd_numbers E nested st a b rest :
  call_handler E nested Ptr.EvalAdd (set_values st (Number b :: Number a :: rest))
  = Return tt (set_values st (Number (Double.add a b) :: rest)).
Proof. reflexivity. Qed.

(** Claim C6.  For an integer-coercible number [x] with integer [n], HI
    replaces [x] by [(n & 0xFFFF) >> 8] and LO by [n & 0xFF]; multiplying
    the first by 256 and adding the second, with the engine's handlers for
    [*] and [+], gives the very number that [x AND &FFFF] gives. *)
Theorem hi_lo_recompose E nested st x n rest :
  IntCoercible x n ->
  let hi := Z.shiftr (Z.land n 65535) 8 in
  let lo := Z.land n 255 in
  let stack vs := set_values st (vs ++ rest) in
  call_handler E nested Ptr.EvalHi (stack [Number x])
  = Return tt (stack [Number (Double.of_Z hi)])
  /\ call_handler E nested Ptr.EvalLo (stack [Number x])
     = Return tt (stack [Number (Double.of_Z lo)])
  /\ (exists product,
        call_handler E nested Ptr.EvalMultiply
          (stack [Number (Double.of_Z 256); Number (Double.of_Z hi)])
        = Return tt (stack [Number product])
        /\ call_handler E nested Ptr.EvalAdd
             (stack [Number (Double.of_Z lo); Number product])
           = call_handler E nested Ptr.EvalAnd
               (stack [Number (Double.of_Z 65535); Number x]))
  /\ call_handler E nested Ptr.EvalAnd (stack [Number (Double.of_Z 65535); Number x])
     = Return tt (stack [Number (Double.of_Z (Z.land n 65535))])
  /\ hi * 256 + lo = Z.land n 65535.
Proof.
  intros Hx hi lo stack.
  destruct (hi_lo_bounds n) as (Hhi & Hlo & Hsum). fold hi lo in Hhi, Hlo, Hsum.
  destruct (recompose_bytes hi lo Hhi Hlo) as [Hmul Hadd].
  assert (Hand : call_handler E nested Ptr.EvalAnd
                   (stack [Number (Double.of_Z 65535); Number x])
                 = Return tt (stack [Number (Double.of_Z (Z.land n 65535))])).
  { cbn [call_handler]. unfold EvalAnd, bind, stack. cbn [app].
    rewrite (StackTopTwoInts_coercible st x (Double.of_Z 65535) n 65535 rest Hx
               (fun _ => eq_refl)).
    reflexivity. }
  split; [| split; [| split; [| split]]].
  - cbn [call_handler]. unfold EvalHi, bind, stack. cbn [app].
    rewrite (StackTopInt_coercible st x n rest Hx). reflexivity.
  - cbn [call_handler]. unfold EvalLo, bind, stack. cbn [app].
    rewrite (StackTopInt_coercible st x n rest Hx). reflexivity.
  - exists (Double.of_Z (hi * 256)). split.
    + unfold stack. cbn [app]. rewrite EvalMultiply_numbers, Hmul. reflexivity.
    + rewrite Hand. unfold stack. cbn [app].
      rewrite EvalAdd_numbers, Hadd, Hsum. reflexivity.
  - exact Hand.
  - exact Hsum.
Qed.

Lemma hi_lo_recompose_witness :
  call_handler (Sample.env false []) (fun _ => throw IllegalOperation) Ptr.EvalHi
    (set_values (Sample.parser "") ([Number (Double.of_Z 4660)] ++ []))
  = Return tt (set_values (Sample.parser "") ([Number (Double.of_Z 18)] ++ [])).
Proof.
  exact (proj1 (hi_lo_recompose (Sample.env false []) (fun _ => throw IllegalOperation)
                  (Sample.parser "") (Double.of_Z 4660) 4660 [] (fun _ => eq_refl))).
Defined.

(** The recomposition on lines, with [x] a literal and with [x] a symbol
    bound to -1 or to 4294967295. *)
Example hi_lo_recompose_on_lines :
  (exists st,
      EvaluateExpression (Sample.env false []) 30 false
        (Sample.parser "HI(&1234)*256 + LO(&1234) = (&1234 AND &FFFF)")
      = Return (Number (Double.of_Z (-1))) st)
  /\ (forall n, In n [-1; 4294967295; 305419896] ->
      exists st,
        EvaluateExpression (Sample.env false [("x"%string, Number (Double.of_Z n))]) 30 false
          (Sample.parser "HI(x)*256 + LO(x) = (x AND &FFFF)")
        = Return (Number (Double.of_Z (-1))) st).
Proof.
  split; [eexists; vm_compute; reflexivity |].
  intros n Hn. cbn [In] in Hn.
  repeat (destruct Hn as [<- | Hn]; [eexists; vm_compute; reflexivity |]).
  contradiction.
Qed.

(** ** C8: STRING$ *)

Lemma length_append (a b : string) :
  String.length (append a b) = (String.length a + String.length b)%nat.
Proof. induction a as [| c a IH]; cbn; [reflexivity | rewrite IH; reflexivity]. Qed.









(** ** C1: associativity of the power operator *)

Definition power : Operator := mkOperator "^" 7 0 (Some Ptr.EvalPower).

(** Claim C1, as the code has it.  An incoming infix operator pops every
    stacked operator of greater or equal precedence ([<=] compare), [^]
    included: with [^] on top of the operator stack, a second [^] first
    executes the stacked one.  So [^] is left-associative like every other
    infix operator: [2 ^ 3 ^ 2] returns Number(64), that is (2^3)^2, and
    [2 ^ 10] returns Number(1024). *)
Theorem power_is_left_associative :
  match_token m_gaBinaryOperatorTable "^" 0 = Some power
  /\ (forall call ops st,
        unwind_while call (fun top => precedence power <=? precedence top) (power :: ops) st
        = (put_operators ops ;;;
           call Ptr.EvalPower ;;;
           unwind_while call (fun top => precedence power <=? precedence top) ops) st)
  /\ (exists st,
        EvaluateExpression (Sample.env false []) 20 false (Sample.parser "2 ^ 3 ^ 2")
        = Return (Number (Double.of_Z 64)) st)
  /\ (exists st,
        EvaluateExpression (Sample.env false []) 20 false (Sample.parser "2 ^ 10")
        = Return (Number (Double.of_Z 1024)) st).
Proof.
  split; [reflexivity |]. split; [reflexivity |].
  split; eexists; vm_compute; reflexivity.
Qed.

(** The claim as the spec states it fails: [2 ^ 3 ^ 2] does not return
    Number(512). *)
Lemma power_right_associative_fails :
  ~ (exists st,
       EvaluateExpression (Sample.env false []) 20 false (Sample.parser "2 ^ 3 ^ 2")
       = Return (Number (Double.of_Z 512)) st).
Proof.
  intros [st H]. vm_compute in H. discriminate H.
Qed.

(** ** C5: forward references *)



(** ** What a handler does to the stacks *)

(** Operands a handler takes off the value stack, net of its result. *)
Definition net_pops (h : OperatorHandler) : nat :=
  match h with
  | Ptr.EvalMid => 2
  | Ptr.EvalPower | Ptr.EvalMultiply | Ptr.EvalDivide | Ptr.EvalMod | Ptr.EvalDiv
  | Ptr.EvalShiftLeft | Ptr.EvalShiftRight | Ptr.EvalAdd | Ptr.EvalSubtract
  | Ptr.EvalEqual | Ptr.EvalNotEqual | Ptr.EvalLessThanOrEqual
  | Ptr.EvalMoreThanOrEqual | Ptr.EvalLessThan | Ptr.EvalMoreThan
  | Ptr.EvalAnd | Ptr.EvalOr | Ptr.EvalEor
  | Ptr.EvalLeft | Ptr.EvalRight | Ptr.EvalString => 1
  | _ => 0
  end.

(** The parser fields a handler leaves alone. *)
Definition same_parser (st st' : State) : Prop :=
  m_line st' = m_line st /\ m_column st' = m_column st
  /\ m_operatorStack st' = m_operatorStack st.

(** A handler that returns has replaced [net_pops h + 1] values by one and
    touched nothing else of the parser; and it never fails an assertion. *)
Definition handler_effect (h : OperatorHandler) (st : State) (r : Outcome unit) : Prop :=
  match r with
  | Return _ st' =>
      same_parser st st'
      /\ List.length (m_valueStack st) = (List.length (m_valueStack st') + net_pops h)%nat
      /\ m_valueStack st' <> []
  | AssertionFailed => False
  | _ => True
  end.

Ltac unfold_engine :=
  cbv beta iota zeta delta
    [ call_handler bind ret throw undefined assertion_failed
      get_values put_values get_errno get_state put_column get_operators put_operators
      StackTopTwoValues StackTopString StackTopNumber StackTopTwoNumbers
      StackTopInt StackTopTwoInts SetTop SetSecondAndPop call_math throw_if_errno
      call_rand FormatAssemblyTime truth on_parser absorb
      set_values set_errno set_rand set_column set_operators
      m_line m_column m_valueStack m_operatorStack errno rand_state
      fst snd GetType ValueType_eqb
      EvalPower EvalMultiply EvalDivide EvalMod EvalDiv EvalShiftLeft EvalShiftRight
      EvalAdd EvalSubtract EvalEqual EvalNotEqual EvalLessThanOrEqual
      EvalMoreThanOrEqual EvalLessThan EvalMoreThan EvalAnd EvalOr EvalEor
      EvalNegate EvalPosate EvalHi EvalLo EvalSin EvalCos EvalTan EvalArcSin
      EvalArcCos EvalArcTan EvalSqrt EvalDegToRad EvalRadToDeg EvalInt EvalAbs
      EvalSgn EvalRnd EvalNot EvalLog EvalLn EvalExp EvalTime EvalStr EvalStrHex
      EvalVal EvalEval EvalLen EvalChr EvalAsc EvalMid EvalLeft EvalRight
      EvalString EvalUpper EvalLower ].

(** A scrutinee that holds no further case analysis. *)
Ltac innermost x :=
  lazymatch x with
  | context [match _ with _ => _ end] => fail
  | _ => idtac
  end.

Ltac split_scrutinee :=
  match goal with
  | |- context [match ?x with _ => _ end] => innermost x; destruct x eqn:?
  end.

Ltac split_outcome :=
  match goal with
  | |- context [ConvertDoubleToInt ?d ?s] =>
      let H := fresh "Hconv" in
      destruct (ConvertDoubleToInt d s) eqn:H;
      [ apply ConvertDoubleToInt_returns in H; destruct H as (-> & _ & _) | .. ]
  | _ => split_scrutinee
  end.

Ltac close_effect :=
  cbv beta iota zeta delta
    [ handler_effect same_parser net_pops m_line m_column m_valueStack
      m_operatorStack List.length ];
  first [ exact I
        | repeat split; first [ reflexivity | discriminate | lia ] ].

Lemma ConvertDoubleToInt_no_assert d st : ConvertDoubleToInt d st <> AssertionFailed.
Proof.
  unfold ConvertDoubleToInt.
  destruct (Double.ltb d (Double.of_Z INT_MIN) || Double.gtb d (Double.of_Z UINT_MAX));
    [discriminate |].
  destruct (Double.leb d (Double.of_Z INT_MAX)).
  - destruct (cast_double_int d); discriminate.
  - destruct (cast_double_uint d); discriminate.
Qed.

Lemma call_handler_effect E (run : M Value) h st :
  (forall line st0, run (new_parser line st0) <> AssertionFailed) ->
  handler_effect h st (call_handler E (on_parser run) h st).
Proof.
  intros Hrun. destruct st as [line col vs ops e r].
  destruct h; unfold_engine;
    repeat (split_outcome; unfold_engine);
    try close_effect;
    try (exfalso; eapply Hrun; eassumption);
    try (exfalso; eapply ConvertDoubleToInt_no_assert; eassumption).
Qed.

(** ** Facts read off the operator tables *)

Lemma match_token_In table line col op :
  match_token table line col = Some op -> In op table.
Proof.
  induction table as [| row rest IH]; cbn [match_token]; [discriminate |].
  destruct (token_matches (token row) line col).
  - intros [= <-]. left. reflexivity.
  - intros H. right. apply IH, H.
Qed.

Lemma match_token_matches table line col op :
  match_token table line col = Some op -> token_matches (token op) line col = true.
Proof.
  induction table as [| row rest IH]; cbn [match_token]; [discriminate |].
  destruct (token_matches (token row) line col) eqn:Hm.
  - intros [= <-]. exact Hm.
  - exact IH.
Qed.

(** A row of the prefix table: a bracket has precedence -1 and a
    one-character token; an operator has a precedence of at least 0, and a
    function name (a token that ends with an open bracket) announces one
    comma less than its handler takes operands off the stack. *)
Definition unary_row_ok (op : Operator) : bool :=
  match handler op with
  | None => (precedence op =? -1) && negb (ends_with_open_bracket op)
  | Some h =>
      (0 <=? precedence op)
      && (if ends_with_open_bracket op
          then parameterCount op - 1 =? Z.of_nat (net_pops h)
          else (net_pops h =? 0)%nat)
  end.

(** A row of the infix table: a bracket or separator has precedence -1, an
    operator a precedence of at least 0 and a handler that replaces two
    values by one. *)
Definition binary_row_ok (op : Operator) : bool :=
  match handler op with
  | None => precedence op =? -1
  | Some h => (0 <=? precedence op) && (net_pops h =? 1)%nat
  end.

Lemma unary_table_ok : forallb unary_row_ok m_gaUnaryOperatorTable = true.
Proof. vm_compute. reflexivity. Qed.

Lemma binary_table_ok : forallb binary_row_ok m_gaBinaryOperatorTable = true.
Proof. vm_compute. reflexivity. Qed.

Lemma unary_match_ok line col op :
  match_token m_gaUnaryOperatorTable line col = Some op -> unary_row_ok op = true.
Proof.
  intros H. apply match_token_In in H.
  pose proof unary_table_ok as Hall. rewrite forallb_forall in Hall. apply Hall, H.
Qed.

Lemma binary_match_ok line col op :
  match_token m_gaBinaryOperatorTable line col = Some op -> binary_row_ok op = true.
Proof.
  intros H. apply match_token_In in H.
  pose proof binary_table_ok as Hall. rewrite forallb_forall in Hall. apply Hall, H.
Qed.

(** ** The stack balance *)

(** What an operator on the stack still owes: a handler will take
    [net_pops] values off; an open bracket lets [parameterCount] more
    values in. *)
Definition op_owed (op : Operator) : Z :=
  match handler op with
  | Some h => Z.of_nat (net_pops h)
  | None => - parameterCount op
  end.

Fixpoint owed (ops : list Operator) : Z :=
  match ops with
  | [] => 0
  | op :: rest => op_owed op + owed rest
  end.

Definition balance_of (vs : list Value) (ops : list Operator) : Z :=
  Z.of_nat (List.length vs) - owed ops.

Definition balance (st : State) : Z :=
  balance_of (m_valueStack st) (m_operatorStack st).

(** Every bracket on the operator stack carries precedence -1. *)
Definition brackets_marked (ops : list Operator) : Prop :=
  Forall (fun op => handler op = None -> precedence op = -1) ops.

Definition has_handler (op : Operator) : Prop := handler op <> None.

(** The invariant of the main loop, at the loop head. *)
Definition Inv (l : Locals) (st : State) : Prop :=
  0 <= pendingCommaCount l
  /\ brackets_marked (m_operatorStack st)
  /\ balance st + pendingCommaCount l
     <= match expected l with VALUE_OR_UNARY => 0 | BINARY => 1 end.

Definition never_asserts (run : M Value) : Prop :=
  forall line st0, run (new_parser line st0) <> AssertionFailed.

Section Unwinding.

Variable E : Env.
Variable run : M Value.
Hypothesis Hrun : never_asserts run.

Let call := call_handler E (on_parser run).

Lemma call_effect h st :
  match call h st with
  | Return _ st' =>
      m_line st' = m_line st /\ m_column st' = m_column st
      /\ m_operatorStack st' = m_operatorStack st
      /\ Z.of_nat (List.length (m_valueStack st'))
         = Z.of_nat (List.length (m_valueStack st)) - Z.of_nat (net_pops h)
      /\ m_valueStack st' <> []
  | AssertionFailed => False
  | _ => True
  end.
Proof.
  pose proof (call_handler_effect E run h st Hrun) as H. fold call in H.
  destruct (call h st); cbn [handler_effect] in H; try exact H; try exact I.
  destruct H as ((Hl & Hc & Ho) & Hlen & Hne). repeat split; try assumption. lia.
Qed.

Lemma unwind_while_effect cond ops st :
  m_operatorStack st = ops ->
  brackets_marked ops ->
  (forall op, cond op = true -> precedence op <> -1) ->
  match unwind_while call cond ops st with
  | Return _ st' =>
      m_line st' = m_line st /\ m_column st' = m_column st
      /\ balance st' = balance st
      /\ brackets_marked (m_operatorStack st')
      /\ exists pre, ops = pre ++ m_operatorStack st' /\ Forall has_handler pre
  | AssertionFailed => False
  | _ => True
  end.
Proof.
  intros Hops Hmarked Hcond. revert st Hops.
  induction ops as [| top below IH]; intros st Hops; cbn [unwind_while].
  - unfold ret. rewrite Hops.
    split; [reflexivity |]. split; [reflexivity |]. split; [reflexivity |].
    split; [exact Hmarked |].
    exists []. split; [reflexivity | constructor].
  - destruct (cond top) eqn:Hc.
    + pose proof (Forall_inv Hmarked) as Htop. pose proof (Forall_inv_tail Hmarked) as Hbelow.
      unfold bind at 1, put_operators.
      destruct (handler top) as [h |] eqn:Hh;
        [| exfalso; apply (Hcond top Hc), Htop; exact Hh].
      unfold bind at 1.
      pose proof (call_effect h (set_operators st below)) as Hcall.
      destruct (call h (set_operators st below)) as [u st2 | | | |]; try exact Hcall; try exact I.
      cbn [set_operators m_line m_column m_operatorStack m_valueStack] in Hcall.
      destruct Hcall as (Hl & Hcol & Ho & Hlen & _).
      specialize (IH Hbelow st2 Ho).
      destruct (unwind_while call cond below st2) as [u' st3 | | | |]; try exact IH; try exact I.
      destruct IH as (Hl3 & Hc3 & Hb3 & Hm3 & pre & Hpre & Hpre_ok).
      split; [congruence |]. split; [congruence |]. split; [| split; [exact Hm3 |]].
      * rewrite Hb3. unfold balance, balance_of. rewrite Ho, Hlen, Hops.
        cbn [owed]. unfold op_owed. rewrite Hh. lia.
      * exists (top :: pre). split; [cbn; f_equal; exact Hpre |].
        constructor; [unfold has_handler; congruence | exact Hpre_ok].
    + unfold ret. rewrite Hops.
      split; [reflexivity |]. split; [reflexivity |]. split; [reflexivity |].
      split; [exact Hmarked |].
      exists []. split; [reflexivity | constructor].
Qed.

Lemma unwind_to_bracket_effect ops st :
  m_operatorStack st = ops ->
  match unwind_to_bracket call ops st with
  | Return found st' =>
      m_line st' = m_line st /\ m_column st' = m_column st
      /\ match found with
         | Some bracket =>
             handler bracket = None
             /\ balance_of (m_valueStack st') (bracket :: m_operatorStack st') = balance st
             /\ exists pre, ops = pre ++ bracket :: m_operatorStack st'
                            /\ Forall has_handler pre
         | None =>
             m_operatorStack st' = []
             /\ Z.of_nat (List.length (m_valueStack st')) = balance st
             /\ Forall has_handler ops
         end
  | AssertionFailed => False
  | _ => True
  end.
Proof.
  revert st. induction ops as [| top below IH]; intros st Hops; cbn [unwind_to_bracket].
  - unfold ret. split; [reflexivity |]. split; [reflexivity |]. split; [exact Hops |].
    split; [| constructor].
    unfold balance, balance_of. rewrite Hops. cbn [owed]. lia.
  - unfold bind at 1, put_operators.
    destruct (handler top) as [h |] eqn:Hh.
    + unfold bind at 1.
      pose proof (call_effect h (set_operators st below)) as Hcall.
      destruct (call h (set_operators st below)) as [u st2 | | | |]; try exact Hcall; try exact I.
      cbn [set_operators m_line m_column m_operatorStack m_valueStack] in Hcall.
      destruct Hcall as (Hl & Hcol & Ho & Hlen & _).
      specialize (IH st2 Ho).
      destruct (unwind_to_bracket call below st2) as [found st3 | | | |];
        try exact IH; try exact I.
      destruct IH as (Hl3 & Hc3 & Hfound).
      assert (Hbal : balance st2 = balance st).
      { unfold balance, balance_of. rewrite Ho, Hlen, Hops.
        cbn [owed]. unfold op_owed. rewrite Hh. lia. }
      split; [congruence |]. split; [congruence |].
      destruct found as [bracket |].
      * destruct Hfound as (Hnone & Hb & pre & Hpre & Hpre_ok).
        split; [exact Hnone |]. split; [congruence |].
        exists (top :: pre). split; [cbn; f_equal; exact Hpre |].
        constructor; [unfold has_handler; congruence | exact Hpre_ok].
      * destruct Hfound as (Hempty & Hb & Hall).
        split; [exact Hempty |]. split; [congruence |].
        constructor; [unfold has_handler; congruence | exact Hall].
    + unfold ret. cbn [set_operators m_line m_column m_operatorStack m_valueStack].
      split; [reflexivity |]. split; [reflexivity |]. split; [exact Hh |]. split.
      * unfold balance, balance_of. rewrite Hops. reflexivity.
      * exists []. split; [reflexivity | constructor].
Qed.

Lemma purge_effect ops st :
  m_operatorStack st = ops ->
  match purge call ops st with
  | Return _ st' =>
      m_line st' = m_line st /\ m_column st' = m_column st
      /\ m_operatorStack st' = []
      /\ Z.of_nat (List.length (m_valueStack st')) = balance st
      /\ Forall has_handler ops
  | AssertionFailed => False
  | _ => True
  end.
Proof.
  revert st. induction ops as [| top below IH]; intros st Hops; cbn [purge].
  - unfold ret. split; [reflexivity |]. split; [reflexivity |]. split; [exact Hops |].
    split; [| constructor].
    unfold balance, balance_of. rewrite Hops. cbn [owed]. lia.
  - unfold bind at 1, put_operators.
    destruct (handler top) as [h |] eqn:Hh; [| exact I].
    unfold bind at 1.
    pose proof (call_effect h (set_operators st below)) as Hcall.
    destruct (call h (set_operators st below)) as [u st2 | | | |]; try exact Hcall; try exact I.
    cbn [set_operators m_line m_column m_operatorStack m_valueStack] in Hcall.
    destruct Hcall as (Hl & Hcol & Ho & Hlen & _).
    specialize (IH st2 Ho).
    destruct (purge call below st2) as [u' st3 | | | |]; try exact IH; try exact I.
    destruct IH as (Hl3 & Hc3 & Hempty & Hb & Hall).
    split; [congruence |]. split; [congruence |]. split; [exact Hempty |]. split.
    + rewrite Hb. unfold balance, balance_of. rewrite Ho, Hlen, Hops.
      cbn [owed]. unfold op_owed. rewrite Hh. lia.
    + constructor; [unfold has_handler; congruence | exact Hall].
Qed.

End Unwinding.

(** ** One iteration of the main loop *)

(** [GetValue] moves the cursor and nothing else of the parser. *)
Definition cursor_only (st st' : State) : Prop :=
  m_line st' = m_line st /\ m_valueStack st' = m_valueStack st
  /\ m_operatorStack st' = m_operatorStack st.

Lemma GetValue_effect E st :
  match GetValue E st with
  | Return _ st' => cursor_only st st'
  | Throw _ st' => cursor_only st st'
  | AssertionFailed => False
  | _ => True
  end.
Proof.
  destruct st as [line col vs ops e r].
  unfold GetValue. unfold_engine.
  repeat split_scrutinee; first [ exact I | repeat split ].
Qed.

Lemma GetValue_guarded_effect E allow l st :
  match GetValue_guarded E allow l st with
  | Return _ st' => cursor_only st st'
  | AssertionFailed => False
  | _ => True
  end.
Proof.
  unfold GetValue_guarded. pose proof (GetValue_effect E st) as H.
  destruct (GetValue E st) as [v st' | e st' | | |]; try exact H; try exact I.
  destruct e; try exact I. destruct (IsFirstPass E); exact I.
Qed.

Lemma ToUpper_open_bracket x : ToUpper x = "("%char -> x = "("%char.
Proof.
  destruct x as [[] [] [] [] [] [] [] []]; vm_compute; intros H;
    first [ reflexivity | discriminate H ].
Qed.

Lemma token_matches_get tok line col :
  token_matches tok line col = true ->
  forall i c, String.get i tok = Some c ->
              exists x, String.get (col + i) line = Some x /\ c = ToUpper x.
Proof.
  revert col. induction tok as [| t rest IH]; intros col Hm i c Hget; [discriminate |].
  cbn [token_matches] in Hm.
  destruct (String.get col line) as [x |] eqn:Hx; [| discriminate].
  destruct (Ascii.eqb t (ToUpper x)) eqn:Heq; [| discriminate].
  apply Ascii.eqb_eq in Heq.
  destruct i as [| i]; cbn [String.get] in Hget.
  - injection Hget as <-. exists x. rewrite Nat.add_0_r. split; assumption.
  - destruct (IH (S col) Hm i c Hget) as (y & Hy & Hc).
    exists y. rewrite <- Nat.add_succ_comm. split; assumption.
Qed.

(** After a function name has been matched, the cursor, stepped back by
    one, is on its open bracket: the assertion of line 307 holds. *)
Lemma function_token_leaves_open_bracket table line col op :
  match_token table line col = Some op ->
  ends_with_open_bracket op = true ->
  char_is "(" (String.get (col + m_tokenLength op - 1) line) = true.
Proof.
  intros Hm Hends. apply match_token_matches in Hm.
  unfold ends_with_open_bracket in Hends. apply andb_prop in Hends as [Hlen Hlast].
  apply Nat.ltb_lt in Hlen.
  unfold char_is in Hlast.
  destruct (String.get (m_tokenLength op - 1) (token op)) as [c |] eqn:Hc; [| discriminate].
  apply Ascii.eqb_eq in Hlast. subst c.
  destruct (token_matches_get _ _ _ Hm _ _ Hc) as (x & Hx & Hup).
  symmetry in Hup. apply ToUpper_open_bracket in Hup. subst x.
  replace (col + m_tokenLength op - 1)%nat with (col + (m_tokenLength op - 1))%nat by lia.
  rewrite Hx. reflexivity.
Qed.

(** What an iteration of the loop body may end in: the invariant at the
    next loop head, a [break] with an empty operator stack and at most one
    value, or an exception; never a failed assertion. *)
Definition step_ok (r : Outcome Control) : Prop :=
  match r with
  | Return (Continue l') st' => Inv l' st'
  | Return Break st' =>
      m_operatorStack st' = [] /\ Z.of_nat (List.length (m_valueStack st')) <= 1
  | AssertionFailed => False
  | _ => True
  end.

Definition bound (t : TYPE) : Z :=
  match t with VALUE_OR_UNARY => 0 | BINARY => 1 end.

Section Step.

Variable E : Env.
Variable run : M Value.
Hypothesis Hrun : never_asserts run.
Variable allow : bool.

Let call := call_handler E (on_parser run).

Lemma push_operator_effect op st :
  match push_operator E op st with
  | Return _ st' =>
      m_valueStack st' = m_valueStack st /\ m_operatorStack st' = op :: m_operatorStack st
  | AssertionFailed => False
  | _ => True
  end.
Proof.
  unfold push_operator, bind, get_operators, put_operators.
  destruct (List.length (m_operatorStack st) =? MAX_OPERATORS E)%nat; cbn; auto.
Qed.

(** Pushing an operator with a handler, after the stacked operators picked
    by [cond] have been executed. *)
Lemma operator_step_ok cond thisOp h l' st :
  handler thisOp = Some h ->
  (forall op, cond op = true -> precedence op <> -1) ->
  brackets_marked (m_operatorStack st) ->
  0 <= pendingCommaCount l' ->
  balance st - Z.of_nat (net_pops h) + pendingCommaCount l' <= bound (expected l') ->
  step_ok ((unwind_while call cond (m_operatorStack st) ;;;
            push_operator E thisOp ;;;
            ret (Continue l')) st).
Proof.
  intros Hh Hcond Hmarked Hpend Hbal.
  unfold bind at 1.
  pose proof (unwind_while_effect E run Hrun cond (m_operatorStack st) st eq_refl Hmarked Hcond)
    as Hunwind.
  fold call in Hunwind.
  destruct (unwind_while call cond (m_operatorStack st) st) as [u st1 | | | |];
    try exact Hunwind; try exact I.
  destruct Hunwind as (_ & _ & Hb1 & Hm1 & _).
  unfold bind at 1.
  pose proof (push_operator_effect thisOp st1) as Hpush.
  destruct (push_operator E thisOp st1) as [u' st2 | | | |]; try exact Hpush; try exact I.
  destruct Hpush as [Hv2 Ho2].
  unfold ret. cbn [step_ok]. unfold Inv.
  split; [exact Hpend |]. split.
  - rewrite Ho2. constructor; [intros Hnone; congruence | exact Hm1].
  - fold (bound (expected l')).
    unfold balance, balance_of in *. rewrite Hv2, Ho2. cbn [owed]. unfold op_owed. rewrite Hh.
    lia.
Qed.

Lemma value_or_unary_ok l st :
  expected l = VALUE_OR_UNARY -> Inv l st ->
  step_ok (value_or_unary E call allow l st).
Proof.
  intros Hexp (Hpend & Hmarked & Hbal). rewrite Hexp in Hbal.
  unfold value_or_unary. unfold bind at 1, get_state.
  destruct (match_token m_gaUnaryOperatorTable (m_line st) (m_column st)) as [matched |] eqn:Hm.
  - pose proof (unary_match_ok _ _ _ Hm) as Hrow. unfold unary_row_ok in Hrow.
    pose proof (function_token_leaves_open_bracket _ _ _ _ Hm) as Hopen.
    unfold bind at 1, put_column.
    destruct (ends_with_open_bracket matched) eqn:Hfun.
    + rewrite (Hopen eq_refl). cbn [negb andb]. unfold bind at 1, ret.
      destruct (handler matched) as [h |] eqn:Hh;
        [| cbn [negb] in Hrow; rewrite andb_false_r in Hrow; discriminate Hrow].
      apply andb_prop in Hrow as [Hprec Hcount].
      apply Z.leb_le in Hprec. apply Z.eqb_eq in Hcount.
      unfold bind at 1, get_operators.
      apply (operator_step_ok _ matched h); try assumption.
      * intros op Hlt. apply Z.ltb_lt in Hlt. lia.
      * cbn [pendingCommaCount]. lia.
      * cbn [pendingCommaCount expected]. rewrite Hexp. cbn [bound].
        change (balance (set_column st (m_column st + m_tokenLength matched - 1)))
          with (balance st). lia.
    + cbn [andb]. unfold bind at 1, ret.
      destruct (handler matched) as [h |] eqn:Hh.
      * apply andb_prop in Hrow as [Hprec Hcount].
        apply Z.leb_le in Hprec. apply Nat.eqb_eq in Hcount.
        unfold bind at 1, get_operators.
        apply (operator_step_ok _ matched h); try assumption.
        -- intros op Hlt. apply Z.ltb_lt in Hlt. lia.
        -- cbn [pendingCommaCount expected]. rewrite Hexp. cbn [bound].
           change (balance (set_column st (m_column st + m_tokenLength matched)))
             with (balance st). lia.
      * apply andb_prop in Hrow as [Hprec _]. apply Z.eqb_eq in Hprec.
        unfold bind at 1.
        match goal with |- context [push_operator E ?op ?s] =>
          pose proof (push_operator_effect op s) as Hpush;
          destruct (push_operator E op s) as [u st2 | | | |]
        end; try exact Hpush; try exact I.
        destruct Hpush as [Hv2 Ho2].
        cbn [set_column m_valueStack m_operatorStack] in Hv2, Ho2.
        cbn [step_ok]. unfold Inv. cbn [pendingCommaCount expected].
        split; [lia |]. split.
        -- rewrite Ho2. constructor; [intros _; exact Hprec | exact Hmarked].
        -- rewrite Hexp. unfold balance, balance_of in *. rewrite Hv2, Ho2.
           cbn [owed]. unfold op_owed. cbn [handler parameterCount]. lia.
  - destruct (List.length (m_valueStack st) =? MAX_VALUES E)%nat; [exact I |].
    unfold bind at 1.
    pose proof (GetValue_guarded_effect E allow l st) as Hget.
    destruct (GetValue_guarded E allow l st) as [value st1 | | | |]; try exact Hget; try exact I.
    destruct Hget as (_ & Hv1 & Ho1).
    unfold bind, get_values, put_values, ret. cbn [step_ok]. unfold Inv.
    cbn [pendingCommaCount expected set_values m_operatorStack].
    split; [exact Hpend |]. split; [rewrite Ho1; exact Hmarked |].
    unfold balance, balance_of in *. cbn [set_values m_valueStack m_operatorStack].
    rewrite Hv1, Ho1. cbn [List.length]. lia.
Qed.

Lemma brackets_marked_app pre bracket rest :
  brackets_marked (pre ++ bracket :: rest) ->
  (handler bracket = None -> precedence bracket = -1) /\ brackets_marked rest.
Proof.
  unfold brackets_marked. intros H. apply Forall_app in H as [_ H].
  split; [exact (Forall_inv H) | exact (Forall_inv_tail H)].
Qed.

Lemma binary_ok l st :
  expected l = BINARY -> Inv l st ->
  step_ok (binary E call allow l st).
Proof.
  intros Hexp (Hpend & Hmarked & Hbal). rewrite Hexp in Hbal.
  unfold binary. unfold bind at 1, get_state.
  destruct (match_token m_gaBinaryOperatorTable (m_line st) (m_column st)) as [thisOp |] eqn:Hm;
    [| exact I].
  pose proof (binary_match_ok _ _ _ Hm) as Hrow. unfold binary_row_ok in Hrow.
  unfold bind at 1, put_column.
  destruct (handler thisOp) as [h |] eqn:Hh.
  - apply andb_prop in Hrow as [Hprec Hpops].
    apply Z.leb_le in Hprec. apply Nat.eqb_eq in Hpops.
    unfold bind at 1, get_operators.
    apply (operator_step_ok _ thisOp h); try assumption.
    + intros op Hle. apply Z.leb_le in Hle. lia.
    + cbn [pendingCommaCount expected bound].
      change (balance (set_column st (m_column st + m_tokenLength thisOp))) with (balance st).
      lia.
  - unfold bind at 1, get_operators. unfold bind at 1.
    set (st1 := set_column st (m_column st + m_tokenLength thisOp)).
    pose proof (unwind_to_bracket_effect E run Hrun (m_operatorStack st1) st1 eq_refl) as Hunwind.
    fold call in Hunwind.
    destruct (unwind_to_bracket call (m_operatorStack st1) st1) as [found st2 | | | |];
      try exact Hunwind; try exact I.
    destruct Hunwind as (_ & _ & Hfound).
    change (balance st1) with (balance st) in Hfound.
    change (m_operatorStack st1) with (m_operatorStack st) in Hfound.
    destruct found as [bracket |].
    + destruct Hfound as (Hnone & Hb & pre & Hpre & _).
      rewrite Hpre in Hmarked. apply brackets_marked_app in Hmarked as [Hbracket Hrest].
      unfold balance_of in Hb. cbn [owed] in Hb. unfold op_owed in Hb. rewrite Hnone in Hb.
      destruct (String.eqb (token thisOp) ",").
      * destruct (Z.eqb_spec (parameterCount bracket) 0); [exact I |].
        unfold bind, get_operators, put_operators, ret. cbn [step_ok]. unfold Inv.
        cbn [pendingCommaCount expected set_operators m_operatorStack m_valueStack].
        split; [exact Hpend |]. split.
        -- constructor; [intros _; cbn [precedence handler] in *; auto | exact Hrest].
        -- unfold balance, balance_of. cbn [set_operators m_operatorStack m_valueStack owed].
           unfold op_owed. cbn [handler parameterCount]. rewrite Hnone. lia.
      * destruct (Z.eqb_spec (parameterCount bracket) 0) as [Hzero |]; [| exact I].
        cbn [negb]. unfold ret. cbn [step_ok]. unfold Inv.
        cbn [pendingCommaCount expected].
        split; [exact Hpend |]. split; [exact Hrest |].
        rewrite Hexp. unfold balance, balance_of. lia.
    + destruct Hfound as (Hempty & Hb & _).
      destruct allow; [| exact I].
      unfold bind, get_state, put_column, ret. cbn [step_ok set_column m_operatorStack m_valueStack].
      split; [exact Hempty | lia].
Qed.

Lemma loop_body_ok l st :
  Inv l st -> step_ok (loop_body E call allow l st).
Proof.
  intros HInv. unfold loop_body. destruct (expected l) eqn:Hexp.
  - apply value_or_unary_ok; assumption.
  - apply binary_ok; assumption.
Qed.

(** After the loop: with the invariant, or after a [break], the purge
    either throws or leaves exactly one value; the assertion of line 552
    never fails. *)
Lemma finish_ok st :
  brackets_marked (m_operatorStack st) ->
  balance st <= 1 ->
  match finish call st with
  | Return v st' => m_valueStack st' = [v] /\ m_operatorStack st' = []
  | AssertionFailed => False
  | _ => True
  end.
Proof.
  intros Hmarked Hbal. unfold finish. unfold bind at 1, get_operators. unfold bind at 1.
  pose proof (purge_effect E run Hrun (m_operatorStack st) st eq_refl) as Hpurge.
  fold call in Hpurge.
  destruct (purge call (m_operatorStack st) st) as [u st1 | | | |]; try exact Hpurge; try exact I.
  destruct Hpurge as (_ & _ & Hempty & Hlen & _).
  unfold bind, get_values.
  destruct (m_valueStack st1) as [| v [| w rest]] eqn:Hvs; cbn [List.length] in Hlen.
  - exact I.
  - unfold ret. split; assumption.
  - lia.
Qed.

End Step.

(** ** C7: the end of the expression *)

(** What a call of the loop may end in. *)
Definition call_ok (r : Outcome Value) : Prop :=
  match r with
  | Return v st' => m_valueStack st' = [v] /\ m_operatorStack st' = []
  | AssertionFailed => False
  | _ => True
  end.

Lemma Inv_initial line st0 : Inv initial_locals (new_parser line st0).
Proof.
  unfold Inv, initial_locals, new_parser, balance, balance_of. cbn.
  split; [lia |]. split; [constructor | lia].
Qed.

Lemma EvaluateExpression_loop_ok E fuel :
  forall allow l st, Inv l st -> call_ok (EvaluateExpression_loop E fuel allow l st).
Proof.
  induction fuel as [| fuel IH]; intros allow l st HInv; [exact I |].
  cbn [EvaluateExpression_loop].
  set (run := EvaluateExpression_loop E fuel false initial_locals).
  assert (Hrun : never_asserts run).
  { intros line st0 Hfail.
    pose proof (IH false initial_locals (new_parser line st0) (Inv_initial line st0)) as H.
    fold run in H. rewrite Hfail in H. exact H. }
  set (r := AdvanceAndCheckEndOfSubStatement E (bracketCount l =? 0) (m_line st) (m_column st)).
  set (st1 := set_column st (snd r)).
  assert (HInv1 : Inv l st1) by exact HInv.
  destruct HInv1 as (Hpend & Hmarked & Hbal).
  assert (Hbal1 : balance st1 <= 1) by (destruct (expected l); lia).
  destruct (fst r).
  - pose proof (loop_body_ok E run Hrun allow l st1 HInv) as Hstep.
    destruct (loop_body E (call_handler E (on_parser run)) allow l st1)
      as [[l' |] st2 | | | |]; try exact Hstep; try exact I.
    + apply IH. exact Hstep.
    + destruct Hstep as [Hempty Hone].
      apply (finish_ok E run Hrun).
      * rewrite Hempty. constructor.
      * unfold balance, balance_of. rewrite Hempty. cbn [owed]. lia.
  - apply (finish_ok E run Hrun); assumption.
Qed.

(** A purge that meets a bracket does not return: it throws
    MismatchedParentheses, unless a handler popped before the bracket
    throws first. *)
Lemma purge_with_bracket call ops st :
  ~ Forall has_handler ops ->
  match purge call ops st with
  | Return _ _ => False
  | Throw e st' =>
      e = MismatchedParentheses \/ exists h st0, call h st0 = Throw e st'
  | _ => True
  end.
Proof.
  revert st. induction ops as [| top below IH]; intros st Hsome; cbn [purge].
  - exfalso. apply Hsome. constructor.
  - unfold bind at 1, put_operators.
    destruct (handler top) as [h |] eqn:Hh.
    + unfold bind at 1.
      destruct (call h (set_operators st below)) as [u st1 | e st1 | | |] eqn:Hcall;
        try exact I.
      * apply IH. intros Hall. apply Hsome.
        constructor; [unfold has_handler; congruence | exact Hall].
      * right. exists h, (set_operators st below). exact Hcall.
    + left. reflexivity.
Qed.

Definition plus_times_line : string := "1 + 2 * 3".

(** Claim C7, as the code has it.  When the line driver reports the end of
    the sub-statement, the call continues with the purge, which pops the
    operator stack from the top and executes each operator.  A purge over
    an operator stack that still holds an open bracket never returns: it
    throws MismatchedParentheses when it reaches the bracket, unless a
    handler popped above the bracket throws first.  With both stacks empty
    after the purge the call throws EmptyExpression.  Whenever
    [EvaluateExpression] returns a value, the value stack holds exactly
    that one value and the operator stack is empty; and the assertion
    [m_valueStackPtr <= 1], like every other assertion of the engine, never
    fails, whatever the line and the collaborators.  [1 + 2 * 3] returns
    Number(7), [(1+2] throws MismatchedParentheses and the empty line
    throws EmptyExpression. *)
Theorem evaluate_ends_with_one_value :
  (forall E fuel allow l st,
      fst (AdvanceAndCheckEndOfSubStatement E (bracketCount l =? 0) (m_line st) (m_column st))
      = false ->
      EvaluateExpression_loop E (S fuel) allow l st
      = finish
          (call_handler E (on_parser (EvaluateExpression_loop E fuel false initial_locals)))
          (set_column st
             (snd (AdvanceAndCheckEndOfSubStatement E (bracketCount l =? 0)
                     (m_line st) (m_column st)))))
  /\ (forall call st,
        ~ Forall has_handler (m_operatorStack st) ->
        match finish call st with
        | Return _ _ => False
        | Throw e st' =>
            e = MismatchedParentheses \/ exists h st0, call h st0 = Throw e st'
        | _ => True
        end)
  /\ (forall call st bracket below,
        handler bracket = None ->
        finish call (set_operators st (bracket :: below))
        = Throw MismatchedParentheses (set_operators st below))
  /\ (forall call st,
        finish call (set_operators (set_values st []) [])
        = Throw EmptyExpression (set_operators (set_values st []) []))
  /\ (forall E fuel allow st v st',
        EvaluateExpression E fuel allow st = Return v st' ->
        m_valueStack st' = [v] /\ m_operatorStack st' = [])
  /\ (forall E fuel allow st, EvaluateExpression E fuel allow st <> AssertionFailed)
  /\ (exists st,
        EvaluateExpression (Sample.env false []) 20 false (Sample.parser plus_times_line)
        = Return (Number (Double.of_Z 7)) st)
  /\ (exists st,
        EvaluateExpression (Sample.env false []) 20 false (Sample.parser "(1+2")
        = Throw MismatchedParentheses st)
  /\ (exists st,
        EvaluateExpression (Sample.env false []) 20 false (Sample.parser "")
        = Throw EmptyExpression st).
Proof.
  assert (Hcall : forall E fuel allow st, call_ok (EvaluateExpression E fuel allow st)).
  { intros E fuel allow st. unfold EvaluateExpression.
    apply EvaluateExpression_loop_ok.
    unfold Inv, initial_locals, balance, balance_of. cbn.
    split; [lia |]. split; [constructor | lia]. }
  repeat match goal with |- _ /\ _ => split end.
  - intros E fuel allow l st Hend. cbn [EvaluateExpression_loop]. rewrite Hend. reflexivity.
  - intros call st Hsome. unfold finish. unfold bind at 1, get_operators. unfold bind at 1.
    pose proof (purge_with_bracket call (m_operatorStack st) st Hsome) as H.
    destruct (purge call (m_operatorStack st) st); try exact H; try exact I. contradiction.
  - intros call st bracket below Hnone. unfold finish, bind, get_operators, put_operators, throw.
    cbn [purge set_operators m_operatorStack]. unfold bind, put_operators.
    rewrite Hnone. reflexivity.
  - intros call st. reflexivity.
  - intros E fuel allow st v st' Hret. specialize (Hcall E fuel allow st).
    rewrite Hret in Hcall. exact Hcall.
  - intros E fuel allow st Hfail. specialize (Hcall E fuel allow st).
    rewrite Hfail in Hcall. exact Hcall.
  - eexists. vm_compute. reflexivity.
  - eexists. vm_compute. reflexivity.
  - eexists. vm_compute. reflexivity.
Qed.

(** The claim read on the stack at the end of the input fails: on [(1/0]
    the purge executes the division first, and the call throws
    DivisionByZero while the open bracket is still on the operator stack. *)
Lemma bracket_remains_but_handler_throws_first :
  exists st,
    EvaluateExpression (Sample.env false []) 20 false (Sample.parser "(1/0")
    = Throw DivisionByZero st
    /\ m_operatorStack st = [mkOperator "(" (-1) 0 None].
Proof. eexists. split; vm_compute; reflexivity. Qed.

(** ** C10: commas and brackets *)





(** The states at the head of the main loop during a call. *)
Inductive LoopHead (E : Env) (allow : bool) : Locals -> State -> Prop :=
| LoopHead_start st :
    LoopHead E allow initial_locals (set_operators (set_values st []) [])
| LoopHead_next fuel l st l' st' :
    LoopHead E allow l st ->
    fst (AdvanceAndCheckEndOfSubStatement E (bracketCount l =? 0) (m_line st) (m_column st))
    = true ->
    loop_body E
      (call_handler E (on_parser (EvaluateExpression_loop E fuel false initial_locals)))
      allow l
      (set_column st
         (snd (AdvanceAndCheckEndOfSubStatement E (bracketCount l =? 0)
                 (m_line st) (m_column st))))
    = Return (Continue l') st' ->
    LoopHead E allow l' st'.


Definition open_paren : Operator := mkOperator "(" (-1) 0 None.


Section Ownership.

Variable E : Env.
Variable run : M Value.
Hypothesis Hrun : never_asserts run.
Variable allow : bool.

Let call := call_handler E (on_parser run).






End Ownership.

Definition separator : Operator := mkOperator "," (-1) 0 None.


Lemma nested_never_asserts E fuel :
  never_asserts (EvaluateExpression_loop E fuel false initial_locals).
Proof.
  intros line st0 Hfail.
  pose proof (EvaluateExpression_loop_ok E fuel false initial_locals
                (new_parser line st0) (Inv_initial line st0)) as H.
  rewrite Hfail in H. exact H.
Qed.





Definition plain_brackets_line : string := "(1,2)".


(** The claim's example, and its twin with square brackets. *)
Example separator_in_plain_brackets_examples :
  (exists st, EvaluateExpression (Sample.env false []) 20 false (Sample.parser "(1,2)")
              = Throw ParameterCount st)
  /\ (exists st, EvaluateExpression (Sample.env false []) 20 false (Sample.parser "[1,2]")
                 = Throw ParameterCount st).
Proof. split; eexists; vm_compute; reflexivity. Qed.


(** ** C3: integer coercion *)

(** Claim C3 at a NaN.  Both range tests of [ConvertDoubleToInt] are false
    on a NaN, so nothing is thrown; the test against INT_MAX is false too,
    and the function ends in [static_cast<unsigned int>] of a NaN, which is
    undefined.  The expression [INT(VAL("nan"))] takes the engine there.
    On [&FFFFFFFF AND &FFFFFFFF] the coercion is defined and the engine
    returns Number(-1). *)
Theorem ConvertDoubleToInt_accepts_nan :
  (forall st, ConvertDoubleToInt S754_nan st = Undefined)
  /\ (forall st st', ConvertDoubleToInt S754_nan st <> Throw OutOfIntegerRange st')
  /\ EvaluateExpression (Sample.env false []) 20 false
       (Sample.parser (append "INT(VAL(" (append (quoted "nan") "))")))
     = Undefined
  /\ (forall st, ConvertDoubleToInt (Double.of_Z UINT_MAX) st = Return (-1) st)
  /\ (exists st,
        EvaluateExpression (Sample.env false []) 20 false
          (Sample.parser "&FFFFFFFF AND &FFFFFFFF")
        = Return (Number (Double.of_Z (-1))) st).
Proof.
  split; [reflexivity |]. split; [discriminate |]. split; [vm_compute; reflexivity |].
  split; [reflexivity |]. eexists. vm_compute. reflexivity.
Qed.

(** ** Integer coercion on every double that is not a NaN *)

(** The order between the real value of a double, [(-1)^s * m * 2^e], and
    an integer [k]. *)
Definition compare_with_Z (d : double) (k : Z) : option comparison :=
  match d with
  | S754_nan => None
  | S754_infinity s => Some (if s then Lt else Gt)
  | S754_zero _ => Some (0 ?= k)
  | S754_finite s m e =>
      Some (if 0 <=? e then cond_Zopp s (Zpos m) * 2 ^ e ?= k
            else cond_Zopp s (Zpos m) ?= k * 2 ^ (- e))
  end.

Lemma digits2_pos_bounds m :
  2 ^ (Zpos (digits2_pos m) - 1) <= Zpos m < 2 ^ Zpos (digits2_pos m).
Proof.
  induction m as [m IH | m IH |]; cbn [digits2_pos].
  - rewrite Pos2Z.inj_succ.
    replace (Z.succ (Zpos (digits2_pos m)) - 1) with (Z.succ (Zpos (digits2_pos m) - 1)) by lia.
    rewrite !Z.pow_succ_r by lia. lia.
  - rewrite Pos2Z.inj_succ.
    replace (Z.succ (Zpos (digits2_pos m)) - 1) with (Z.succ (Zpos (digits2_pos m) - 1)) by lia.
    rewrite !Z.pow_succ_r by lia. lia.
  - cbn. lia.
Qed.

(** A finite binary64 value has a mantissa below 2^53, and of at least 2^52
    unless its exponent is the smallest one. *)
Lemma valid_finite s m e :
  Double.valid (S754_finite s m e) = true ->
  Zpos m < 2 ^ 53 /\ -1074 <= e /\ (-1074 < e -> 2 ^ 52 <= Zpos m).
Proof.
  unfold Double.valid, valid_binary, bounded, canonical_mantissa, fexp, emin,
    Double.prec, Double.emax.
  intros H. apply andb_prop in H as [Hcanon _]. apply Z.eqb_eq in Hcanon.
  pose proof (digits2_pos_bounds m) as [Hlow Hhigh].
  assert (Hd : Zpos (digits2_pos m) <= 53) by lia.
  split; [| split].
  - apply Z.lt_le_trans with (2 ^ Zpos (digits2_pos m)); [exact Hhigh |].
    apply Z.pow_le_mono_r; lia.
  - lia.
  - intros He. assert (Zpos (digits2_pos m) = 53) as Heq by lia.
    rewrite Heq in Hlow. exact Hlow.
Qed.

Lemma compare_cont_Eq m n : Pos.compare_cont Eq m n = (Zpos m ?= Zpos n).
Proof. reflexivity. Qed.

Lemma pow2_split a b : 0 <= a -> 0 <= b -> 2 ^ (a + b) = 2 ^ a * 2 ^ b.
Proof. intros. apply Z.pow_add_r; assumption. Qed.

(** Comparing a binary64 value with a normal constant of negative exponent
    that holds the integer [k] is comparing its real value with [k]. *)
Lemma SFcompare_constant d sc mc ec k :
  Double.valid d = true ->
  2 ^ 52 <= Zpos mc < 2 ^ 53 ->
  -1074 < ec < 0 ->
  k * 2 ^ (- ec) = cond_Zopp sc (Zpos mc) ->
  SFcompare d (S754_finite sc mc ec) = compare_with_Z d k.
Proof.
  intros Hvalid Hmc Hec Hk.
  assert (Hpc : 0 < 2 ^ (- ec)) by (apply Z.pow_pos_nonneg; lia).
  assert (Hpc2 : 2 <= 2 ^ (- ec)).
  { change 2 with (2 ^ 1) at 1. apply Z.pow_le_mono_r; lia. }
  destruct d as [s | s | | s m e]; cbn [SFcompare compare_with_Z].
  - (* zero *)
    f_equal. destruct sc; cbn [cond_Zopp] in Hk; symmetry.
    + apply Z.compare_gt_iff. nia.
    + apply Z.compare_lt_iff. nia.
  - reflexivity.
  - reflexivity.
  - apply valid_finite in Hvalid as (Hm & Hemin & Hnormal).
    f_equal.
    destruct (Z.leb_spec 0 e) as [He | He].
    + (* e >= 0 > ec *)
      assert (Hq : 1 <= 2 ^ e) by (pose proof (Z.pow_pos_nonneg 2 e); lia).
      specialize (Hnormal ltac:(lia)).
      assert (Hcmp : (e ?= ec) = Gt) by (apply Z.compare_gt_iff; lia).
      destruct s, sc; cbn [cond_Zopp] in *; rewrite ?Hcmp; symmetry.
      * apply Z.compare_lt_iff. nia.
      * apply Z.compare_lt_iff. nia.
      * apply Z.compare_gt_iff. nia.
      * apply Z.compare_gt_iff. nia.
    + (* e < 0 *)
      assert (Hp : 0 < 2 ^ (- e)) by (apply Z.pow_pos_nonneg; lia).
      destruct (Z.compare_spec e ec) as [Heq | Hlt | Hgt].
      * subst e. rewrite compare_cont_Eq.
        destruct s, sc; cbn [cond_Zopp CompOpp] in *; rewrite ?Hk; try reflexivity.
      * (* e < ec: the value is the smaller in magnitude *)
        assert (Hsplit : 2 ^ (- e) = 2 ^ (- ec) * 2 ^ (ec - e)).
        { rewrite <- pow2_split by lia. f_equal. lia. }
        assert (Hr : 2 <= 2 ^ (ec - e)).
        { change 2 with (2 ^ 1) at 1. apply Z.pow_le_mono_r; lia. }
        destruct s, sc; cbn [cond_Zopp] in *; symmetry.
        -- apply Z.compare_gt_iff. rewrite Hsplit. nia.
        -- apply Z.compare_lt_iff. rewrite Hsplit. nia.
        -- apply Z.compare_gt_iff. rewrite Hsplit. nia.
        -- apply Z.compare_lt_iff. rewrite Hsplit. nia.
      * (* ec < e < 0: the value is the larger in magnitude *)
        specialize (Hnormal ltac:(lia)).
        assert (Hsplit : 2 ^ (- ec) = 2 ^ (- e) * 2 ^ (e - ec)).
        { rewrite <- pow2_split by lia. f_equal. lia. }
        assert (Hr : 2 <= 2 ^ (e - ec)).
        { change 2 with (2 ^ 1) at 1. apply Z.pow_le_mono_r; lia. }
        rewrite Hsplit in Hk.
        destruct s, sc; cbn [cond_Zopp] in *; symmetry.
        -- apply Z.compare_lt_iff. nia.
        -- apply Z.compare_lt_iff. nia.
        -- apply Z.compare_gt_iff. nia.
        -- apply Z.compare_gt_iff. nia.
Qed.

Definition flip (c : option comparison) : option comparison :=
  match c with
  | Some c => Some (CompOpp c)
  | None => None
  end.

Lemma SFcompare_antisym x y : SFcompare y x = flip (SFcompare x y).
Proof.
  destruct x as [sx | sx | | sx mx ex], y as [sy | sy | | sy my ey];
    cbn [SFcompare flip]; try reflexivity;
    try (destruct sx, sy; reflexivity); try (destruct sx; reflexivity);
    try (destruct sy; reflexivity).
  f_equal.
  pose proof (Pos.compare_cont_antisym mx my Eq) as Hm. cbn [CompOpp] in Hm.
  rewrite (Z.compare_antisym ex ey), <- Hm.
  destruct sx, sy; cbn [CompOpp]; try reflexivity;
    destruct (ex ?= ey); cbn [CompOpp]; try reflexivity.
Qed.

Definition below (d : double) (k : Z) : Prop := compare_with_Z d k = Some Lt.
Definition above (d : double) (k : Z) : Prop := compare_with_Z d k = Some Gt.

Lemma of_Z_INT_MIN : Double.of_Z INT_MIN = S754_finite true 4503599627370496 (-21).
Proof. reflexivity. Qed.
Lemma of_Z_INT_MAX : Double.of_Z INT_MAX = S754_finite false 9007199250546688 (-22).
Proof. reflexivity. Qed.
Lemma of_Z_UINT_MAX : Double.of_Z UINT_MAX = S754_finite false 9007199252643840 (-21).
Proof. reflexivity. Qed.

Lemma compare_INT_MIN d :
  Double.valid d = true -> SFcompare d (Double.of_Z INT_MIN) = compare_with_Z d INT_MIN.
Proof.
  intros Hv. rewrite of_Z_INT_MIN. apply SFcompare_constant; [exact Hv | lia | lia | reflexivity].
Qed.

Lemma compare_INT_MAX d :
  Double.valid d = true -> SFcompare d (Double.of_Z INT_MAX) = compare_with_Z d INT_MAX.
Proof.
  intros Hv. rewrite of_Z_INT_MAX. apply SFcompare_constant; [exact Hv | lia | lia | reflexivity].
Qed.

Lemma compare_UINT_MAX d :
  Double.valid d = true -> SFcompare d (Double.of_Z UINT_MAX) = compare_with_Z d UINT_MAX.
Proof.
  intros Hv. rewrite of_Z_UINT_MAX. apply SFcompare_constant; [exact Hv | lia | lia | reflexivity].
Qed.

(** Truncation toward zero keeps a value on its side of an integer. *)
Lemma trunc_between d k n :
  Double.trunc d = Some n ->
  (~ below d k -> k <= n) /\ (~ above d k -> n <= k).
Proof.
  assert (Hcases : forall x y : Z,
             ((x ?= y) = Lt /\ x < y) \/ ((x ?= y) = Eq /\ x = y) \/ ((x ?= y) = Gt /\ y < x)).
  { intros x y. destruct (Z.compare_spec x y); auto. }
  unfold below, above.
  destruct d as [s | s | | s m e]; unfold Double.trunc, compare_with_Z; try discriminate.
  - intros [= <-]. destruct (Hcases 0 k) as [[-> Hc] | [[-> Hc] | [-> Hc]]];
      split; intros Hside; try lia; exfalso; apply Hside; reflexivity.
  - intros [= <-].
    destruct e as [| p | p].
    + change (0 <=? 0) with true. cbv iota. rewrite Z.pow_0_r, Z.mul_1_r.
      destruct (Hcases (cond_Zopp s (Zpos m)) k) as [[-> Hc] | [[-> Hc] | [-> Hc]]];
        split; intros Hside; try lia; exfalso; apply Hside; reflexivity.
    + change (0 <=? Zpos p) with true. cbv iota.
      remember (2 ^ Zpos p) as q eqn:Hq.
      destruct (Hcases (cond_Zopp s (Zpos m) * q) k) as [[-> Hc] | [[-> Hc] | [-> Hc]]];
        destruct s; unfold cond_Zopp in *; fold (Z.mul (Zpos m) q);
        split; intros Hside; try lia; exfalso; apply Hside; reflexivity.
    + change (0 <=? Zneg p) with false. cbv iota.
      change (- Zneg p) with (Zpos p).
      assert (Hpos : 0 < 2 ^ Zpos p) by (apply Z.pow_pos_nonneg; lia).
      remember (2 ^ Zpos p) as q eqn:Hq.
      pose proof (Z.div_mod (Zpos m) q ltac:(lia)) as Hdm.
      pose proof (Z.mod_pos_bound (Zpos m) q Hpos) as Hmod.
      remember (Zpos m / q) as t eqn:Ht. remember (Zpos m mod q) as r eqn:Hr.
      destruct (Hcases (cond_Zopp s (Zpos m)) (k * q)) as [[-> Hc] | [[-> Hc] | [-> Hc]]];
        destruct s; unfold cond_Zopp in *;
        split; intros Hside; try (exfalso; apply Hside; reflexivity); nia.
Qed.

Lemma compare_with_Z_defined d k :
  Double.is_nan d = false -> exists c, compare_with_Z d k = Some c.
Proof.
  destruct d; cbn [Double.is_nan compare_with_Z]; try discriminate; intros _; eexists; reflexivity.
Qed.

Lemma compare_with_Z_le d k1 k2 :
  k1 <= k2 ->
  (compare_with_Z d k1 <> Some Gt -> compare_with_Z d k2 <> Some Gt)
  /\ (compare_with_Z d k2 <> Some Lt -> compare_with_Z d k1 <> Some Lt).
Proof.
  intros Hle.
  assert (Hgen : forall x p, 0 < p ->
             ((x ?= k1 * p) <> Gt -> (x ?= k2 * p) <> Gt)
             /\ ((x ?= k2 * p) <> Lt -> (x ?= k1 * p) <> Lt)).
  { intros x p Hp.
    destruct (Z.compare_spec x (k1 * p)), (Z.compare_spec x (k2 * p));
      split; intros Hne; try congruence; nia. }
  destruct d as [s | s | | s m e]; unfold compare_with_Z.
  - specialize (Hgen 0 1 ltac:(lia)). rewrite !Z.mul_1_r in Hgen.
    destruct Hgen as [Ha Hb]. split; intros Hne Heq; [apply Ha | apply Hb]; congruence.
  - split; intros Hne; exact Hne.
  - split; intros Hne; discriminate.
  - destruct (0 <=? e).
    + specialize (Hgen (cond_Zopp s (Zpos m) * 2 ^ e) 1 ltac:(lia)).
      rewrite !Z.mul_1_r in Hgen.
      destruct Hgen as [Ha Hb]. split; intros Hne Heq; [apply Ha | apply Hb]; congruence.
    + destruct (Z.leb_spec 0 (- e)) as [He | He].
      * specialize (Hgen (cond_Zopp s (Zpos m)) (2 ^ (- e))
                      ltac:(apply Z.pow_pos_nonneg; lia)).
        destruct Hgen as [Ha Hb]. split; intros Hne Heq; [apply Ha | apply Hb]; congruence.
      * rewrite (Z.pow_neg_r 2 (- e)) by lia. rewrite !Z.mul_0_r.
        split; intros Hne; exact Hne.
Qed.

(** [ConvertDoubleToInt] on every binary64 value [d] other than a NaN: it
    throws OutOfIntegerRange exactly when [d < INT_MIN] or [d > UINT_MAX];
    a value of [INT_MIN, INT_MAX] is truncated toward zero to an [int]; a
    value of (INT_MAX, UINT_MAX] is truncated to an [unsigned int] and
    reinterpreted as signed. *)
Theorem ConvertDoubleToInt_on_numbers d st :
  Double.valid d = true ->
  Double.is_nan d = false ->
  ((exists st', ConvertDoubleToInt d st = Throw OutOfIntegerRange st')
   <-> (below d INT_MIN \/ above d UINT_MAX))
  /\ (~ below d INT_MIN -> ~ above d INT_MAX ->
      exists n, Double.trunc d = Some n /\ is_int n
                /\ ConvertDoubleToInt d st = Return n st)
  /\ (above d INT_MAX -> ~ above d UINT_MAX ->
      exists n, Double.trunc d = Some n /\ INT_MAX <= n <= UINT_MAX
                /\ ConvertDoubleToInt d st = Return (to_signed n) st).
Proof.
  intros Hvalid Hnan.
  unfold ConvertDoubleToInt, Double.ltb, Double.gtb, Double.leb, SFltb, SFleb.
  rewrite (SFcompare_antisym d (Double.of_Z UINT_MAX)).
  rewrite (compare_INT_MIN d Hvalid), (compare_UINT_MAX d Hvalid), (compare_INT_MAX d Hvalid).
  unfold below, above.
  destruct (compare_with_Z_defined d INT_MIN Hnan) as [c1 H1].
  destruct (compare_with_Z_defined d UINT_MAX Hnan) as [c2 H2].
  destruct (compare_with_Z_defined d INT_MAX Hnan) as [c3 H3].
  assert (Htrunc : forall n, Double.trunc d = Some n ->
            (c1 <> Lt -> INT_MIN <= n) /\ (c3 <> Gt -> n <= INT_MAX)
            /\ (c3 <> Lt -> INT_MAX <= n) /\ (c2 <> Gt -> n <= UINT_MAX)).
  { intros n Hn.
    pose proof (trunc_between d INT_MIN n Hn) as [Ha _].
    pose proof (trunc_between d INT_MAX n Hn) as [Hb Hc].
    pose proof (trunc_between d UINT_MAX n Hn) as [_ Hd].
    unfold below, above in *. rewrite H1 in Ha. rewrite H3 in Hb, Hc. rewrite H2 in Hd.
    repeat split; intros Hne; [apply Ha | apply Hc | apply Hb | apply Hd]; congruence. }
  assert (Hfinite : c1 <> Lt -> c2 <> Gt -> exists n, Double.trunc d = Some n).
  { destruct d as [s | s | | s m e]; cbn [compare_with_Z Double.trunc] in *;
      try discriminate; try (intros; eexists; reflexivity).
    destruct s; intros Ha Hb; exfalso; [apply Ha | apply Hb]; congruence. }
  rewrite H1, H2, H3. cbn [flip].
  split; [| split].
  - destruct c1, c2; cbn [CompOpp orb]; split;
      try (intros _; left; reflexivity); try (intros _; right; reflexivity);
      try (intros _; eexists; reflexivity);
      try (intros [H | H]; discriminate H).
    all: intros [st' Hthrow]; exfalso; revert Hthrow;
      destruct c3; unfold cast_double_int, cast_double_uint;
      destruct (Double.trunc d) as [n |]; try discriminate;
      match goal with |- context [if ?b then _ else _] => destruct b end; discriminate.
  - intros Hlow Hhigh.
    assert (Hc1 : c1 <> Lt) by congruence. assert (Hc3 : c3 <> Gt) by congruence.
    assert (Hc2 : c2 <> Gt).
    { pose proof (proj1 (compare_with_Z_le d INT_MAX UINT_MAX ltac:(unfold INT_MAX, UINT_MAX; lia)))
        as Hmono.
      rewrite H3, H2 in Hmono. intros ->. apply Hmono; congruence. }
    destruct (Hfinite Hc1 Hc2) as [n Hn]. destruct (Htrunc n Hn) as (Ha & Hb & _ & _).
    specialize (Ha Hc1). specialize (Hb Hc3).
    exists n. split; [exact Hn |]. split; [split; assumption |].
    unfold cast_double_int. rewrite Hn.
    destruct (Z.leb_spec INT_MIN n); [| lia]. destruct (Z.leb_spec n INT_MAX); [| lia].
    destruct c1, c2, c3; cbn [CompOpp orb andb]; first [reflexivity | congruence].
  - intros Hhigh Hmax.
    assert (Hc3 : c3 = Gt) by congruence. assert (Hc2 : c2 <> Gt) by congruence.
    assert (Hc1 : c1 <> Lt).
    { pose proof (proj2 (compare_with_Z_le d INT_MIN INT_MAX ltac:(unfold INT_MIN, INT_MAX; lia)))
        as Hmono.
      rewrite H3, H1 in Hmono. intros ->. apply Hmono; congruence. }
    destruct (Hfinite Hc1 Hc2) as [n Hn]. destruct (Htrunc n Hn) as (_ & _ & Ha & Hb).
    specialize (Ha ltac:(congruence)). specialize (Hb Hc2).
    exists n. split; [exact Hn |]. split; [split; assumption |].
    unfold cast_double_uint. rewrite Hn.
    destruct (Z.leb_spec 0 n); [| unfold INT_MAX in *; lia].
    destruct (Z.leb_spec n UINT_MAX); [| lia].
    subst c3. destruct c1, c2; cbn [CompOpp orb andb]; first [reflexivity | congruence].
Qed.

Lemma ConvertDoubleToInt_on_numbers_witness :
  exists n, Double.trunc (Double.of_Z UINT_MAX) = Some n /\ INT_MAX <= n <= UINT_MAX
            /\ ConvertDoubleToInt (Double.of_Z UINT_MAX) (Sample.parser "")
               = Return (to_signed n) (Sample.parser "").
Proof.
  refine (proj2 (proj2 (ConvertDoubleToInt_on_numbers (Double.of_Z UINT_MAX)
                          (Sample.parser "") eq_refl eq_refl)) eq_refl _).
  discriminate.
Defined.

(** ** The engine on literal lines *)

(** What the engine answers on a line, with no symbol defined, on the
    second pass. *)
Definition returns (line : string) (v : Value) : Prop :=
  exists st,
    EvaluateExpression (Sample.env false []) 20 false (Sample.parser line) = Return v st.

Definition throws (line : string) (e : AsmException) : Prop :=
  exists st,
    EvaluateExpression (Sample.env false []) 20 false (Sample.parser line) = Throw e st.

(** The engine on literal input lines: precedence and brackets, string
    concatenation and MID$, the truth values of a comparison, AND on
    hexadecimal literals, the two shifts, LEN of STRING$, CHR$ inside and
    outside 0..255, a division by zero, the square root of a negative
    number, an unterminated string, an unclosed bracket, and an undefined
    symbol on the first pass, which leaves the cursor past the
    expression. *)
Theorem engine_on_literal_lines :
  returns "1 + 2 * 3" (Number (Double.of_Z 7))
  /\ returns "(1 + 2) * 3" (Number (Double.of_Z 9))
  /\ returns "2 ^ 10" (Number (Double.of_Z 1024))
  /\ returns (append (quoted "foo") (append " + " (quoted "bar"))) (Str "foobar")
  /\ returns (append "MID$(" (append (quoted "hello") ", 2, 3)")) (Str "ell")
  /\ returns "5 = 5" (Number (Double.of_Z (-1)))
  /\ returns "5 = 6" (Number (Double.of_Z 0))
  /\ returns "&FF AND &0F" (Number (Double.of_Z 15))
  /\ returns "1 << 4" (Number (Double.of_Z 16))
  /\ returns "-1 >> 1" (Number (Double.of_Z (-1)))
  /\ returns (append "LEN(STRING$(3, " (append (quoted "ab") "))")) (Number (Double.of_Z 6))
  /\ returns "CHR$(65)" (Str "A")
  /\ throws "CHR$(-1)" IllegalOperation
  /\ throws "1/0" DivisionByZero
  /\ throws "SQR(-1)" IllegalOperation
  /\ throws (String quote_char "abc") MissingQuote
  /\ throws "(1+2" MismatchedParentheses
  /\ EvaluateExpression (Sample.env true []) 20 false (Sample.parser "FOO+1")
     = Throw SymbolNotDefined (set_column (Sample.parser "FOO+1") 5).
Proof.
  unfold returns, throws.
  repeat match goal with |- _ /\ _ => split end;
    first [ eexists; vm_compute; reflexivity | vm_compute; reflexivity ].
Qed.

(** * Further properties of the engine *)

(** ** Integers held in doubles *)

Lemma iter_xO_value (m d : positive) : Zpos (Pos.iter xO m d) = Zpos m * 2 ^ Zpos d.
Proof.
  induction d as [| d IH] using Pos.peano_ind.
  - cbn [Pos.iter]. rewrite Pos2Z.inj_xO. change (2 ^ 1) with 2. lia.
  - rewrite Pos.iter_succ, Pos2Z.inj_xO, IH, Pos2Z.inj_succ, Z.pow_succ_r by lia. lia.
Qed.

Lemma iter_xO_digits (m d : positive) :
  Zpos (digits2_pos (Pos.iter xO m d)) = Zpos (digits2_pos m) + Zpos d.
Proof.
  induction d as [| d IH] using Pos.peano_ind.
  - cbn [Pos.iter digits2_pos]. lia.
  - rewrite Pos.iter_succ. cbn [digits2_pos]. rewrite Pos2Z.inj_succ, IH. lia.
Qed.

(** A mantissa of exactly 53 digits with an exponent in range is left as
    it is by the rounding. *)
Lemma binary_round_aux_aligned sx m e :
  Zpos (digits2_pos m) = 53 -> -1074 <= e <= 971 ->
  binary_round_aux Double.prec Double.emax sx (Zpos m) e loc_Exact = S754_finite sx m e.
Proof.
  intros Hd He.
  unfold binary_round_aux, shr_fexp, shr_record_of_loc, Zdigits2, fexp, emin,
    Double.prec, Double.emax.
  rewrite Hd.
  replace (Z.max (53 + e - 53) (3 - 1024 - 53) - e) with 0 by lia.
  cbn [shr shr_m loc_of_shr_record round_nearest_even Zdigits2].
  rewrite Hd.
  replace (Z.max (53 + e - 53) (3 - 1024 - 53) - e) with 0 by lia.
  cbn [shr shr_m].
  destruct (Z.leb_spec e (1024 - 53)); [reflexivity | lia].
Qed.

(** The shape of [static_cast<double>(n)] for a non-zero integer of at most
    53 bits: the mantissa is [|n|] shifted up to 53 digits. *)
Lemma binary_round_integer sx m :
  Zpos (digits2_pos m) <= 53 ->
  exists m' e,
    binary_round Double.prec Double.emax sx m 0 = S754_finite sx m' e
    /\ -52 <= e <= 0
    /\ Zpos (digits2_pos m') = 53
    /\ Zpos m' = Zpos m * 2 ^ (- e).
Proof.
  intros Hd.
  pose proof (Pos2Z.is_pos (digits2_pos m)) as Hpos.
  unfold binary_round, shl_align, fexp, emin, Double.prec, Double.emax.
  replace (Z.max (Zpos (digits2_pos m) + 0 - 53) (3 - 1024 - 53) - 0)
    with (Zpos (digits2_pos m) - 53) by lia.
  replace (Z.max (Zpos (digits2_pos m) + 0 - 53) (3 - 1024 - 53))
    with (Zpos (digits2_pos m) - 53) by lia.
  destruct (Zpos (digits2_pos m) - 53) as [| p | p] eqn:Hshift; [| lia |].
  - exists m, 0. split; [| split; [lia | split; [lia |]]].
    + apply (binary_round_aux_aligned sx m 0); lia.
    + cbn. lia.
  - exists (Pos.iter xO m p), (Zneg p).
    pose proof (iter_xO_digits m p) as Hdigits.
    split; [| split; [lia | split; [lia |]]].
    + apply (binary_round_aux_aligned sx (Pos.iter xO m p) (Zneg p)); lia.
    + rewrite iter_xO_value. reflexivity.
Qed.

Lemma digits2_pos_small m : Zpos m < 2 ^ 53 -> Zpos (digits2_pos m) <= 53.
Proof.
  intros Hm. pose proof (digits2_pos_bounds m) as [Hlow _].
  destruct (Z.le_gt_cases (Zpos (digits2_pos m)) 53) as [Hle | Hgt]; [exact Hle | exfalso].
  assert (2 ^ 53 <= 2 ^ (Zpos (digits2_pos m) - 1)) by (apply Z.pow_le_mono_r; lia).
  lia.
Qed.

Lemma compare_scaled x y q : 0 < q -> (x * q ?= y * q) = (x ?= y).
Proof.
  intros Hq. destruct (Z.compare_spec x y) as [-> | H | H].
  - apply Z.compare_refl.
  - apply Z.compare_lt_iff. nia.
  - apply Z.compare_gt_iff. nia.
Qed.

(** An integer below 2^53 in magnitude is held exactly by a double: the
    double is a binary64 value, truncates to the integer, and compares
    with integers as the integer does. *)
Lemma of_Z_exact n :
  - 2 ^ 53 < n < 2 ^ 53 ->
  Double.valid (Double.of_Z n) = true
  /\ Double.trunc (Double.of_Z n) = Some n
  /\ forall k, compare_with_Z (Double.of_Z n) k = Some (n ?= k).
Proof.
  intros Hn.
  assert (Hgen : forall sx m, Zpos m < 2 ^ 53 ->
            let d := binary_round Double.prec Double.emax sx m 0 in
            Double.valid d = true
            /\ Double.trunc d = Some (cond_Zopp sx (Zpos m))
            /\ forall k, compare_with_Z d k = Some (cond_Zopp sx (Zpos m) ?= k)).
  { intros sx m Hm d. subst d.
    destruct (binary_round_integer sx m (digits2_pos_small m Hm)) as (m' & e & -> & He & Hd & Hv).
    assert (Hq : 0 < 2 ^ (- e)) by (apply Z.pow_pos_nonneg; lia).
    split; [| split].
    - unfold Double.valid, valid_binary, bounded, canonical_mantissa, fexp, emin,
        Double.prec, Double.emax.
      rewrite Hd. apply andb_true_intro. split; [apply Z.eqb_eq | apply Z.leb_le]; lia.
    - unfold Double.trunc. f_equal. f_equal.
      destruct e as [| p | p]; [| lia |].
      + rewrite Hv. cbn. lia.
      + rewrite Hv. change (- Zneg p) with (Zpos p) in *. apply Z.div_mul. lia.
    - intros k. unfold compare_with_Z. f_equal.
      destruct (Z.leb_spec 0 e) as [Hz | Hneg].
      + assert (e = 0) by lia. subst e. rewrite Hv. cbn [Z.opp]. rewrite Z.pow_0_r, !Z.mul_1_r.
        reflexivity.
      + rewrite Hv. destruct sx; cbn [cond_Zopp].
        * rewrite <- Z.mul_opp_l. apply compare_scaled. exact Hq.
        * apply compare_scaled. exact Hq. }
  unfold Double.of_Z, binary_normalize.
  destruct n as [| p | p].
  - split; [reflexivity | split; [reflexivity | intros k; reflexivity]].
  - apply (Hgen false p). lia.
  - apply (Hgen true p). lia.
Qed.

Lemma ltb_compare x y : Double.ltb x y = match SFcompare x y with Some Lt => true | _ => false end.
Proof. reflexivity. Qed.

Lemma to_signed_int n : is_int n -> to_signed n = n.
Proof.
  unfold is_int, INT_MIN, INT_MAX, to_signed. intros Hn.
  change (2 ^ 32) with 4294967296. change (2 ^ 31) with 2147483648.
  destruct (Z.ltb_spec (n mod 4294967296) 2147483648); Z.div_mod_to_equations; lia.
Qed.

(** Every integer of [INT_MIN, UINT_MAX], as a double, is integer-coercible:
    an [int] to itself, a larger value to its two's complement reading. *)
Lemma of_Z_coercible n :
  INT_MIN <= n <= UINT_MAX -> IntCoercible (Double.of_Z n) (to_signed n).
Proof.
  intros Hn st.
  destruct (of_Z_exact n ltac:(unfold INT_MIN, UINT_MAX in Hn; lia)) as (Hvalid & Htrunc & Hcmp).
  unfold ConvertDoubleToInt, Double.ltb, Double.gtb, Double.leb, SFltb, SFleb.
  rewrite (SFcompare_antisym (Double.of_Z n) (Double.of_Z UINT_MAX)).
  rewrite (compare_INT_MIN _ Hvalid), (compare_UINT_MAX _ Hvalid), (compare_INT_MAX _ Hvalid).
  rewrite !Hcmp. cbn [flip].
  unfold cast_double_int, cast_double_uint. rewrite Htrunc.
  assert (Hlow : (n ?= INT_MIN) <> Lt) by (rewrite Z.compare_lt_iff; lia).
  assert (Hhigh : (n ?= UINT_MAX) <> Gt) by (rewrite Z.compare_gt_iff; lia).
  destruct (Z.le_gt_cases n INT_MAX) as [Hint | Hbig].
  - assert (Hmid : (n ?= INT_MAX) <> Gt) by (rewrite Z.compare_gt_iff; lia).
    rewrite (to_signed_int n) by (split; lia).
    destruct (Z.leb_spec INT_MIN n); [| lia]. destruct (Z.leb_spec n INT_MAX); [| lia].
    destruct (n ?= INT_MIN), (n ?= UINT_MAX), (n ?= INT_MAX);
      cbn [CompOpp orb andb]; first [reflexivity | congruence].
  - assert (Hmid : (n ?= INT_MAX) = Gt) by (apply Z.compare_gt_iff; lia).
    rewrite Hmid.
    destruct (Z.leb_spec 0 n); [| unfold INT_MAX in *; lia].
    destruct (Z.leb_spec n UINT_MAX); [| lia].
    destruct (n ?= INT_MIN), (n ?= UINT_MAX);
      cbn [CompOpp orb andb]; first [reflexivity | congruence].
Qed.

Lemma int_coercible n : is_int n -> IntCoercible (Double.of_Z n) n.
Proof.
  intros Hn. rewrite <- (to_signed_int n Hn) at 2.
  apply of_Z_coercible. unfold is_int, INT_MIN, INT_MAX, UINT_MAX in *. lia.
Qed.

(** ** Operands on the value stack *)

Lemma call_handler_needs_operands E nested h st :
  (List.length (m_valueStack st) < net_pops h + 1)%nat ->
  call_handler E nested h st = Throw MissingValue st.
Proof.
  destruct st as [line col vs ops e r]. cbn [m_valueStack].
  destruct vs as [| [d1 | s1] [| [d2 | s2] [| v3 rest]]];
    destruct h; cbn [net_pops List.length Nat.add]; intros Hlen;
    first [ reflexivity | exfalso; lia ].
Qed.

(** A handler called with fewer values on the stack than it takes throws
    MissingValue and leaves the parser as it was: one value for a prefix
    operator or one-argument function, two for an infix operator, LEFT$,
    RIGHT$ and STRING$, three for MID$. *)
Theorem handlers_need_their_operands E nested h st :
  (List.length (m_valueStack st) < net_pops h + 1)%nat ->
  call_handler E nested h st = Throw MissingValue st.
Proof.
  destruct st as [line col vs ops e r]. cbn [m_valueStack]. intros Hlen.
  destruct h; cbn [net_pops Nat.add] in Hlen;
    destruct vs as [| v1 vs]; try (cbn in Hlen; lia); try reflexivity;
    destruct vs as [| v2 vs]; try (cbn in Hlen; lia); try (destruct v1; reflexivity);
    destruct vs as [| v3 vs]; try (cbn in Hlen; lia); reflexivity.
Qed.

Lemma handlers_need_their_operands_witness :
  call_handler (Sample.env false []) (fun _ => throw IllegalOperation) Ptr.EvalMid
    (set_values (Sample.parser "") [Number (Double.of_Z 1); Str "abc"])
  = Throw MissingValue (set_values (Sample.parser "") [Number (Double.of_Z 1); Str "abc"]).
Proof.
  apply (handlers_need_their_operands (Sample.env false []) (fun _ => throw IllegalOperation)
           Ptr.EvalMid (set_values (Sample.parser "") [Number (Double.of_Z 1); Str "abc"])).
  cbn. lia.
Defined.

(** What a returning handler leaves: the operands replaced by one result,
    everything beneath them and the rest of the parser untouched. *)
Definition operands_replaced (h : OperatorHandler) (st : State) (r : Outcome unit) : Prop :=
  match r with
  | Return _ st' =>
      same_parser st st'
      /\ (net_pops h + 1 <= List.length (m_valueStack st))%nat
      /\ exists result,
           m_valueStack st' = result :: skipn (net_pops h + 1) (m_valueStack st)
  | _ => True
  end.

Ltac close_replaced :=
  cbv beta iota zeta delta
    [ operands_replaced same_parser net_pops m_line m_column m_valueStack
      m_operatorStack List.length skipn Nat.add ];
  first [ exact I
        | repeat match goal with |- _ /\ _ => split end;
          first [ reflexivity | lia | eexists; reflexivity ] ].

Lemma call_handler_replaces E (run : M Value) h st :
  operands_replaced h st (call_handler E (on_parser run) h st).
Proof.
  destruct st as [line col vs ops e r].
  destruct h; unfold_engine;
    repeat (split_outcome; unfold_engine); close_replaced.
Qed.

(** A handler that returns has replaced its operands, the top
    [net_pops h + 1] values, by one result: the values beneath them, the
    line, the cursor and the operator stack are as before.  This holds for
    EVAL too, which runs on a parser object of its own. *)
Theorem handler_replaces_its_operands E (run : M Value) h st st' :
  call_handler E (on_parser run) h st = Return tt st' ->
  m_line st' = m_line st
  /\ m_column st' = m_column st
  /\ m_operatorStack st' = m_operatorStack st
  /\ (net_pops h + 1 <= List.length (m_valueStack st))%nat
  /\ exists result,
       m_valueStack st' = result :: skipn (net_pops h + 1) (m_valueStack st).
Proof.
  intros Hret. pose proof (call_handler_replaces E run h st) as H.
  rewrite Hret in H. destruct H as ((Hl & Hc & Ho) & Hlen & Hres).
  repeat split; assumption.
Qed.

Lemma handler_replaces_its_operands_witness :
  exists result,
    m_valueStack (set_values (Sample.parser "") [Number (Double.of_Z 3); Str "z"])
    = result :: skipn (net_pops Ptr.EvalAdd + 1)
                  (m_valueStack
                     (set_values (Sample.parser "")
                        [Number (Double.of_Z 2); Number (Double.of_Z 1); Str "z"])).
Proof.
  exact (proj2 (proj2 (proj2 (proj2
           (handler_replaces_its_operands (Sample.env false []) (fun st => Throw IllegalOperation st)
              Ptr.EvalAdd
              (set_values (Sample.parser "")
                 [Number (Double.of_Z 2); Number (Double.of_Z 1); Str "z"])
              (set_values (Sample.parser "") [Number (Double.of_Z 3); Str "z"])
              eq_refl))))).
Defined.

(** ** Operand tags *)

Fixpoint tags_eqb (a b : list ValueType) : bool :=
  match a, b with
  | [], [] => true
  | x :: a', y :: b' => ValueType_eqb x y && tags_eqb a' b'
  | _, _ => false
  end.

(** The tags of the operands a handler accepts, top of the stack first. *)
Definition accepts (h : OperatorHandler) (tags : list ValueType) : bool :=
  match h with
  | Ptr.EvalAdd | Ptr.EvalEqual | Ptr.EvalNotEqual | Ptr.EvalLessThanOrEqual
  | Ptr.EvalMoreThanOrEqual | Ptr.EvalLessThan | Ptr.EvalMoreThan =>
      match tags with
      | [a; b] => ValueType_eqb a b
      | _ => false
      end
  | Ptr.EvalPosate =>
      match tags with
      | [_] => true
      | _ => false
      end
  | Ptr.EvalPower | Ptr.EvalMultiply | Ptr.EvalDivide | Ptr.EvalMod | Ptr.EvalDiv
  | Ptr.EvalShiftLeft | Ptr.EvalShiftRight | Ptr.EvalSubtract
  | Ptr.EvalAnd | Ptr.EvalOr | Ptr.EvalEor =>
      tags_eqb tags [NumberValue; NumberValue]
  | Ptr.EvalTime | Ptr.EvalVal | Ptr.EvalEval | Ptr.EvalLen | Ptr.EvalAsc
  | Ptr.EvalUpper | Ptr.EvalLower =>
      tags_eqb tags [StringValue]
  | Ptr.EvalMid => tags_eqb tags [NumberValue; NumberValue; StringValue]
  | Ptr.EvalLeft | Ptr.EvalRight => tags_eqb tags [NumberValue; StringValue]
  | Ptr.EvalString => tags_eqb tags [StringValue; NumberValue]
  | _ => tags_eqb tags [NumberValue]
  end.

Lemma ConvertDoubleToInt_throws d st e st' :
  ConvertDoubleToInt d st = Throw e st' -> e = OutOfIntegerRange /\ st' = st.
Proof.
  unfold ConvertDoubleToInt.
  destruct (Double.ltb d (Double.of_Z INT_MIN) || Double.gtb d (Double.of_Z UINT_MAX)).
  - intros [= <- <-]. split; reflexivity.
  - destruct (Double.leb d (Double.of_Z INT_MAX)).
    + destruct (cast_double_int d); discriminate.
    + destruct (cast_double_uint d); discriminate.
Qed.

(** Splitting a stack that holds the operands of a handler. *)
Ltac split_operands vs Hlen :=
  let v1 := fresh "v" in let v2 := fresh "v" in let v3 := fresh "v" in
  let v4 := fresh "v" in
  destruct vs as [| v1 [| v2 [| v3 [| v4 vs]]]];
  cbn [List.length] in Hlen; try discriminate Hlen;
  try destruct v1; try destruct v2; try destruct v3.

(** A handler whose operands do not carry the tags it accepts throws
    TypeMismatch before it changes anything: the arithmetic, shift and
    bitwise operators and the numeric functions want numbers, [+] and the
    comparisons two values of one tag, the string functions strings in the
    places of their string parameters.  Conversely, operands with the
    accepted tags never make a handler throw TypeMismatch (EVAL apart,
    whose nested expression can). *)
Theorem handlers_check_operand_tags E nested h st operands rest :
  m_valueStack st = operands ++ rest ->
  List.length operands = (net_pops h + 1)%nat ->
  (accepts h (map GetType operands) = false ->
   call_handler E nested h st = Throw TypeMismatch st)
  /\ (accepts h (map GetType operands) = true -> h <> Ptr.EvalEval ->
      forall st', call_handler E nested h st <> Throw TypeMismatch st').
Proof.
  destruct st as [line col vs ops e r]. cbn [m_valueStack]. intros -> Hlen.
  split.
  - destruct h; cbn [net_pops Nat.add] in Hlen; split_operands operands Hlen;
      cbn; intros Hacc;
      first [ discriminate Hacc | reflexivity ].
  - intros Hacc Hnot st'.
    destruct h; try (exfalso; apply Hnot; reflexivity);
      cbn [net_pops Nat.add] in Hlen; split_operands operands Hlen;
      try discriminate Hacc;
      unfold_engine; cbn [app];
      repeat (split_outcome; unfold_engine);
      try match goal with
          | H : ConvertDoubleToInt _ _ = Throw _ _ |- _ =>
              apply ConvertDoubleToInt_throws in H; destruct H as [-> _]
          end;
      discriminate.
Qed.

Lemma handlers_check_operand_tags_witness :
  call_handler (Sample.env false []) (fun _ => throw IllegalOperation) Ptr.EvalSubtract
    (set_values (Sample.parser "") [Str "b"; Number (Double.of_Z 1)])
  = Throw TypeMismatch (set_values (Sample.parser "") [Str "b"; Number (Double.of_Z 1)]).
Proof.
  exact (proj1 (handlers_check_operand_tags (Sample.env false []) (fun _ => throw IllegalOperation)
                  Ptr.EvalSubtract
                  (set_values (Sample.parser "") [Str "b"; Number (Double.of_Z 1)])
                  [Str "b"; Number (Double.of_Z 1)] [] eq_refl eq_refl) eq_refl).
Defined.

(** ** Division *)

Lemma eqb_zero (b : double) :
  Double.eqb b d_zero = match b with S754_zero _ => true | _ => false end.
Proof. destruct b as [s | s | | s m e]; try reflexivity; destruct s; reflexivity. Qed.

Lemma EvalDivide_numbers E nested st a b rest :
  call_handler E nested Ptr.EvalDivide (set_values st (Number b :: Number a :: rest))
  = if Double.eqb b d_zero
    then Throw DivisionByZero (set_values st (Number b :: Number a :: rest))
    else Return tt (set_values st (Number (Double.div a b) :: rest)).
Proof.
  cbn [call_handler]. unfold EvalDivide, bind.
  change (StackTopTwoNumbers (set_values st (Number b :: Number a :: rest)))
    with (Return (a, b) (set_values st (Number b :: Number a :: rest))).
  cbn [fst snd]. destruct (Double.eqb b d_zero); reflexivity.
Qed.

(** [/] throws DivisionByZero exactly when the divisor is a zero, of
    either sign, and otherwise leaves the IEEE quotient (so a NaN or
    infinite divisor is divided by); DIV and MOD (and [%], the same
    handler as MOD) throw DivisionByZero when the divisor coerces to the
    integer 0, as -0.5 and 0.5 do.  The throw leaves both operands on the
    stack. *)
Theorem division_by_zero E nested st rest :
  let stack vs := set_values st (vs ++ rest) in
  (forall a b,
      call_handler E nested Ptr.EvalDivide (stack [Number b; Number a])
      = match b with
        | S754_zero _ => Throw DivisionByZero (stack [Number b; Number a])
        | _ => Return tt (stack [Number (Double.div a b)])
        end)
  /\ (forall a b x, IntCoercible a x -> IntCoercible b 0 ->
      call_handler E nested Ptr.EvalDiv (stack [Number b; Number a])
      = Throw DivisionByZero (stack [Number b; Number a])
      /\ call_handler E nested Ptr.EvalMod (stack [Number b; Number a])
         = Throw DivisionByZero (stack [Number b; Number a]))
  /\ IntCoercible (Double.div (Double.of_Z 1) (Double.of_Z 2)) 0
  /\ IntCoercible (Double.div (Double.of_Z (-1)) (Double.of_Z 2)) 0
  /\ handler_of_token "/" = Some Ptr.EvalDivide
  /\ handler_of_token "DIV" = Some Ptr.EvalDiv
  /\ handler_of_token "MOD" = Some Ptr.EvalMod
  /\ handler_of_token "%" = Some Ptr.EvalMod.
Proof.
  intros stack. split; [| split].
  - intros a b. unfold stack. cbn [app]. rewrite EvalDivide_numbers, eqb_zero.
    destruct b; reflexivity.
  - intros a b x Ha Hb. split; cbn [call_handler]; unfold EvalDiv, EvalMod, bind, stack;
      cbn [app]; rewrite (StackTopTwoInts_coercible st a b x 0 rest Ha Hb); reflexivity.
  - repeat split; try reflexivity; intros st0; reflexivity.
Qed.

Lemma quot_is_int x y : is_int x -> y <> 0 -> ~ (x = INT_MIN /\ y = -1) -> is_int (Z.quot x y).
Proof.
  unfold is_int, INT_MIN, INT_MAX. intros Hx Hy Hover.
  pose proof (Z.quot_rem' x y) as Hqr.
  pose proof (Z.rem_bound_abs x y Hy) as Hr.
  pose proof (Z.rem_sign_nz x y Hy) as Hsign.
  destruct (Z.eq_dec (Z.rem x y) 0) as [Hz | Hnz].
  - rewrite Hz in Hqr. nia.
  - specialize (Hsign Hnz).
    assert (Hs : (0 < Z.rem x y /\ 0 < x) \/ (Z.rem x y < 0 /\ x < 0)).
    { destruct (Z.rem x y) eqn:Hrem, x; cbn in Hsign; try discriminate; try lia. }
    nia.
Qed.

Lemma rem_is_int x y : is_int y -> y <> 0 -> is_int (Z.rem x y).
Proof.
  unfold is_int, INT_MIN, INT_MAX. intros Hyi Hy.
  pose proof (Z.rem_bound_abs x y Hy) as Hr. lia.
Qed.

(** DIV and MOD on integer-coercible operands with a non-zero divisor are
    the truncated quotient [q] and the remainder [r] of the two integers:
    [x = y * q + r] with [|r| < |y|] and [r] of the sign of [x], so that
    [-7 DIV 2] is -3 and [-7 MOD 2] is -1; both results are again [int]s.
    The one exception is INT_MIN by -1, whose quotient overflows an [int]:
    there the behaviour of both operators is undefined. *)
Theorem integer_division E nested st a b x y rest :
  IntCoercible a x -> IntCoercible b y -> y <> 0 ->
  let stack vs := set_values st (vs ++ rest) in
  let q := Z.quot x y in
  let r := Z.rem x y in
  if (x =? INT_MIN) && (y =? -1)
  then call_handler E nested Ptr.EvalDiv (stack [Number b; Number a]) = Undefined
       /\ call_handler E nested Ptr.EvalMod (stack [Number b; Number a]) = Undefined
  else call_handler E nested Ptr.EvalDiv (stack [Number b; Number a])
       = Return tt (stack [Number (Double.of_Z q)])
       /\ call_handler E nested Ptr.EvalMod (stack [Number b; Number a])
          = Return tt (stack [Number (Double.of_Z r)])
       /\ x = y * q + r
       /\ Z.abs r < Z.abs y
       /\ (0 <= x -> 0 <= r) /\ (x <= 0 -> r <= 0)
       /\ IntCoercible (Double.of_Z q) q
       /\ IntCoercible (Double.of_Z r) r.
Proof.
  intros Ha Hb Hy stack q r.
  pose proof (IntCoercible_is_int a x Ha) as Hx.
  pose proof (IntCoercible_is_int b y Hb) as Hyi.
  assert (Hdiv : forall h, h = Ptr.EvalDiv \/ h = Ptr.EvalMod ->
            call_handler E nested h (stack [Number b; Number a])
            = if (x =? INT_MIN) && (y =? -1) then Undefined
              else Return tt (stack [Number (Double.of_Z
                                               (match h with
                                                | Ptr.EvalDiv => q
                                                | _ => r
                                                end))])).
  { intros h [-> | ->]; cbn [call_handler]; unfold EvalDiv, EvalMod, bind, stack; cbn [app];
      rewrite (StackTopTwoInts_coercible st a b x y rest Ha Hb); cbn [fst snd];
      destruct (Z.eqb_spec y 0); try contradiction;
      destruct ((x =? INT_MIN) && (y =? -1)); reflexivity. }
  rewrite (Hdiv Ptr.EvalDiv (or_introl eq_refl)), (Hdiv Ptr.EvalMod (or_intror eq_refl)).
  destruct ((x =? INT_MIN) && (y =? -1)) eqn:Hover; [split; reflexivity |].
  assert (Hnot : ~ (x = INT_MIN /\ y = -1)).
  { intros [-> ->]. discriminate Hover. }
  pose proof (Z.rem_bound_abs x y Hy) as Hr.
  split; [reflexivity |]. split; [reflexivity |].
  split; [apply Z.quot_rem' |]. split; [exact Hr |].
  split; [intros Hpos; apply Z.rem_nonneg; assumption |].
  split; [intros Hneg; apply Z.rem_nonpos; assumption |].
  split; apply int_coercible; [apply quot_is_int | apply rem_is_int]; assumption.
Qed.

Lemma integer_division_witness :
  call_handler (Sample.env false []) (fun _ => throw IllegalOperation) Ptr.EvalDiv
    (set_values (Sample.parser "") ([Number (Double.of_Z 2); Number (Double.of_Z (-7))] ++ []))
  = Return tt (set_values (Sample.parser "") ([Number (Double.of_Z (-3))] ++ [])).
Proof.
  exact (proj1 (integer_division (Sample.env false []) (fun _ => throw IllegalOperation)
                  (Sample.parser "") (Double.of_Z (-7)) (Double.of_Z 2) (-7) 2 []
                  (fun _ => eq_refl) (fun _ => eq_refl) ltac:(lia))).
Defined.

(** ** Bitwise operators *)

(** An integer whose bits from 31 upwards all equal its sign is an [int]. *)
Lemma is_int_of_bits v :
  (forall i, 31 <= i -> Z.testbit v i = (v <? 0)) -> is_int v.
Proof.
  intros Hbits. unfold is_int, INT_MIN, INT_MAX.
  assert (Hnonneg : forall w, 0 <= w -> (forall i, 31 <= i -> Z.testbit w i = false) ->
                              w < 2 ^ 31).
  { intros w Hw Hhigh. destruct (Z.eq_dec w 0) as [-> | Hnz]; [reflexivity |].
    destruct (Z.lt_ge_cases w (2 ^ 31)) as [Hlt | Hge]; [exact Hlt | exfalso].
    assert (Hlog : 31 <= Z.log2 w) by (apply Z.log2_le_pow2; lia).
    specialize (Hhigh (Z.log2 w) Hlog). rewrite Z.bit_log2 in Hhigh by lia. discriminate. }
  destruct (Z.ltb_spec v 0) as [Hneg | Hpos].
  - assert (Hw : Z.lnot v < 2 ^ 31).
    { apply Hnonneg; [unfold Z.lnot; lia |].
      intros i Hi. rewrite Z.lnot_spec by lia. rewrite (Hbits i Hi). reflexivity. }
    unfold Z.lnot in Hw. change (2 ^ 31) with 2147483648 in Hw. lia.
  - pose proof (Hnonneg v Hpos Hbits) as Hv. change (2 ^ 31) with 2147483648 in Hv. lia.
Qed.

Lemma bitwise_is_int (f : Z -> Z -> Z) (g : bool -> bool -> bool) x y :
  (forall i, 0 <= i -> Z.testbit (f x y) i = g (Z.testbit x i) (Z.testbit y i)) ->
  (f x y <? 0) = g (x <? 0) (y <? 0) ->
  is_int x -> is_int y -> is_int (f x y).
Proof.
  intros Hspec Hsign Hx Hy. apply is_int_of_bits. intros i Hi.
  rewrite Hspec by lia.
  rewrite (int_bits_above x i Hx Hi), (int_bits_above y i Hy Hi). symmetry. exact Hsign.
Qed.

Lemma land_is_int x y : is_int x -> is_int y -> is_int (Z.land x y).
Proof.
  apply (bitwise_is_int Z.land andb); [intros i _; apply Z.land_spec |].
  pose proof (Z.land_neg x y).
  destruct (Z.ltb_spec (Z.land x y) 0), (Z.ltb_spec x 0), (Z.ltb_spec y 0);
    cbn [andb]; try reflexivity; exfalso; lia.
Qed.

Lemma lor_is_int x y : is_int x -> is_int y -> is_int (Z.lor x y).
Proof.
  apply (bitwise_is_int Z.lor orb); [intros i _; apply Z.lor_spec |].
  pose proof (Z.lor_neg x y).
  destruct (Z.ltb_spec (Z.lor x y) 0), (Z.ltb_spec x 0), (Z.ltb_spec y 0);
    cbn [orb]; try reflexivity; exfalso; lia.
Qed.

Lemma lxor_is_int x y : is_int x -> is_int y -> is_int (Z.lxor x y).
Proof.
  apply (bitwise_is_int Z.lxor xorb); [intros i _; apply Z.lxor_spec |].
  pose proof (Z.lxor_nonneg x y).
  destruct (Z.ltb_spec (Z.lxor x y) 0), (Z.ltb_spec x 0), (Z.ltb_spec y 0);
    cbn [xorb]; try reflexivity; exfalso; lia.
Qed.

Lemma lnot_is_int x : is_int x -> is_int (Z.lnot x).
Proof. unfold is_int, INT_MIN, INT_MAX, Z.lnot. lia. Qed.

Lemma to_unsigned_land n : to_unsigned n = Z.land n (Z.ones 32).
Proof. unfold to_unsigned. symmetry. apply Z.land_ones. lia. Qed.

(** AND, OR, EOR and NOT on integer-coercible operands work on the 32-bit
    two's complement patterns of the coerced integers, bit by bit, and
    leave an [int] that is integer-coercible in its turn, so that the
    operators chain: NOT is [-x - 1], NOT applied to its own result gives
    the coerced integer back, and so does EOR applied twice with the same
    right operand. *)
Theorem bitwise_operators E nested st a b x y rest :
  IntCoercible a x -> IntCoercible b y ->
  let stack vs := set_values st (vs ++ rest) in
  let result h := call_handler E nested h (stack [Number b; Number a]) in
  result Ptr.EvalAnd = Return tt (stack [Number (Double.of_Z (Z.land x y))])
  /\ result Ptr.EvalOr = Return tt (stack [Number (Double.of_Z (Z.lor x y))])
  /\ result Ptr.EvalEor = Return tt (stack [Number (Double.of_Z (Z.lxor x y))])
  /\ call_handler E nested Ptr.EvalNot (stack [Number a])
     = Return tt (stack [Number (Double.of_Z (- x - 1))])
  /\ (forall i, 0 <= i < 32 ->
        Z.testbit (to_unsigned (Z.land x y)) i
        = Z.testbit (to_unsigned x) i && Z.testbit (to_unsigned y) i
        /\ Z.testbit (to_unsigned (Z.lor x y)) i
           = Z.testbit (to_unsigned x) i || Z.testbit (to_unsigned y) i
        /\ Z.testbit (to_unsigned (Z.lxor x y)) i
           = xorb (Z.testbit (to_unsigned x) i) (Z.testbit (to_unsigned y) i)
        /\ Z.testbit (to_unsigned (- x - 1)) i = negb (Z.testbit (to_unsigned x) i))
  /\ IntCoercible (Double.of_Z (Z.land x y)) (Z.land x y)
  /\ IntCoercible (Double.of_Z (Z.lor x y)) (Z.lor x y)
  /\ IntCoercible (Double.of_Z (Z.lxor x y)) (Z.lxor x y)
  /\ call_handler E nested Ptr.EvalNot (stack [Number (Double.of_Z (- x - 1))])
     = Return tt (stack [Number (Double.of_Z x)])
  /\ call_handler E nested Ptr.EvalEor (stack [Number b; Number (Double.of_Z (Z.lxor x y))])
     = Return tt (stack [Number (Double.of_Z x)]).
Proof.
  intros Ha Hb stack result.
  pose proof (IntCoercible_is_int a x Ha) as Hx.
  pose proof (IntCoercible_is_int b y Hb) as Hy.
  assert (Htwo : forall c d u v, IntCoercible c u -> IntCoercible d v ->
            StackTopTwoInts (stack [Number d; Number c])
            = Return (u, v) (stack [Number d; Number c])).
  { intros c d u v Hc Hd. apply (StackTopTwoInts_coercible st c d u v rest Hc Hd). }
  assert (Hone : forall c u, IntCoercible c u ->
            StackTopInt (stack [Number c]) = Return u (stack [Number c])).
  { intros c u Hc. apply (StackTopInt_coercible st c u rest Hc). }
  assert (Hnot : forall u, Z.lnot u = - u - 1) by (intros u; unfold Z.lnot; lia).
  assert (Hbit : forall n i, 0 <= i < 32 -> Z.testbit (to_unsigned n) i = Z.testbit n i).
  { intros n i Hi. unfold to_unsigned. apply Z.mod_pow2_bits_low. lia. }
  unfold result. cbn [call_handler]. unfold EvalAnd, EvalOr, EvalEor, EvalNot, bind.
  rewrite (Htwo a b x y Ha Hb), (Hone a x Ha). cbn [fst snd]. rewrite Hnot.
  split; [reflexivity |]. split; [reflexivity |]. split; [reflexivity |].
  split; [reflexivity |].
  split.
  { intros i Hi. rewrite !Hbit by assumption.
    rewrite Z.land_spec, Z.lor_spec, Z.lxor_spec, <- Hnot, Z.lnot_spec by lia.
    repeat split. }
  split; [apply int_coercible, land_is_int; assumption |].
  split; [apply int_coercible, lor_is_int; assumption |].
  split; [apply int_coercible, lxor_is_int; assumption |].
  split.
  - rewrite (Hone (Double.of_Z (- x - 1)) (- x - 1)).
    + rewrite Hnot. replace (- (- x - 1) - 1) with x by lia. reflexivity.
    + rewrite <- Hnot. apply int_coercible, lnot_is_int, Hx.
  - rewrite (Htwo (Double.of_Z (Z.lxor x y)) b (Z.lxor x y) y).
    + cbn [fst snd]. rewrite Z.lxor_assoc, Z.lxor_nilpotent, Z.lxor_0_r. reflexivity.
    + apply int_coercible, lxor_is_int; assumption.
    + exact Hb.
Qed.

Lemma bitwise_operators_witness :
  call_handler (Sample.env false []) (fun _ => throw IllegalOperation) Ptr.EvalAnd
    (set_values (Sample.parser "")
       ([Number (Double.of_Z 10); Number (Double.of_Z (-4))] ++ []))
  = Return tt (set_values (Sample.parser "") ([Number (Double.of_Z 8)] ++ [])).
Proof.
  exact (proj1 (bitwise_operators (Sample.env false []) (fun _ => throw IllegalOperation)
                  (Sample.parser "") (Double.of_Z (-4)) (Double.of_Z 10) (-4) 10 []
                  (fun _ => eq_refl) (fun _ => eq_refl))).
Defined.

(** ** CHR$ and ASC *)

(** CHR$ takes the coerced integer [n] of its operand: outside 0..255 it
    throws IllegalOperation, inside it leaves the one-character string of
    code [n], on which ASC gives [n] back (as an unsigned byte, also from
    128 up).  ASC throws IllegalOperation on the empty string; on any other
    string it leaves the code of the first character, on which CHR$ gives
    that character back. *)
Theorem chr_and_asc_are_inverse E nested st a n rest :
  IntCoercible a n ->
  let stack vs := set_values st (vs ++ rest) in
  let c := ascii_of_nat (Z.to_nat n) in
  (n < 0 \/ 255 < n ->
   call_handler E nested Ptr.EvalChr (stack [Number a])
   = Throw IllegalOperation (stack [Number a]))
  /\ (0 <= n <= 255 ->
      call_handler E nested Ptr.EvalChr (stack [Number a])
      = Return tt (stack [Str (String c EmptyString)])
      /\ call_handler E nested Ptr.EvalAsc (stack [Str (String c EmptyString)])
         = Return tt (stack [Number (Double.of_Z n)]))
  /\ call_handler E nested Ptr.EvalAsc (stack [Str EmptyString])
     = Throw IllegalOperation (stack [Str EmptyString])
  /\ (forall first others,
        let code := Z.of_nat (nat_of_ascii first) in
        0 <= code <= 255
        /\ call_handler E nested Ptr.EvalAsc (stack [Str (String first others)])
           = Return tt (stack [Number (Double.of_Z code)])
        /\ call_handler E nested Ptr.EvalChr (stack [Number (Double.of_Z code)])
           = Return tt (stack [Str (String first EmptyString)])).
Proof.
  intros Ha stack c.
  assert (Hchr : forall d k, IntCoercible d k ->
            call_handler E nested Ptr.EvalChr (stack [Number d])
            = if (k <? 0) || (k >? 255) then Throw IllegalOperation (stack [Number d])
              else Return tt (stack [Str (String (ascii_of_nat (Z.to_nat k)) EmptyString)])).
  { intros d k Hd. cbn [call_handler]. unfold EvalChr, bind, stack. cbn [app].
    rewrite (StackTopInt_coercible st d k rest Hd).
    destruct ((k <? 0) || (k >? 255)); reflexivity. }
  split; [| split; [| split]].
  - intros Hout. rewrite (Hchr a n Ha).
    destruct (Z.ltb_spec n 0), (Z.gtb_spec n 255); cbn [orb]; try reflexivity; lia.
  - intros Hin. rewrite (Hchr a n Ha).
    destruct (Z.ltb_spec n 0), (Z.gtb_spec n 255); cbn [orb]; try lia.
    split; [reflexivity |].
    cbn [call_handler]. unfold EvalAsc, bind, stack. cbn [app]. cbn.
    unfold c. rewrite nat_ascii_embedding by lia. rewrite Z2Nat.id by lia. reflexivity.
  - reflexivity.
  - intros first others code.
    pose proof (nat_ascii_bounded first) as Hbound.
    assert (Hcode : 0 <= code <= 255) by (unfold code; lia).
    split; [exact Hcode |]. split; [reflexivity |].
    rewrite (Hchr (Double.of_Z code) code).
    + destruct (Z.ltb_spec code 0), (Z.gtb_spec code 255); cbn [orb]; try lia.
      unfold code. rewrite Nat2Z.id, ascii_nat_embedding. reflexivity.
    + apply int_coercible. unfold is_int, INT_MIN, INT_MAX. lia.
Qed.

Lemma chr_and_asc_are_inverse_witness :
  call_handler (Sample.env false []) (fun _ => throw IllegalOperation) Ptr.EvalChr
    (set_values (Sample.parser "") ([Number (Double.of_Z 200)] ++ []))
  = Return tt
      (set_values (Sample.parser "")
         ([Str (String (ascii_of_nat (Z.to_nat 200)) EmptyString)] ++ []))
  /\ call_handler (Sample.env false []) (fun _ => throw IllegalOperation) Ptr.EvalAsc
       (set_values (Sample.parser "")
          ([Str (String (ascii_of_nat (Z.to_nat 200)) EmptyString)] ++ []))
     = Return tt (set_values (Sample.parser "") ([Number (Double.of_Z 200)] ++ [])).
Proof.
  apply (proj1 (proj2 (chr_and_asc_are_inverse (Sample.env false [])
                         (fun _ => throw IllegalOperation) (Sample.parser "")
                         (Double.of_Z 200) 200 [] (fun _ => eq_refl)))).
  lia.
Defined.

(** ** LEFT$, RIGHT$ and MID$ *)

(** LEFT$(s, n) and RIGHT$(s, n) take the coerced integer [c] of the count:
    they throw IllegalOperation exactly when [c < 0] or [c > LEN(s)], with
    the count already taken off the stack, and otherwise leave
    [s.SubString(0, c)], respectively [s.SubString(LEN(s) - c, c)].
    MID$(s, i, k) throws IllegalOperation exactly when [i - 1 < 0],
    [i - 1 > LEN(s)] or [k < 0], and otherwise leaves
    [s.SubString(i - 1, k)] without comparing [i - 1 + k] with the length;
    so MID$(s, 1, c) is LEFT$(s, c) wherever LEFT$ is defined.  An index
    that coerces to INT_MIN makes [i - 1] overflow: undefined behaviour. *)
Theorem substring_functions E nested st s d c rest :
  IntCoercible d c ->
  let stack vs := set_values st (vs ++ rest) in
  let len := StringPrim.Length s in
  let out_of_range := (c <? 0) || (c >? len) in
  call_handler E nested Ptr.EvalLeft (stack [Number d; Str s])
  = (if out_of_range then Throw IllegalOperation (stack [Str s])
     else Return tt (stack [Str (StringPrim.SubString s 0 c)]))
  /\ call_handler E nested Ptr.EvalRight (stack [Number d; Str s])
     = (if out_of_range then Throw IllegalOperation (stack [Str s])
        else Return tt (stack [Str (StringPrim.SubString s (len - c) c)]))
  /\ (forall k dk, IntCoercible dk k ->
        call_handler E nested Ptr.EvalMid (stack [Number dk; Number d; Str s])
        = if c =? INT_MIN then Undefined
          else if (c - 1 <? 0) || (c - 1 >? len) || (k <? 0)
               then Throw IllegalOperation (stack [Str s])
               else Return tt (stack [Str (StringPrim.SubString s (c - 1) k)]))
  /\ (out_of_range = false ->
      call_handler E nested Ptr.EvalMid (stack [Number d; Number (Double.of_Z 1); Str s])
      = call_handler E nested Ptr.EvalLeft (stack [Number d; Str s])).
Proof.
  intros Hd stack len out_of_range.
  pose proof (IntCoercible_is_int d c Hd) as Hc.
  assert (Hlen : 0 <= len) by (unfold len, StringPrim.Length; lia).
  assert (Hu : forall n, is_int n ->
            ((n <? 0) || (to_unsigned n >? len)) = ((n <? 0) || (n >? len))).
  { intros n Hn. destruct (Z.ltb_spec n 0) as [Hneg | Hpos]; [reflexivity |]. cbn [orb].
    unfold to_unsigned. rewrite Z.mod_small; [reflexivity |].
    unfold is_int, INT_MAX in Hn. lia. }
  assert (Hleft : call_handler E nested Ptr.EvalLeft (stack [Number d; Str s])
                  = (if out_of_range then Throw IllegalOperation (stack [Str s])
                     else Return tt (stack [Str (StringPrim.SubString s 0 c)]))).
  { cbn [call_handler]. unfold EvalLeft, bind, get_values, put_values, stack. cbn [app].
    cbn [set_values m_valueStack]. rewrite Hd. fold len. rewrite (Hu c Hc).
    fold out_of_range. destruct out_of_range; reflexivity. }
  assert (Hmid : forall i di k dk, IntCoercible di i -> IntCoercible dk k ->
            call_handler E nested Ptr.EvalMid (stack [Number dk; Number di; Str s])
            = if i =? INT_MIN then Undefined
              else if (i - 1 <? 0) || (i - 1 >? len) || (k <? 0)
                   then Throw IllegalOperation (stack [Str s])
                   else Return tt (stack [Str (StringPrim.SubString s (i - 1) k)])).
  { intros i di k dk Hi Hk.
    cbn [call_handler]. unfold EvalMid, bind, get_values, put_values, stack. cbn [app].
    cbn [set_values m_valueStack]. rewrite Hi.
    destruct (Z.eqb_spec i INT_MIN) as [Hmin | Hmin]; [reflexivity |].
    rewrite Hk. fold len.
    assert (Hi1 : is_int (i - 1)).
    { pose proof (IntCoercible_is_int di i Hi). unfold is_int, INT_MIN, INT_MAX in *. lia. }
    rewrite (Hu (i - 1) Hi1).
    destruct ((i - 1 <? 0) || (i - 1 >? len) || (k <? 0)); reflexivity. }
  split; [exact Hleft |]. split; [| split].
  - cbn [call_handler]. unfold EvalRight, bind, get_values, put_values, stack. cbn [app].
    cbn [set_values m_valueStack]. rewrite Hd. fold len. rewrite (Hu c Hc).
    fold out_of_range. destruct out_of_range eqn:Hout; [reflexivity |].
    unfold out_of_range in Hout. apply orb_false_elim in Hout as [Hneg _].
    apply Z.ltb_ge in Hneg.
    unfold to_unsigned. rewrite Z.mod_small by (unfold is_int, INT_MAX in Hc; lia).
    reflexivity.
  - intros k dk Hk. apply Hmid; assumption.
  - intros Hin. rewrite Hleft, Hin.
    rewrite (Hmid 1 (Double.of_Z 1) c d (fun _ => eq_refl) Hd).
    change (1 =? INT_MIN) with false. cbv iota. change (1 - 1) with 0.
    unfold out_of_range in Hin. apply orb_false_elim in Hin as [Hneg _].
    rewrite Hneg. destruct (Z.gtb_spec 0 len); [lia |]. reflexivity.
Qed.

Lemma substring_functions_witness :
  call_handler (Sample.env false []) (fun _ => throw IllegalOperation) Ptr.EvalLeft
    (set_values (Sample.parser "") ([Number (Double.of_Z 4); Str "abc"] ++ []))
  = Throw IllegalOperation (set_values (Sample.parser "") ([Str "abc"] ++ [])).
Proof.
  exact (proj1 (substring_functions (Sample.env false []) (fun _ => throw IllegalOperation)
                  (Sample.parser "") "abc" (Double.of_Z 4) 4 [] (fun _ => eq_refl))).
Defined.

(** ** String literals *)

(** The text of a string inside a literal: each quote is written twice. *)
Fixpoint escape_quotes (s : string) : string :=
  match s with
  | EmptyString => EmptyString
  | String c rest =>
      if Ascii.eqb c quote_char then String c (String c (escape_quotes rest))
      else String c (escape_quotes rest)
  end.

Definition starts_with_quote (s : string) : bool :=
  match s with
  | String c _ => Ascii.eqb c quote_char
  | EmptyString => false
  end.

Lemma append_assoc (a b c : string) : append (append a b) c = append a (append b c).
Proof. induction a as [| x a IH]; cbn [append]; [reflexivity | rewrite IH; reflexivity]. Qed.

Lemma get_after (prefix : string) (c : ascii) (rest : string) :
  String.get (String.length prefix) (append prefix (String c rest)) = Some c.
Proof. induction prefix as [| x p IH]; cbn; [reflexivity | exact IH]. Qed.

Lemma substring_whole (s : string) : substring 0 (String.length s) s = s.
Proof. induction s as [| c s IH]; cbn; [reflexivity | rewrite IH; reflexivity]. Qed.

Lemma line_from_after (prefix rest : string) :
  line_from (append prefix rest) (String.length prefix) = rest.
Proof.
  unfold line_from. rewrite length_append.
  replace (String.length prefix + String.length rest - String.length prefix)%nat
    with (String.length rest) by lia.
  induction prefix as [| x p IH]; cbn [append String.length substring].
  - apply substring_whole.
  - exact IH.
Qed.

(** The literal scanner on a well-formed body: it collects the string and
    stops just after the closing quote. *)
Lemma scan_string_literal_escaped s suffix col text :
  starts_with_quote suffix = false ->
  scan_string_literal (append (escape_quotes s) (String quote_char suffix)) col text
  = Some (append text s, (col + String.length (escape_quotes s) + 1)%nat).
Proof.
  intros Hsuffix. revert col text.
  induction s as [| c s IH]; intros col text.
  - cbn [escape_quotes append scan_string_literal String.length].
    rewrite Ascii.eqb_refl.
    replace (append text EmptyString) with text
      by (clear; induction text as [| x t IH]; cbn; [reflexivity | rewrite <- IH; reflexivity]).
    replace (col + 0 + 1)%nat with (col + 1)%nat by lia.
    destruct suffix as [| c' suffix']; [reflexivity |].
    cbn [starts_with_quote] in Hsuffix. rewrite Hsuffix. reflexivity.
  - cbn [escape_quotes]. destruct (Ascii.eqb c quote_char) eqn:Hc.
    + cbn [append scan_string_literal String.length]. rewrite Hc.
      rewrite IH. f_equal. f_equal; [| lia].
      rewrite append_assoc. reflexivity.
    + cbn [append scan_string_literal String.length]. rewrite Hc.
      rewrite IH. f_equal. f_equal; [| lia].
      rewrite append_assoc. reflexivity.
Qed.

(** Without a closing quote the scanner runs to the end of the line. *)
Lemma scan_string_literal_unterminated s col text :
  scan_string_literal (escape_quotes s) col text = None.
Proof.
  revert col text. induction s as [| c s IH]; intros col text; [reflexivity |].
  cbn [escape_quotes]. destruct (Ascii.eqb c quote_char) eqn:Hc;
    cbn [scan_string_literal]; rewrite Hc; apply IH.
Qed.

(** Reading a string literal is the inverse of writing one.  With the
    cursor on the opening quote of the literal of [s] (the characters of
    [s] between two quotes, each quote inside written twice), and what
    follows the literal not starting with a quote, [GetValue] returns the
    string [s] and leaves the cursor just after the closing quote.  When
    the closing quote is missing it throws MissingQuote with the cursor at
    the end of the line. *)
Theorem string_literal_round_trip E st prefix s suffix :
  m_column st = String.length prefix ->
  ParseNumeric E (m_line st) (m_column st) = None ->
  (m_line st
   = append prefix (String quote_char (append (escape_quotes s) (String quote_char suffix))) ->
   starts_with_quote suffix = false ->
   GetValue E st
   = Return (Str s)
       (set_column st (String.length prefix + String.length (escape_quotes s) + 2)))
  /\ (m_line st = append prefix (String quote_char (escape_quotes s)) ->
      GetValue E st = Throw MissingQuote (set_column st (String.length (m_line st)))).
Proof.
  intros Hcol Hnum.
  assert (Hshape : forall body,
            m_line st = append prefix (String quote_char body) ->
            GetValue E st
            = match scan_string_literal body (String.length prefix + 1) EmptyString with
              | Some (text, col') => Return (Str text) (set_column st col')
              | None => Throw MissingQuote (set_column st (String.length (m_line st)))
              end).
  { intros body Hline. unfold GetValue, bind, get_state. rewrite Hnum, Hcol, Hline.
    rewrite get_after.
    change (char_is "*" (Some quote_char)) with false.
    change (char_is apostrophe_char (Some quote_char)) with false.
    change (char_is quote_char (Some quote_char)) with true. cbv iota.
    replace (append prefix (String quote_char body))
      with (append (append prefix (String quote_char EmptyString)) body)
      by (rewrite append_assoc; reflexivity).
    replace (String.length prefix + 1)%nat
      with (String.length (append prefix (String quote_char EmptyString)))
      by (rewrite length_append; reflexivity).
    rewrite line_from_after.
    destruct (scan_string_literal body _ EmptyString) as [[text col'] |]; reflexivity. }
  split.
  - intros Hline Hsuffix. rewrite (Hshape _ Hline).
    rewrite scan_string_literal_escaped by exact Hsuffix.
    cbn [append]. do 2 f_equal. lia.
  - intros Hline. rewrite (Hshape _ Hline), scan_string_literal_unterminated. reflexivity.
Qed.

Lemma string_literal_round_trip_witness :
  GetValue (Sample.env false [])
    (set_column
       (Sample.parser
          (append "1+" (String quote_char
                          (append (escape_quotes (String "a" (String quote_char "b")))
                             (String quote_char ")")))))
       2)
  = Return (Str (String "a" (String quote_char "b")))
      (set_column
         (set_column
            (Sample.parser
               (append "1+" (String quote_char
                               (append (escape_quotes (String "a" (String quote_char "b")))
                                  (String quote_char ")")))))
            2)
         8).
Proof.
  exact (proj1 (string_literal_round_trip (Sample.env false [])
                  (set_column
                     (Sample.parser
                        (append "1+" (String quote_char
                           (append (escape_quotes (String "a" (String quote_char "b")))
                              (String quote_char ")")))))
                     2)
                  "1+" (String "a" (String quote_char "b")) ")" eq_refl eq_refl)
           eq_refl eq_refl).
Defined.

(** ** The operator tables *)

(** No token of a table is the beginning of a token further down. *)
Fixpoint unshadowed (table : list Operator) : bool :=
  match table with
  | [] => true
  | op :: rest =>
      forallb (fun later => negb (prefix (token op) (token later))) rest && unshadowed rest
  end.

Lemma prefix_refl (s : string) : prefix s s = true.
Proof.
  induction s as [| c s IH]; cbn [prefix]; [reflexivity |].
  destruct (ascii_dec c c) as [_ | Hne]; [exact IH | exfalso; apply Hne; reflexivity].
Qed.

Lemma prefix_length (a b : string) :
  prefix a b = true -> (String.length a <= String.length b)%nat.
Proof.
  revert b. induction a as [| c a IH]; intros b; [cbn; lia |].
  destruct b as [| d b]; cbn [prefix String.length]; [discriminate |].
  destruct (ascii_dec c d); [| discriminate].
  intros H. apply IH in H. lia.
Qed.

(** Two tokens that both match at the cursor: one begins the other. *)
Lemma two_matches t1 t2 line col :
  token_matches t1 line col = true -> token_matches t2 line col = true ->
  prefix t1 t2 = true \/ prefix t2 t1 = true.
Proof.
  revert t2 col. induction t1 as [| c t1 IH]; intros t2 col H1 H2.
  - left. destruct t2; reflexivity.
  - destruct t2 as [| d t2]; [right; reflexivity |].
    cbn [token_matches] in H1, H2.
    destruct (String.get col line) as [x |]; [| discriminate].
    destruct (Ascii.eqb c (ToUpper x)) eqn:Hc; [| discriminate].
    destruct (Ascii.eqb d (ToUpper x)) eqn:Hd; [| discriminate].
    apply Ascii.eqb_eq in Hc, Hd. subst c d.
    cbn [prefix]. destruct (ascii_dec (ToUpper x) (ToUpper x)) as [_ | Hne];
      [| exfalso; apply Hne; reflexivity].
    exact (IH t2 (S col) H1 H2).
Qed.

Lemma match_token_longest table line col op other :
  unshadowed table = true ->
  match_token table line col = Some op ->
  In other table ->
  token_matches (token other) line col = true ->
  prefix (token other) (token op) = true.
Proof.
  induction table as [| row rest IH]; cbn [unshadowed match_token In]; [discriminate |].
  intros Htable Hmatch Hin Hother.
  apply andb_prop in Htable as [Hrow Hrest].
  destruct (token_matches (token row) line col) eqn:Hr.
  - injection Hmatch as <-.
    destruct Hin as [<- | Hin]; [apply prefix_refl |].
    rewrite forallb_forall in Hrow. specialize (Hrow other Hin).
    destruct (two_matches _ _ _ _ Hr Hother) as [Hp | Hp]; [| exact Hp].
    rewrite Hp in Hrow. discriminate Hrow.
  - destruct Hin as [<- | Hin]; [rewrite Hother in Hr; discriminate Hr |].
    exact (IH Hrest Hmatch Hin Hother).
Qed.

Definition found_as_itself (table : list Operator) (row : Operator) : bool :=
  match match_token table (token row) 0 with
  | Some op => String.eqb (token op) (token row)
  | None => false
  end.

(** In both tables the longest token at the cursor wins: whenever the
    table loop picks a row, every other row whose token also matches there
    has a token that begins the chosen one ([<=] is never read as [<], nor
    [==] as [=], nor [STR$~(] as [STR$(]).  And no row is out of reach:
    each token, alone on a line, is found as itself. *)
Theorem longest_token_wins table line col op other :
  table = m_gaUnaryOperatorTable \/ table = m_gaBinaryOperatorTable ->
  match_token table line col = Some op ->
  In other table ->
  token_matches (token other) line col = true ->
  prefix (token other) (token op) = true
  /\ (m_tokenLength other <= m_tokenLength op)%nat
  /\ forallb (found_as_itself table) table = true.
Proof.
  intros Htable Hmatch Hin Hother.
  assert (Hok : unshadowed table = true /\ forallb (found_as_itself table) table = true).
  { destruct Htable as [-> | ->]; split; vm_compute; reflexivity. }
  destruct Hok as [Hunshadowed Hfound].
  pose proof (match_token_longest table line col op other Hunshadowed Hmatch Hin Hother) as Hp.
  split; [exact Hp |]. split; [apply prefix_length; exact Hp | exact Hfound].
Qed.

Lemma longest_token_wins_witness :
  prefix "<" "<=" = true /\ (1 <= 2)%nat
  /\ forallb (found_as_itself m_gaBinaryOperatorTable) m_gaBinaryOperatorTable = true.
Proof.
  apply (longest_token_wins m_gaBinaryOperatorTable "1<=2" 1
           (mkOperator "<=" 4 0 (Some Ptr.EvalLessThanOrEqual))
           (mkOperator "<" 4 0 (Some Ptr.EvalLessThan))).
  - right. reflexivity.
  - reflexivity.
  - vm_compute. tauto.
  - reflexivity.
Defined.

(** ** errno *)

(** The handlers that look at [errno] after a call of the C library, with
    the function they call and the codes they look for. *)
Definition errno_checks : list (OperatorHandler * (Env -> double -> double * option Z) * list Z) :=
  [ (Ptr.EvalArcSin, c_asin, [EDOM]);
    (Ptr.EvalArcCos, c_acos, [EDOM]);
    (Ptr.EvalArcTan, c_atan, [EDOM]);
    (Ptr.EvalSqrt, c_sqrt, [EDOM]);
    (Ptr.EvalLog, c_log10, [EDOM; ERANGE]);
    (Ptr.EvalLn, c_log, [EDOM; ERANGE]);
    (Ptr.EvalExp, c_exp, [ERANGE]) ].

(** The functions whose handlers never look at [errno]. *)
Definition errno_ignored : list (OperatorHandler * (Env -> double -> double * option Z)) :=
  [ (Ptr.EvalSin, c_sin); (Ptr.EvalCos, c_cos); (Ptr.EvalTan, c_tan) ].

(** A handler of the shape "store the library's result, then test errno". *)
Lemma checked_call_stale (f : double -> double * option Z) codes d st rest :
  snd (f d) = None -> In (errno st) codes ->
  (x <- StackTopNumber ;; r <- call_math (f x) ;; SetTop (Number r) ;;;
   throw_if_errno codes IllegalOperation) (set_values st (Number d :: rest))
  = Throw IllegalOperation (set_values st (Number (fst (f d)) :: rest)).
Proof.
  intros Hquiet Hcode.
  assert (Hstale : existsb (Z.eqb (errno st)) codes = true).
  { apply existsb_exists. exists (errno st). split; [exact Hcode | apply Z.eqb_refl]. }
  destruct st as [line col vs ops e r]. cbn [errno] in Hstale.
  destruct (f d) as [v o] eqn:Hf. cbn [fst snd] in *. subst o.
  unfold_engine. rewrite Hf. unfold_engine. rewrite Hstale. reflexivity.
Qed.

Lemma unchecked_call_loud (f : double -> double * option Z) d code st rest :
  snd (f d) = Some code ->
  (x <- StackTopNumber ;; r <- call_math (f x) ;; SetTop (Number r))
    (set_values st (Number d :: rest))
  = Return tt (set_errno (set_values st (Number (fst (f d)) :: rest)) code).
Proof.
  intros Hloud. destruct st as [line col vs ops e r].
  destruct (f d) as [v o] eqn:Hf. cbn [fst snd] in *. subst o.
  unfold_engine. rewrite Hf. reflexivity.
Qed.

Lemma EvalPower_numbers E nested st a b rest :
  snd (c_pow E a b) = None ->
  call_handler E nested Ptr.EvalPower (set_values st (Number b :: Number a :: rest))
  = if errno st =? ERANGE
    then Throw NumberTooBig (set_values st (Number (fst (c_pow E a b)) :: rest))
    else if errno st =? EDOM
         then Throw IllegalOperation (set_values st (Number (fst (c_pow E a b)) :: rest))
         else Return tt (set_values st (Number (fst (c_pow E a b)) :: rest)).
Proof.
  intros Hquiet. destruct st as [line col vs ops e r].
  destruct (c_pow E a b) as [v o] eqn:Hf. cbn [fst snd] in *. subst o.
  unfold_engine. rewrite Hf. unfold_engine.
  destruct (e =? ERANGE); [reflexivity |]. destruct (e =? EDOM); reflexivity.
Qed.

Lemma EvalVal_string E nested st s rest :
  call_handler E nested Ptr.EvalVal (set_values st (Str s :: rest))
  = match snd (c_strtod E s) with
    | Some code => Return tt (set_errno (set_values st (Number (fst (c_strtod E s)) :: rest)) code)
    | None => Return tt (set_values st (Number (fst (c_strtod E s)) :: rest))
    end.
Proof.
  destruct st as [line col vs ops e r].
  destruct (c_strtod E s) as [v o] eqn:Hf. cbn [fst snd].
  unfold_engine. rewrite Hf. destruct o; reflexivity.
Qed.

(** Nothing in the file clears [errno], and the handlers that test it do
    so after storing their result.  So a handler that finds in [errno] a
    code left by an earlier call throws although its own library call
    reported no error: ASN, ACS, ATN, SQR, LOG, LN and EXP throw
    IllegalOperation, [^] throws NumberTooBig on a stale ERANGE and
    IllegalOperation on a stale EDOM, each with its result already on the
    stack.  Such a code can be left without any exception, for VAL, SIN,
    COS and TAN return whatever the library reports; VAL on a text for
    which [strtod] reports ERANGE followed by a [^] whose [pow] reports
    nothing throws NumberTooBig. *)
Theorem errno_is_never_cleared E nested st rest :
  let stack vs := set_values st (vs ++ rest) in
  (forall h f codes d,
      In (h, f, codes) errno_checks ->
      snd (f E d) = None -> In (errno st) codes ->
      call_handler E nested h (stack [Number d])
      = Throw IllegalOperation (stack [Number (fst (f E d))]))
  /\ (forall a b,
        snd (c_pow E a b) = None ->
        (errno st = ERANGE ->
         call_handler E nested Ptr.EvalPower (stack [Number b; Number a])
         = Throw NumberTooBig (stack [Number (fst (c_pow E a b))]))
        /\ (errno st = EDOM ->
            call_handler E nested Ptr.EvalPower (stack [Number b; Number a])
            = Throw IllegalOperation (stack [Number (fst (c_pow E a b))])))
  /\ (forall h f d code,
        In (h, f) errno_ignored ->
        snd (f E d) = Some code ->
        call_handler E nested h (stack [Number d])
        = Return tt (set_errno (stack [Number (fst (f E d))]) code))
  /\ (forall s code,
        snd (c_strtod E s) = Some code ->
        call_handler E nested Ptr.EvalVal (stack [Str s])
        = Return tt (set_errno (stack [Number (fst (c_strtod E s))]) code))
  /\ (forall s a b,
        snd (c_strtod E s) = Some ERANGE -> snd (c_pow E a b) = None ->
        (call_handler E nested Ptr.EvalVal ;;;
         (vs <- get_values ;; put_values (Number b :: Number a :: vs)) ;;;
         call_handler E nested Ptr.EvalPower) (stack [Str s])
        = Throw NumberTooBig
            (set_errno
               (stack [Number (fst (c_pow E a b)); Number (fst (c_strtod E s))]) ERANGE)).
Proof.
  intros stack. unfold stack. cbn [app].
  split; [| split; [| split; [| split]]].
  - intros h f codes d Hin Hquiet Hcode. cbn [In errno_checks] in Hin.
    repeat (destruct Hin as [Hin | Hin];
            [ injection Hin as Hh Hf Hc; subst h f codes;
              exact (checked_call_stale _ _ d st rest Hquiet Hcode) | ]).
    contradiction.
  - intros a b Hquiet. rewrite (EvalPower_numbers E nested st a b rest Hquiet).
    split; intros ->; reflexivity.
  - intros h f d code Hin Hloud. cbn [In errno_ignored] in Hin.
    repeat (destruct Hin as [Hin | Hin];
            [ injection Hin as Hh Hf; subst h f;
              exact (unchecked_call_loud _ d code st rest Hloud) | ]).
    contradiction.
  - intros s code Hloud. rewrite EvalVal_string, Hloud. reflexivity.
  - intros s a b Hloud Hquiet.
    unfold bind at 1. rewrite EvalVal_string, Hloud.
    unfold bind at 1. unfold bind at 1, get_values, put_values.
    change (set_values
              (set_errno (set_values st (Number (fst (c_strtod E s)) :: rest)) ERANGE)
              (Number b :: Number a
               :: m_valueStack
                    (set_errno (set_values st (Number (fst (c_strtod E s)) :: rest)) ERANGE)))
      with (set_values (set_errno st ERANGE)
              (Number b :: Number a :: Number (fst (c_strtod E s)) :: rest)).
    rewrite (EvalPower_numbers E nested (set_errno st ERANGE) a b _ Hquiet).
    reflexivity.
Qed.

(** ** The typed entry points *)

Lemma to_unsigned_to_signed n : to_unsigned (to_signed n) = n mod 2 ^ 32.
Proof.
  unfold to_unsigned, to_signed.
  change (2 ^ 32) with 4294967296. change (2 ^ 31) with 2147483648.
  destruct (Z.ltb_spec (n mod 4294967296) 2147483648); Z.div_mod_to_equations; lia.
Qed.

(** The four typed entry points run [EvaluateExpression] and pass on
    whatever it throws.  On a number the string entry point throws
    TypeMismatch, and on a string the three numeric ones do.  A number
    that is an integer [n] of [INT_MIN, UINT_MAX] comes back from
    [EvaluateExpressionAsInt] as its 32-bit two's complement reading and
    from [EvaluateExpressionAsUnsignedInt] as [n mod 2^32]: as [n] itself
    from 0 up, as [n + 2^32] below.  Whatever the unsigned entry point
    returns lies in [0, 2^32). *)
Theorem typed_entry_points E fuel allow st :
  let as_double := EvaluateExpressionAsDouble E fuel allow st in
  let as_int := EvaluateExpressionAsInt E fuel allow st in
  let as_unsigned := EvaluateExpressionAsUnsignedInt E fuel allow st in
  let as_string := EvaluateExpressionAsString E fuel allow st in
  match EvaluateExpression E fuel allow st with
  | Return (Number d) st' =>
      as_double = Return d st'
      /\ as_string = Throw TypeMismatch st'
      /\ as_int = ConvertDoubleToInt d st'
      /\ (forall n, INT_MIN <= n <= UINT_MAX -> d = Double.of_Z n ->
          as_int = Return (to_signed n) st'
          /\ as_unsigned = Return (n mod 2 ^ 32) st'
          /\ (0 <= n -> n mod 2 ^ 32 = n) /\ (n < 0 -> n mod 2 ^ 32 = n + 2 ^ 32))
  | Return (Str s) st' =>
      as_string = Return s st'
      /\ as_double = Throw TypeMismatch st'
      /\ as_int = Throw TypeMismatch st'
      /\ as_unsigned = Throw TypeMismatch st'
  | Throw e st' =>
      as_double = Throw e st' /\ as_int = Throw e st'
      /\ as_unsigned = Throw e st' /\ as_string = Throw e st'
  | _ => True
  end
  /\ (forall u st', as_unsigned = Return u st' ->
      0 <= u < 2 ^ 32
      /\ exists n, as_int = Return n st' /\ is_int n /\ u = n mod 2 ^ 32).
Proof.
  intros as_double as_int as_unsigned as_string.
  subst as_double as_int as_unsigned as_string.
  unfold EvaluateExpressionAsUnsignedInt, EvaluateExpressionAsInt,
    EvaluateExpressionAsDouble, EvaluateExpressionAsString, bind.
  split.
  - destruct (EvaluateExpression E fuel allow st) as [[d | s] st' | e st' | | |];
      try exact I; unfold ret, throw.
    + split; [reflexivity |]. split; [reflexivity |]. split; [reflexivity |].
      intros n Hn ->. rewrite (of_Z_coercible n Hn st').
      split; [reflexivity |]. split; [rewrite to_unsigned_to_signed; reflexivity |].
      unfold INT_MIN, UINT_MAX in Hn. change (2 ^ 32) with 4294967296.
      split; intros Hs; Z.div_mod_to_equations; lia.
    + repeat split.
    + repeat split.
  - intros u st' Hret.
    destruct (EvaluateExpression E fuel allow st) as [[d | s] st1 | e st1 | | |];
      try discriminate Hret.
    unfold ret in Hret.
    destruct (ConvertDoubleToInt d st1) as [n st2 | | | |] eqn:Hconv; try discriminate Hret.
    injection Hret as <- <-.
    pose proof (ConvertDoubleToInt_returns _ _ _ _ Hconv) as (_ & Hint & _).
    split; [unfold to_unsigned; apply Z.mod_pos_bound; lia |].
    exists n. split; [exact Hconv |]. split; [exact Hint | reflexivity].
Qed.

(** ** The bounds of the two stacks *)

(** Both stacks fit the arrays [m_valueStack[ MAX_VALUES ]] and
    [m_operatorStack[ MAX_OPERATORS ]]. *)
Definition within_bounds (E : Env) (st : State) : Prop :=
  (List.length (m_valueStack st) <= MAX_VALUES E)%nat
  /\ (List.length (m_operatorStack st) <= MAX_OPERATORS E)%nat.

Lemma owed_app pre ops : owed (pre ++ ops) = owed pre + owed ops.
Proof. induction pre as [| op pre IH]; cbn [app owed]; [reflexivity | rewrite IH; lia]. Qed.

Lemma owed_handlers pre : Forall has_handler pre -> 0 <= owed pre.
Proof.
  induction 1 as [| op pre Hop _ IH]; cbn [owed]; [lia |].
  unfold op_owed. unfold has_handler in Hop. destruct (handler op); [lia | contradiction].
Qed.

Section Bounds.

Variable E : Env.
Variable run : M Value.
Hypothesis Hrun : never_asserts run.
Variable allow : bool.

Let call := call_handler E (on_parser run).

(** Executing stacked operators only shrinks the stacks. *)
Lemma unwind_while_shrinks cond st st' :
  brackets_marked (m_operatorStack st) ->
  (forall op, cond op = true -> precedence op <> -1) ->
  unwind_while call cond (m_operatorStack st) st = Return tt st' ->
  (List.length (m_valueStack st') <= List.length (m_valueStack st))%nat
  /\ (List.length (m_operatorStack st') <= List.length (m_operatorStack st))%nat.
Proof.
  intros Hmarked Hcond Hret.
  pose proof (unwind_while_effect E run Hrun cond (m_operatorStack st) st eq_refl Hmarked Hcond)
    as H.
  fold call in H. rewrite Hret in H.
  destruct H as (_ & _ & Hbal & _ & pre & Hpre & Hhandlers).
  pose proof (owed_handlers pre Hhandlers) as Hnonneg.
  unfold balance, balance_of in Hbal. rewrite Hpre, owed_app in Hbal.
  split; [lia |]. rewrite Hpre, length_app. lia.
Qed.

Lemma unwind_to_bracket_shrinks st found st' :
  unwind_to_bracket call (m_operatorStack st) st = Return found st' ->
  (List.length (m_valueStack st') <= List.length (m_valueStack st))%nat
  /\ (List.length (m_operatorStack st')
      + match found with Some _ => 1 | None => 0 end
      <= List.length (m_operatorStack st))%nat.
Proof.
  intros Hret.
  pose proof (unwind_to_bracket_effect E run Hrun (m_operatorStack st) st eq_refl) as H.
  fold call in H. rewrite Hret in H. destruct H as (_ & _ & H).
  destruct found as [bracket |].
  - destruct H as (_ & Hbal & pre & Hpre & Hhandlers).
    pose proof (owed_handlers pre Hhandlers) as Hnonneg.
    unfold balance, balance_of in Hbal. rewrite Hpre, owed_app in Hbal. cbn [owed] in Hbal.
    split; [lia |]. rewrite Hpre, length_app. cbn [List.length]. lia.
  - destruct H as (Hempty & Hbal & Hhandlers).
    pose proof (owed_handlers _ Hhandlers) as Hnonneg.
    unfold balance, balance_of in Hbal.
    split; [lia |]. rewrite Hempty. cbn [List.length]. lia.
Qed.

Lemma push_operator_bounded op st st' :
  (List.length (m_operatorStack st) <= MAX_OPERATORS E)%nat ->
  push_operator E op st = Return tt st' ->
  m_valueStack st' = m_valueStack st
  /\ (List.length (m_operatorStack st') <= MAX_OPERATORS E)%nat.
Proof.
  unfold push_operator, bind, get_operators, put_operators. intros Hlen.
  destruct (Nat.eqb_spec (List.length (m_operatorStack st)) (MAX_OPERATORS E)) as [| Hne];
    [discriminate |].
  intros [= <-]. cbn [set_operators m_valueStack m_operatorStack List.length].
  split; [reflexivity | lia].
Qed.

Lemma operator_step_bounded cond thisOp l' st l'' st' :
  brackets_marked (m_operatorStack st) ->
  (forall op, cond op = true -> precedence op <> -1) ->
  within_bounds E st ->
  (unwind_while call cond (m_operatorStack st) ;;;
   push_operator E thisOp ;;;
   ret (Continue l')) st = Return (Continue l'') st' ->
  within_bounds E st'.
Proof.
  intros Hmarked Hcond [Hv Ho]. unfold bind at 1.
  destruct (unwind_while call cond (m_operatorStack st) st) as [[] st1 | | | |] eqn:Hunwind;
    try discriminate.
  destruct (unwind_while_shrinks cond st st1 Hmarked Hcond Hunwind) as [Hv1 Ho1].
  unfold bind at 1.
  destruct (push_operator E thisOp st1) as [[] st2 | | | |] eqn:Hpush; try discriminate.
  destruct (push_operator_bounded thisOp st1 st2 ltac:(lia) Hpush) as [Hv2 Ho2].
  unfold ret. intros [= _ <-]. split; [rewrite Hv2; lia | exact Ho2].
Qed.

Lemma value_or_unary_bounded l st l' st' :
  brackets_marked (m_operatorStack st) ->
  within_bounds E st ->
  value_or_unary E call allow l st = Return (Continue l') st' ->
  within_bounds E st'.
Proof.
  intros Hmarked Hb. unfold value_or_unary. unfold bind at 1, get_state.
  destruct (match_token m_gaUnaryOperatorTable (m_line st) (m_column st)) as [matched |] eqn:Hm.
  - pose proof (unary_match_ok _ _ _ Hm) as Hrow. unfold unary_row_ok in Hrow.
    unfold bind at 1, put_column. unfold bind at 1.
    match goal with
    | |- context [(if ?c then assertion_failed else ret tt) ?s] =>
        destruct c; [discriminate |]; unfold ret at 1
    end.
    destruct (handler matched) as [h |] eqn:Hh.
    + unfold bind at 1, get_operators.
      apply andb_prop in Hrow as [Hprec _]. apply Z.leb_le in Hprec.
      match goal with
      | |- context [set_column st ?c] =>
          apply (operator_step_bounded _ matched _ (set_column st c))
      end; try assumption.
      intros op Hlt. apply Z.ltb_lt in Hlt. lia.
    + unfold bind at 1.
      match goal with
      | |- context [push_operator E ?op ?s] =>
          destruct (push_operator E op s) as [[] st2 | | | |] eqn:Hpush; try discriminate;
          destruct (push_operator_bounded op s st2 (proj2 Hb) Hpush) as [Hv2 Ho2]
      end.
      unfold ret. intros [= _ <-]. split; [rewrite Hv2; exact (proj1 Hb) | exact Ho2].
  - destruct (Nat.eqb_spec (List.length (m_valueStack st)) (MAX_VALUES E)) as [| Hne];
      [discriminate |].
    unfold bind at 1.
    pose proof (GetValue_guarded_effect E allow l st) as Hget.
    destruct (GetValue_guarded E allow l st) as [value st1 | | | |]; try discriminate.
    destruct Hget as (_ & Hv1 & Ho1).
    unfold bind, get_values, put_values, ret. intros [= _ <-].
    destruct Hb as [Hv Ho].
    split; cbn [set_values m_valueStack m_operatorStack List.length].
    + rewrite Hv1. lia.
    + rewrite Ho1. exact Ho.
Qed.

Lemma binary_bounded l st l' st' :
  brackets_marked (m_operatorStack st) ->
  within_bounds E st ->
  binary E call allow l st = Return (Continue l') st' ->
  within_bounds E st'.
Proof.
  intros Hmarked Hb. unfold binary. unfold bind at 1, get_state.
  destruct (match_token m_gaBinaryOperatorTable (m_line st) (m_column st)) as [thisOp |] eqn:Hm;
    [| discriminate].
  pose proof (binary_match_ok _ _ _ Hm) as Hrow. unfold binary_row_ok in Hrow.
  unfold bind at 1, put_column.
  destruct (handler thisOp) as [h |] eqn:Hh.
  - unfold bind at 1, get_operators.
    apply andb_prop in Hrow as [Hprec _]. apply Z.leb_le in Hprec.
    apply (operator_step_bounded _ thisOp _ (set_column st (m_column st + m_tokenLength thisOp)));
      try assumption.
    intros op Hle. apply Z.leb_le in Hle. lia.
  - unfold bind at 1, get_operators. unfold bind at 1.
    set (st1 := set_column st (m_column st + m_tokenLength thisOp)).
    destruct (unwind_to_bracket call (m_operatorStack st1) st1) as [found st2 | | | |] eqn:Hunwind;
      try discriminate.
    destruct (unwind_to_bracket_shrinks st1 found st2 Hunwind) as [Hv2 Ho2].
    destruct Hb as [Hv Ho].
    change (m_valueStack st1) with (m_valueStack st) in Hv2.
    change (m_operatorStack st1) with (m_operatorStack st) in Ho2.
    destruct found as [bracket |].
    + destruct (String.eqb (token thisOp) ",").
      * destruct (parameterCount bracket =? 0); [discriminate |].
        unfold bind, get_operators, put_operators, ret. intros [= _ <-].
        split; cbn [set_operators m_valueStack m_operatorStack List.length]; lia.
      * destruct (negb (parameterCount bracket =? 0)); [discriminate |].
        unfold ret. intros [= _ <-]. split; lia.
    + destruct allow; [| discriminate].
      unfold bind, get_state, put_column, ret. discriminate.
Qed.

End Bounds.

Lemma LoopHead_Inv E allow l st : LoopHead E allow l st -> Inv l st.
Proof.
  induction 1 as [st | fuel l st l' st' Hhead HInv Hmore Hbody].
  - unfold Inv, initial_locals, balance, balance_of. cbn.
    split; [lia |]. split; [constructor | lia].
  - pose proof (loop_body_ok E _ (nested_never_asserts E fuel) allow l
                  (set_column st
                     (snd (AdvanceAndCheckEndOfSubStatement E (bracketCount l =? 0)
                             (m_line st) (m_column st))))
                  HInv) as Hstep.
    rewrite Hbody in Hstep. exact Hstep.
Qed.

(** At every head of the main loop during a call of [EvaluateExpression]
    the value stack holds at most MAX_VALUES values and the operator stack
    at most MAX_OPERATORS operators: the engine never writes past the end
    of its two arrays, whatever the line (a push onto a full stack throws
    ExpressionTooComplex instead, and the handlers only shrink the value
    stack). *)
Theorem stacks_stay_within_bounds E allow l st :
  LoopHead E allow l st -> within_bounds E st.
Proof.
  induction 1 as [st | fuel l st l' st' Hhead Hb Hmore Hbody].
  - split; cbn; lia.
  - pose proof (LoopHead_Inv E allow l st Hhead) as (_ & Hmarked & _).
    pose proof (nested_never_asserts E fuel) as Hrun.
    set (st1 := set_column st
                  (snd (AdvanceAndCheckEndOfSubStatement E (bracketCount l =? 0)
                          (m_line st) (m_column st)))) in *.
    assert (Hb1 : within_bounds E st1) by exact Hb.
    assert (Hmarked1 : brackets_marked (m_operatorStack st1)) by exact Hmarked.
    unfold loop_body in Hbody. destruct (expected l).
    + exact (value_or_unary_bounded E _ Hrun allow l st1 l' st' Hmarked1 Hb1 Hbody).
    + exact (binary_bounded E _ Hrun allow l st1 l' st' Hmarked1 Hb1 Hbody).
Qed.

Lemma stacks_stay_within_bounds_witness :
  within_bounds (Sample.env false [])
    (mkState plain_brackets_line 2 [Number (Double.of_Z 1)] [open_paren] 0 1).
Proof.
  apply (stacks_stay_within_bounds (Sample.env false []) false (mkLocals 1 0 BINARY)
           (mkState plain_brackets_line 2 [Number (Double.of_Z 1)] [open_paren] 0 1)).
  refine (LoopHead_next (Sample.env false []) false 0 (mkLocals 1 0 VALUE_OR_UNARY)
            (mkState plain_brackets_line 1 [] [open_paren] 0 1)
            (mkLocals 1 0 BINARY)
            (mkState plain_brackets_line 2 [Number (Double.of_Z 1)] [open_paren] 0 1)
            _ eq_refl eq_refl).
  exact (LoopHead_next (Sample.env false []) false 0 initial_locals
           (mkState plain_brackets_line 0 [] [] 0 1)
           (mkLocals 1 0 VALUE_OR_UNARY)
           (mkState plain_brackets_line 1 [] [open_paren] 0 1)
           (LoopHead_start (Sample.env false []) false
              (mkState plain_brackets_line 0 [] [] 0 1))
           eq_refl eq_refl).
Defined.

(** ** A sign after a byte operator *)

Definition negate_row : Operator := mkOperator "-" 8 0 (Some Ptr.EvalNegate).
Definition posate_row : Operator := mkOperator "+" 8 0 (Some Ptr.EvalPosate).
Definition hi_row : Operator := mkOperator ">" 10 0 (Some Ptr.EvalHi).
Definition lo_row : Operator := mkOperator "<" 10 0 (Some Ptr.EvalLo).

Lemma match_sign line col sign :
  In sign [negate_row; posate_row] ->
  token_matches (token sign) line col = true ->
  match_token m_gaUnaryOperatorTable line col = Some sign.
Proof.
  intros Hsign Hmatch.
  assert (Hget : exists x, String.get col line = Some x
                           /\ ToUpper x = match token sign with
                                          | String c _ => c
                                          | EmptyString => x
                                          end).
  { destruct Hsign as [<- | [<- | []]]; cbn [token negate_row posate_row token_matches] in *;
      destruct (String.get col line) as [x |]; try discriminate;
      exists x; split; try reflexivity;
      match type of Hmatch with
      | (if Ascii.eqb ?c ?u then _ else _) = true =>
          destruct (Ascii.eqb c u) eqn:Hc; [| discriminate];
          apply Ascii.eqb_eq in Hc; symmetry; exact Hc
      end. }
  destruct Hget as (x & Hx & Hup).
  unfold m_gaUnaryOperatorTable.
  destruct Hsign as [<- | [<- | []]]; cbn [token negate_row posate_row] in Hup;
    cbn [match_token token token_matches]; rewrite Hx, Hup; reflexivity.
Qed.

(** The byte of [n] a byte operator extracts. *)
Definition byte_of (top : Operator) (n : Z) : Z :=
  match handler top with
  | Some Ptr.EvalHi => Z.shiftr (Z.land n 65535) 8
  | _ => Z.land n 255
  end.

(** A prefix operator pops the stacked operators of strictly greater
    precedence and executes them at once.  The prefix [>] and [<] (high
    and low byte) have precedence 10 and the signs [-] and [+] precedence
    8, so a sign that directly follows [>] or [<] executes the byte
    operator before its operand has been read.  With no value on the stack
    the iteration throws MissingValue; with a value there (the left
    operand of an enclosing infix operator) the byte is taken of that
    value.  So [>-1] throws MissingValue, and [1+>-1] is -1, where
    [1+>(-1)] is 256. *)
Theorem sign_after_byte_operator E nested allow l st sign top below :
  In sign [negate_row; posate_row] ->
  In top [hi_row; lo_row] ->
  token_matches (token sign) (m_line st) (m_column st) = true ->
  m_operatorStack st = top :: below ->
  let after := set_operators (set_column st (m_column st + 1)) below in
  (m_valueStack st = [] ->
   value_or_unary E (call_handler E nested) allow l st = Throw MissingValue after)
  /\ (forall d n rest,
        m_valueStack st = Number d :: rest ->
        IntCoercible d n ->
        match below with
        | [] => True
        | next :: _ => precedence next <= 8
        end ->
        (List.length below < MAX_OPERATORS E)%nat ->
        value_or_unary E (call_handler E nested) allow l st
        = Return (Continue (mkLocals (bracketCount l) (pendingCommaCount l) (expected l)))
            (set_operators
               (set_values after (Number (Double.of_Z (byte_of top n)) :: rest))
               (sign :: below)))
  /\ (exists st', EvaluateExpression (Sample.env false []) 20 false (Sample.parser ">-1")
                  = Throw MissingValue st')
  /\ (exists st', EvaluateExpression (Sample.env false []) 20 false (Sample.parser "1+>-1")
                  = Return (Number (Double.of_Z (-1))) st')
  /\ (exists st', EvaluateExpression (Sample.env false []) 20 false (Sample.parser "1+>(-1)")
                  = Return (Number (Double.of_Z 256)) st').
Proof.
  intros Hsign Htop Hmatch Hops after.
  pose proof (match_sign _ _ _ Hsign Hmatch) as Hrow.
  assert (Hshape : value_or_unary E (call_handler E nested) allow l st
                   = ((put_operators below ;;;
                       match handler top with
                       | Some h => call_handler E nested h
                       | None => assertion_failed
                       end ;;;
                       unwind_while (call_handler E nested)
                         (fun t => precedence sign <? precedence t) below) ;;;
                      push_operator E sign ;;;
                      ret (Continue (mkLocals (bracketCount l) (pendingCommaCount l)
                                       (expected l))))
                       (set_column st (m_column st + 1))).
  { unfold value_or_unary. unfold bind at 1, get_state. rewrite Hrow.
    destruct Hsign as [<- | [<- | []]]; destruct Htop as [<- | [<- | []]];
      cbn [ends_with_open_bracket m_tokenLength token negate_row posate_row handler
             String.length Nat.ltb Nat.leb andb];
      unfold bind at 1, put_column; unfold bind at 1, ret at 1;
      unfold bind at 1, get_operators; cbn [set_column m_operatorStack];
      rewrite Hops; cbn [unwind_while precedence hi_row lo_row negate_row posate_row handler];
      change (8 <? 10) with true; cbv iota; reflexivity. }
  split; [| split].
  - intros Hvs. rewrite Hshape.
    unfold bind at 1. unfold bind at 1, put_operators. fold after. unfold bind at 1.
    destruct Htop as [<- | [<- | []]]; cbn [handler hi_row lo_row];
      rewrite (call_handler_needs_operands E nested _ after)
        by (unfold after; cbn [set_operators set_column m_valueStack]; rewrite Hvs; cbn; lia);
      reflexivity.
  - intros d n rest Hvs Hd Hnext Hroom. rewrite Hshape.
    unfold bind at 1. unfold bind at 1, put_operators. fold after. unfold bind at 1.
    assert (Hafter : after = set_values after (Number d :: rest)).
    { unfold after, set_operators, set_column, set_values. cbn. rewrite Hvs. reflexivity. }
    assert (Hbyte : match handler top with
                    | Some h => call_handler E nested h
                    | None => assertion_failed
                    end after
                    = Return tt (set_values after (Number (Double.of_Z (byte_of top n)) :: rest))).
    { rewrite Hafter at 1.
      destruct Htop as [<- | [<- | []]]; cbn [handler hi_row lo_row call_handler byte_of];
        unfold EvalHi, EvalLo, bind;
        rewrite (StackTopInt_coercible after d n rest Hd); reflexivity. }
    rewrite Hbyte.
    assert (Hstop : forall s,
              unwind_while (call_handler E nested)
                (fun t => precedence sign <? precedence t) below s = Return tt s).
    { intros s. destruct below as [| next below']; [reflexivity |].
      cbn [unwind_while].
      assert (Hprec : precedence sign = 8) by (destruct Hsign as [<- | [<- | []]]; reflexivity).
      rewrite Hprec. destruct (Z.ltb_spec 8 (precedence next)); [lia | reflexivity]. }
    rewrite Hstop. unfold push_operator. unfold bind at 1. unfold bind at 1, get_operators.
    cbn [set_values m_operatorStack]. unfold after at 1. cbn [set_operators m_operatorStack].
    destruct (Nat.eqb_spec (List.length below) (MAX_OPERATORS E)) as [Hfull | _]; [lia |].
    reflexivity.
  - split; [| split]; eexists; vm_compute; reflexivity.
Qed.

Lemma sign_after_byte_operator_witness :
  value_or_unary (Sample.env false []) (call_handler (Sample.env false []) (fun _ => throw IllegalOperation))
    false (mkLocals 0 0 VALUE_OR_UNARY) (mkState ">-1" 1 [] [hi_row] 0 1)
  = Throw MissingValue
      (set_operators (set_column (mkState ">-1" 1 [] [hi_row] 0 1) (1 + 1)) []).
Proof.
  refine (proj1 (sign_after_byte_operator (Sample.env false []) (fun _ => throw IllegalOperation)
                   false (mkLocals 0 0 VALUE_OR_UNARY) (mkState ">-1" 1 [] [hi_row] 0 1)
                   negate_row hi_row [] _ _ eq_refl eq_refl) eq_refl).
  - left. reflexivity.
  - left. reflexivity.
Defined.

(** ** A close bracket with no open bracket *)






(** ** STR$~ *)

Lemma digit_of_hex_digit d :
  0 <= d < 16 -> Sample.digit_value (hex_digit d) = Some d.
Proof.
  intros Hd.
  assert (Hcases : d = 0 \/ d = 1 \/ d = 2 \/ d = 3 \/ d = 4 \/ d = 5 \/ d = 6 \/ d = 7
                   \/ d = 8 \/ d = 9 \/ d = 10 \/ d = 11 \/ d = 12 \/ d = 13 \/ d = 14
                   \/ d = 15) by lia.
  repeat (destruct Hcases as [-> | Hcases]; [reflexivity |]). subst d. reflexivity.
Qed.

(** Reading back what [hex_digits] wrote in front of [acc]. *)
Lemma read_hex_digits fuel n acc :
  0 <= n < 16 ^ Z.of_nat (S fuel) ->
  exists k,
    (1 <= k <= S fuel)%nat
    /\ String.length (hex_digits (S fuel) n acc) = (k + String.length acc)%nat
    /\ forall a c,
         Sample.read_digits 16 (hex_digits (S fuel) n acc) a c
         = Sample.read_digits 16 acc (a * 16 ^ Z.of_nat k + n) (c + k).
Proof.
  revert n acc. induction fuel as [| fuel IH]; intros n acc Hn;
    assert (Hmod : 0 <= n mod 16 < 16) by (apply Z.mod_pos_bound; lia);
    assert (Hstep : forall rest a c,
              Sample.read_digits 16 (String (hex_digit (n mod 16)) rest) a c
              = Sample.read_digits 16 rest (a * 16 + n mod 16) (S c))
      by (intros rest a c; cbn [Sample.read_digits];
          rewrite digit_of_hex_digit by exact Hmod;
          destruct (Z.ltb_spec (n mod 16) 16); [reflexivity | lia]);
    pose proof (Z.div_mod n 16 ltac:(lia)) as Hdm;
    assert (Hsmall : n / 16 = 0 ->
              exists k,
                (1 <= k <= 1)%nat
                /\ String.length (String (hex_digit (n mod 16)) acc) = (k + String.length acc)%nat
                /\ forall a c,
                     Sample.read_digits 16 (String (hex_digit (n mod 16)) acc) a c
                     = Sample.read_digits 16 acc (a * 16 ^ Z.of_nat k + n) (c + k))
      by (intros Hz; exists 1%nat; split; [lia |]; split; [reflexivity |];
          intros a c; rewrite Hstep; f_equal; [| lia];
          change (16 ^ Z.of_nat 1) with 16; lia).
  - cbn [hex_digits].
    assert (Hz : n / 16 = 0).
    { change (16 ^ Z.of_nat 1) with 16 in Hn. apply Z.div_small. lia. }
    rewrite Hz. cbn [Z.eqb]. destruct (Hsmall Hz) as (k & Hk & Hrest). exists k.
    split; [lia | exact Hrest].
  - change (hex_digits (S (S fuel)) n acc)
      with (if n / 16 =? 0 then String (hex_digit (n mod 16)) acc
            else hex_digits (S fuel) (n / 16) (String (hex_digit (n mod 16)) acc)).
    destruct (Z.eqb_spec (n / 16) 0) as [Hz | Hbig].
    + destruct (Hsmall Hz) as (k & Hk & Hrest). exists k. split; [lia | exact Hrest].
    + assert (Hdiv : 0 <= n / 16 < 16 ^ Z.of_nat (S fuel)).
      { rewrite (Nat2Z.inj_succ (S fuel)), Z.pow_succ_r in Hn by lia.
        split; [apply Z.div_pos; lia |].
        apply Z.div_lt_upper_bound; lia. }
      destruct (IH (n / 16) (String (hex_digit (n mod 16)) acc) Hdiv) as (k & Hk & Hlen & Hread).
      exists (S k). split; [lia |]. split; [rewrite Hlen; cbn [String.length]; lia |].
      intros a c. rewrite Hread, Hstep. f_equal; [| lia].
      rewrite (Nat2Z.inj_succ k), Z.pow_succ_r by lia. lia.
Qed.

(** STR$~ writes the coerced integer of its operand as a hexadecimal
    numeral of its 32-bit two's complement pattern: one to eight digits,
    which read back, as a hexadecimal numeral, to [n mod 2^32] (so -1
    gives a numeral of value 4294967295).  In front of an [&] the result
    is a literal that evaluates to that number again. *)
Theorem hex_string_reads_back E nested st a n rest :
  IntCoercible a n ->
  let stack vs := set_values st (vs ++ rest) in
  exists text,
    call_handler E nested Ptr.EvalStrHex (stack [Number a]) = Return tt (stack [Str text])
    /\ (1 <= String.length text <= 8)%nat
    /\ Sample.read_digits 16 text 0 0 = (to_unsigned n, String.length text)
    /\ Sample.ParseNumeric (String "&" text) 0
       = Some (Double.of_Z (to_unsigned n), S (String.length text)).
Proof.
  intros Ha stack.
  assert (Hu : 0 <= to_unsigned n < 16 ^ Z.of_nat 8).
  { unfold to_unsigned. change (16 ^ Z.of_nat 8) with (2 ^ 32). apply Z.mod_pos_bound. lia. }
  destruct (read_hex_digits 7 (to_unsigned n) EmptyString Hu) as (k & Hk & Hlen & Hread).
  fold (hex_of_int n) in Hlen, Hread. cbn [String.length] in Hlen.
  assert (Hback : Sample.read_digits 16 (hex_of_int n) 0 0
                  = (to_unsigned n, String.length (hex_of_int n))).
  { rewrite Hread. cbn [Sample.read_digits]. f_equal; lia. }
  exists (hex_of_int n). split; [| split; [| split]].
  - cbn [call_handler]. unfold EvalStrHex, bind, stack. cbn [app].
    rewrite (StackTopInt_coercible st a n rest Ha). reflexivity.
  - lia.
  - exact Hback.
  - unfold Sample.ParseNumeric. cbn [String.get].
    change (Sample.is_digit "&") with false. change (Ascii.eqb "&" "&") with true. cbv iota.
    replace (line_from (String "&" (hex_of_int n)) (0 + 1)) with (hex_of_int n).
    + rewrite Hback. destruct (String.length (hex_of_int n)) eqn:Hl; [lia |]. reflexivity.
    + symmetry. apply (line_from_after (String "&" EmptyString) (hex_of_int n)).
Qed.

Lemma hex_string_reads_back_witness :
  exists text,
    call_handler (Sample.env false []) (fun _ => throw IllegalOperation) Ptr.EvalStrHex
      (set_values (Sample.parser "") ([Number (Double.of_Z (-1))] ++ []))
    = Return tt (set_values (Sample.parser "") ([Str text] ++ []))
    /\ (1 <= String.length text <= 8)%nat
    /\ Sample.read_digits 16 text 0 0 = (to_unsigned (-1), String.length text)
    /\ Sample.ParseNumeric (String "&" text) 0
       = Some (Double.of_Z (to_unsigned (-1)), S (String.length text)).
Proof.
  exact (hex_string_reads_back (Sample.env false []) (fun _ => throw IllegalOperation)
           (Sample.parser "") (Double.of_Z (-1)) (-1) [] (fun _ => eq_refl)).
Defined.

(** ** Character literals *)

Lemma get_append (prefix rest : string) (k : nat) :
  String.get (String.length prefix + k) (append prefix rest) = String.get k rest.
Proof. induction prefix as [| x p IH]; cbn; [reflexivity | exact IH]. Qed.

(** With the cursor on an apostrophe, [GetValue] reads a character
    literal: when the apostrophe is followed by a character and a second
    apostrophe it returns the code of that character as the platform's
    plain [char] has it and moves the cursor past the three characters;
    otherwise it throws InvalidCharacter and leaves the cursor.  The code
    is the one ASC gives for the same character when it is below 128 or
    [char] is unsigned; from 128 up with a signed [char] the literal is
    256 less than what ASC gives. *)
Theorem character_literal E nested st prefix body :
  m_column st = String.length prefix ->
  m_line st = append prefix (String apostrophe_char body) ->
  ParseNumeric E (m_line st) (m_column st) = None ->
  GetValue E st
  = match body with
    | String c (String closing _) =>
        if Ascii.eqb closing apostrophe_char
        then Return (Number (double_of_char E c)) (set_column st (String.length prefix + 3))
        else Throw InvalidCharacter st
    | _ => Throw InvalidCharacter st
    end
  /\ forall c others,
       let code := Z.of_nat (nat_of_ascii c) in
       call_handler E nested Ptr.EvalAsc (set_values st (Str (String c others) :: m_valueStack st))
       = Return tt (set_values st (Number (Double.of_Z code) :: m_valueStack st))
       /\ double_of_char E c
          = Double.of_Z (if char_is_signed E && (128 <=? code) then code - 256 else code).
Proof.
  intros Hcol Hline Hnum. split; [| intros c others code; split; reflexivity].
  unfold GetValue, bind, get_state. rewrite Hnum, Hcol, Hline.
  rewrite get_after.
  change (char_is "*" (Some apostrophe_char)) with false.
  change (char_is apostrophe_char (Some apostrophe_char)) with true. cbv iota.
  rewrite length_append. cbn [String.length].
  rewrite !get_append.
  replace (String.length prefix + S (String.length body) - String.length prefix)%nat
    with (S (String.length body)) by lia.
  destruct body as [| c [| closing rest]]; cbn [String.length String.get Nat.ltb Nat.leb orb].
  - destruct st; cbn in *; subst; reflexivity.
  - destruct st; cbn in *; subst; reflexivity.
  - unfold char_is. rewrite Ascii.eqb_sym.
    destruct (Ascii.eqb apostrophe_char closing) eqn:Hc; cbn [negb].
    + reflexivity.
    + destruct st; cbn in *; subst; reflexivity.
Qed.

Lemma character_literal_witness :
  GetValue (Sample.env false [])
    (Sample.parser (String apostrophe_char (String "A" (String apostrophe_char "+1"))))
  = Return (Number (double_of_char (Sample.env false []) "A"))
      (set_column
         (Sample.parser (String apostrophe_char (String "A" (String apostrophe_char "+1"))))
         (String.length "" + 3)).
Proof.
  exact (proj1 (character_literal (Sample.env false []) (fun _ => throw IllegalOperation)
                  (Sample.parser
                     (String apostrophe_char (String "A" (String apostrophe_char "+1"))))
                  "" (String "A" (String apostrophe_char "+1")) eq_refl eq_refl eq_refl)).
Defined.

(** ** The six comparisons together *)

(** On two values of one tag the six comparisons read one result of
    [Value::Compare] and so agree with each other, whatever that result
    is: exactly one of [a < b], [a = b] and [a > b] is true, [a <= b] is
    [(a < b) OR (a = b)], [a >= b] is [(a > b) OR (a = b)] and [a <> b] is
    the negation of [a = b]. *)
Theorem comparisons_agree E nested st a b rest :
  GetType a = GetType b ->
  let result h := call_handler E nested h (set_values st (b :: a :: rest)) in
  let leaves t := Return tt (set_values st (truth t :: rest)) in
  exists less same more,
    result Ptr.EvalLessThan = leaves less
    /\ result Ptr.EvalEqual = leaves same
    /\ result Ptr.EvalMoreThan = leaves more
    /\ result Ptr.EvalLessThanOrEqual = leaves (less || same)
    /\ result Ptr.EvalMoreThanOrEqual = leaves (more || same)
    /\ result Ptr.EvalNotEqual = leaves (negb same)
    /\ ((less = true /\ same = false /\ more = false)
        \/ (less = false /\ same = true /\ more = false)
        \/ (less = false /\ same = false /\ more = true)).
Proof.
  intros Htag result leaves.
  set (c := Compare E a b).
  exists (c <? 0), (c =? 0), (c >? 0).
  assert (Htop : StackTopTwoValues (set_values st (b :: a :: rest))
                 = Return (a, b) (set_values st (b :: a :: rest))).
  { unfold StackTopTwoValues, bind, get_values. cbn [set_values m_valueStack].
    rewrite Htag. destruct (GetType b); reflexivity. }
  assert (Hpush : forall t, SetSecondAndPop (truth t) (set_values st (b :: a :: rest))
                            = leaves t).
  { intros t. reflexivity. }
  unfold result. cbn [call_handler].
  unfold EvalLessThan, EvalEqual, EvalMoreThan, EvalLessThanOrEqual, EvalMoreThanOrEqual,
    EvalNotEqual, bind.
  rewrite Htop. cbn [fst snd]. fold c. rewrite !Hpush.
  assert (Hle : (c <=? 0) = ((c <? 0) || (c =? 0))).
  { destruct (Z.leb_spec c 0), (Z.ltb_spec c 0), (Z.eqb_spec c 0); cbn [orb]; lia. }
  assert (Hge : (c >=? 0) = ((c >? 0) || (c =? 0))).
  { rewrite Z.geb_leb. destruct (Z.leb_spec 0 c), (Z.gtb_spec c 0), (Z.eqb_spec c 0);
      cbn [orb]; lia. }
  rewrite Hle, Hge.
  repeat (split; [reflexivity |]).
  destruct (Z.ltb_spec c 0), (Z.eqb_spec c 0), (Z.gtb_spec c 0); try lia; tauto.
Qed.

Lemma comparisons_agree_witness :
  exists less same more,
    call_handler (Sample.env false []) (fun _ => throw IllegalOperation) Ptr.EvalLessThan
      (set_values (Sample.parser "") [Str "b"; Str "a"])
    = Return tt (set_values (Sample.parser "") [truth less])
    /\ call_handler (Sample.env false []) (fun _ => throw IllegalOperation) Ptr.EvalEqual
         (set_values (Sample.parser "") [Str "b"; Str "a"])
       = Return tt (set_values (Sample.parser "") [truth same])
    /\ call_handler (Sample.env false []) (fun _ => throw IllegalOperation) Ptr.EvalMoreThan
         (set_values (Sample.parser "") [Str "b"; Str "a"])
       = Return tt (set_values (Sample.parser "") [truth more])
    /\ call_handler (Sample.env false []) (fun _ => throw IllegalOperation)
         Ptr.EvalLessThanOrEqual (set_values (Sample.parser "") [Str "b"; Str "a"])
       = Return tt (set_values (Sample.parser "") [truth (less || same)])
    /\ call_handler (Sample.env false []) (fun _ => throw IllegalOperation)
         Ptr.EvalMoreThanOrEqual (set_values (Sample.parser "") [Str "b"; Str "a"])
       = Return tt (set_values (Sample.parser "") [truth (more || same)])
    /\ call_handler (Sample.env false []) (fun _ => throw IllegalOperation) Ptr.EvalNotEqual
         (set_values (Sample.parser "") [Str "b"; Str "a"])
       = Return tt (set_values (Sample.parser "") [truth (negb same)])
    /\ ((less = true /\ same = false /\ more = false)
        \/ (less = false /\ same = true /\ more = false)
        \/ (less = false /\ same = false /\ more = true)).
Proof.
  exact (comparisons_agree (Sample.env false []) (fun _ => throw IllegalOperation)
           (Sample.parser "") (Str "a") (Str "b") [] eq_refl).
Defined.

(** ** Sign, magnitude and negation *)



(** ** RND *)

(** RND throws IllegalOperation on an operand below 1 without drawing a
    random number.  On exactly 1 it draws one number [r] and leaves
    [r / (BEEBASM_RAND_MAX + 1)].  A NaN is neither below 1 nor equal to
    1, so it takes the last branch, where the product with the random
    fraction is a NaN again and its conversion to an integer is the
    undefined cast of [ConvertDoubleToInt]. *)
Theorem rnd_edge_cases E nested st rest :
  let stack vs := set_values st (vs ++ rest) in
  let drawn := beebasm_rand E (rand_state st) in
  let scale := Double.add (Double.of_Z (BEEBASM_RAND_MAX E)) (Double.of_Z 1) in
  (forall x, Double.ltb x (Double.of_Z 1) = true ->
      call_handler E nested Ptr.EvalRnd (stack [Number x])
      = Throw IllegalOperation (stack [Number x]))
  /\ call_handler E nested Ptr.EvalRnd (stack [Number (Double.of_Z 1)])
     = Return tt (set_rand (stack [Number (Double.div (Double.of_Z (fst drawn)) scale)])
                    (snd drawn))
  /\ call_handler E nested Ptr.EvalRnd (stack [Number S754_nan]) = Undefined.
Proof.
  intros stack drawn scale. unfold stack, drawn, scale. cbn [app].
  destruct st as [line col vs ops e r].
  split; [| split].
  - intros x Hlow. change (Double.of_Z 1) with d_one in Hlow.
    unfold_engine. rewrite Hlow. reflexivity.
  - reflexivity.
  - unfold_engine.
    change (Double.ltb S754_nan d_one) with false.
    change (Double.eqb S754_nan d_one) with false. unfold_engine.
    assert (Hnan : forall y, Double.mul y S754_nan = S754_nan).
    { intros y. destruct y; reflexivity. }
    rewrite Hnan. reflexivity.
Qed.

(** ** What GetValue leaves alone *)

Lemma get_none (s : string) (n : nat) : String.get n s = None -> (String.length s <= n)%nat.
Proof.
  revert n. induction s as [| c s IH]; intros n; [cbn; lia |].
  destruct n as [| n]; cbn [String.get String.length]; [discriminate |].
  intros H. apply IH in H. lia.
Qed.

(** [GetValue] always returns or throws, whatever the line and the cursor
    (the second and third character of a character literal are read only
    when the line holds them).  It throws nothing but InvalidCharacter,
    MissingQuote, SymbolNotDefined and TimeResultTooBig; of the parser it
    changes the cursor and nothing else (the line and both stacks are as
    before); and when it throws InvalidCharacter the cursor has not moved
    either. *)
Theorem GetValue_only_moves_the_cursor E st :
  match GetValue E st with
  | Return _ st' => cursor_only st st'
  | Throw e st' =>
      cursor_only st st'
      /\ In e [InvalidCharacter; MissingQuote; SymbolNotDefined; TimeResultTooBig]
      /\ (e = InvalidCharacter -> st' = st)
  | _ => False
  end.
Proof.
  destruct st as [line col vs ops e r].
  unfold GetValue, bind, get_state. cbn [m_line m_column].
  destruct (ParseNumeric E line col) as [[d col'] |]; [repeat split |].
  destruct (char_is "*" (String.get col line)); [repeat split |].
  destruct (char_is apostrophe_char (String.get col line)).
  { destruct ((String.length line - col <? 3)%nat
              || negb (char_is apostrophe_char (String.get (col + 2) line))) eqn:Hbad.
    - unfold throw. split; [repeat split |]. split; [left; reflexivity | reflexivity].
    - apply orb_false_elim in Hbad as [Hlen _]. apply Nat.ltb_ge in Hlen.
      destruct (String.get (col + 1) line) as [c |] eqn:Hget; [repeat split |].
      apply get_none in Hget. lia. }
  destruct (char_is quote_char (String.get col line)).
  { destruct (scan_string_literal (line_from line (col + 1)) (col + 1) EmptyString)
      as [[text col'] |].
    - repeat split.
    - unfold put_column, throw. cbn [set_column].
      split; [repeat split |]. split; [right; left; reflexivity | discriminate]. }
  destruct (String.get col line) as [c |].
  - destruct (IsAlpha c || Ascii.eqb c "_").
    + destruct (GetSymbolName E line col) as [symbolName col'].
      unfold put_column. cbn [set_column].
      destruct (String.eqb symbolName "TIME$").
      * unfold FormatAssemblyTime.
        destruct (String.length (strftime_assembly_time E "%a,%d %b %Y.%H:%M:%S") =? 0)%nat.
        -- unfold throw. split; [repeat split |].
           split; [right; right; right; left; reflexivity | discriminate].
        -- repeat split.
      * destruct (GetSymbolValue E symbolName) as [value |].
        -- repeat split.
        -- unfold throw. split; [repeat split |].
           split; [right; right; left; reflexivity | discriminate].
    + unfold throw. split; [repeat split |]. split; [left; reflexivity | reflexivity].
  - unfold throw. split; [repeat split |]. split; [left; reflexivity | reflexivity].
Qed.

(** ** Addition, subtraction and multiplication of numbers *)

Lemma Double_add_comm x y : Double.add x y = Double.add y x.
Proof.
  unfold Double.add, SFadd.
  destruct x as [sx | sx | | sx mx ex], y as [sy | sy | | sy my ey];
    try reflexivity; try (destruct sx, sy; reflexivity).
  rewrite Z.min_comm, Z.add_comm. reflexivity.
Qed.

Lemma Double_mul_comm x y : Double.mul x y = Double.mul y x.
Proof.
  unfold Double.mul, SFmul.
  destruct x as [sx | sx | | sx mx ex], y as [sy | sy | | sy my ey];
    try reflexivity; try (rewrite xorb_comm; reflexivity).
  rewrite xorb_comm, Pos.mul_comm, Z.add_comm. reflexivity.
Qed.

Lemma Double_sub_add x y : Double.sub x y = Double.add x (Double.neg y).
Proof.
  unfold Double.sub, Double.add, Double.neg, SFsub, SFadd, SFopp.
  destruct x as [sx | sx | | sx mx ex], y as [sy | sy | | sy my ey];
    try reflexivity; try (destruct sx, sy; reflexivity).
Qed.

(** On two numbers [+] and [*] give the same double with the operands in
    either order: the same finite number, the same zero or infinity, or a
    NaN both times; and [a - b] is what unary minus on [b] followed by [+]
    gives.  On two strings [+] is concatenation, left operand first, which
    does depend on the order. *)
Theorem plus_and_times_commute E nested st a b rest :
  let stack vs := set_values st (vs ++ rest) in
  call_handler E nested Ptr.EvalAdd (stack [Number b; Number a])
  = call_handler E nested Ptr.EvalAdd (stack [Number a; Number b])
  /\ call_handler E nested Ptr.EvalMultiply (stack [Number b; Number a])
     = call_handler E nested Ptr.EvalMultiply (stack [Number a; Number b])
  /\ call_handler E nested Ptr.EvalSubtract (stack [Number b; Number a])
     = (call_handler E nested Ptr.EvalNegate ;;; call_handler E nested Ptr.EvalAdd)
         (stack [Number b; Number a])
  /\ (forall s t,
        call_handler E nested Ptr.EvalAdd (stack [Str t; Str s])
        = Return tt (stack [Str (append s t)]))
  /\ (exists s t,
        call_handler E nested Ptr.EvalAdd (stack [Str t; Str s])
        <> call_handler E nested Ptr.EvalAdd (stack [Str s; Str t])).
Proof.
  intros stack. unfold stack. cbn [app].
  assert (Hadd : forall x y, call_handler E nested Ptr.EvalAdd
                               (set_values st (Number y :: Number x :: rest))
                             = Return tt (set_values st (Number (Double.add x y) :: rest)))
    by reflexivity.
  assert (Hmul : forall x y, call_handler E nested Ptr.EvalMultiply
                               (set_values st (Number y :: Number x :: rest))
                             = Return tt (set_values st (Number (Double.mul x y) :: rest)))
    by reflexivity.
  split; [rewrite !Hadd, Double_add_comm; reflexivity |].
  split; [rewrite !Hmul, Double_mul_comm; reflexivity |].
  split.
  { unfold bind.
    change (call_handler E nested Ptr.EvalNegate (set_values st (Number b :: Number a :: rest)))
      with (Return tt (set_values st (Number (Double.neg b) :: Number a :: rest))).
    cbv iota. rewrite Hadd, <- Double_sub_add. reflexivity. }
  split; [reflexivity |].
  exists "a"%string, "b"%string. intros H.
  apply (f_equal (fun out : Outcome unit =>
                    match out with
                    | Return _ s => m_valueStack s
                    | _ => []
                    end)) in H.
  cbn in H. discriminate H.
Qed.
